(** * Shell-E: planning, safety classification and execution pipeline

    A shallow embedding of the Go packages [safety], [memory], [planner]
    and [executor] of Shell-E, with the properties of the design
    document stated and proved over it.

    Go strings are byte sequences; they are modelled by [string] (a list
    of 8-bit [ascii] characters).  Go [int] values that the code compares
    or subtracts are modelled by [Z]. *)

From stdpp Require Import gmap strings list.
From Stdlib Require Import Ascii ZArith Lia.

(** ** The Go [strings] package

    The functions of the package that work on bytes are defined below:
    [HasPrefix], [Index], [Contains], [ReplaceAll], [Split], [Join] and
    [LastIndexByte], and [Trim], [TrimLeft], [IndexAny] and
    [ContainsAny] for the ASCII cutsets the code passes to them.

    [ToLower], [TrimSpace] and [Fields] decode UTF-8 and consult the
    Unicode tables: [ToLower] maps the capital letters of every script
    and may change the length of the text, [TrimSpace] and [Fields] also
    know U+0085, U+00A0 and the further Unicode spaces.  These three are
    not defined here: the packages are modelled over any implementation
    of them ([Ops]), and the few facts about them that some properties
    need are collected in [Laws]. *)
Module GoStrings.

Definition byte_of (c : ascii) : nat := nat_of_ascii c.

Definition is_upper (c : ascii) : bool :=
  (65 <=? byte_of c)%nat && (byte_of c <=? 90)%nat.

Definition lower_byte (c : ascii) : ascii :=
  if is_upper c then ascii_of_nat (byte_of c + 32) else c.

(** The letters A to Z in lower case, the other bytes as they are: what
    [ToLower] returns for a text of ASCII bytes. *)
Fixpoint lower_bytes (s : string) : string :=
  match s with
  | EmptyString => EmptyString
  | String c r => String (lower_byte c) (lower_bytes r)
  end.

(** Whether every byte of [s] is below 0x80. *)
Fixpoint ascii_only (s : string) : bool :=
  match s with
  | EmptyString => true
  | String c r => (byte_of c <? 128)%nat && ascii_only r
  end.

(** The ASCII white space: '\t', '\n', '\v', '\f', '\r', ' ' *)
Definition is_space (c : ascii) : bool :=
  ((9 <=? byte_of c)%nat && (byte_of c <=? 13)%nat) || (byte_of c =? 32)%nat.

Definition is_empty (s : string) : bool :=
  match s with EmptyString => true | String _ _ => false end.

Fixpoint mem_byte (c : ascii) (cutset : string) : bool :=
  match cutset with
  | EmptyString => false
  | String d r => Ascii.eqb c d || mem_byte c r
  end.

(** [TrimLeftFunc] and [TrimRightFunc]: drop the longest prefix (suffix)
    of bytes satisfying [f]. *)
Fixpoint TrimLeftFunc (f : ascii -> bool) (s : string) : string :=
  match s with
  | EmptyString => EmptyString
  | String c r => if f c then TrimLeftFunc f r else s
  end.

Fixpoint TrimRightFunc (f : ascii -> bool) (s : string) : string :=
  match s with
  | EmptyString => EmptyString
  | String c r =>
      let r' := TrimRightFunc f r in
      if f c && is_empty r' then EmptyString else String c r'
  end.

(** [s] without the ASCII white space at its two ends: what [TrimSpace]
    returns for a text of ASCII bytes. *)
Definition trim_blanks (s : string) : string :=
  TrimRightFunc is_space (TrimLeftFunc is_space s).

Definition TrimLeft (s cutset : string) : string :=
  TrimLeftFunc (fun c => mem_byte c cutset) s.

Definition Trim (s cutset : string) : string :=
  TrimRightFunc (fun c => mem_byte c cutset)
    (TrimLeftFunc (fun c => mem_byte c cutset) s).

Definition HasPrefix (s pre : string) : bool := String.prefix pre s.

(** Offset of the first occurrence of [sub] at or after offset [i]. *)
Fixpoint index_from (i : nat) (s sub : string) : option nat :=
  if String.prefix sub s then Some i
  else match s with
       | EmptyString => None
       | String _ r => index_from (S i) r sub
       end.

(** [Index] returns -1 when [sub] does not occur in [s]. *)
Definition Index (s sub : string) : Z :=
  match index_from 0 s sub with
  | Some i => Z.of_nat i
  | None => (-1)%Z
  end.

Definition Contains (s sub : string) : bool := (0 <=? Index s sub)%Z.

Fixpoint index_any_from (i : nat) (s chars : string) : option nat :=
  match s with
  | EmptyString => None
  | String c r => if mem_byte c chars then Some i else index_any_from (S i) r chars
  end.

Definition IndexAny (s chars : string) : Z :=
  match index_any_from 0 s chars with
  | Some i => Z.of_nat i
  | None => (-1)%Z
  end.

Definition ContainsAny (s chars : string) : bool := (0 <=? IndexAny s chars)%Z.

Fixpoint last_index_byte_from (i : nat) (s : string) (c : ascii) : option nat :=
  match s with
  | EmptyString => None
  | String d r =>
      match last_index_byte_from (S i) r c with
      | Some j => Some j
      | None => if Ascii.eqb d c then Some i else None
      end
  end.

Definition LastIndexByte (s : string) (c : ascii) : Z :=
  match last_index_byte_from 0 s c with
  | Some i => Z.of_nat i
  | None => (-1)%Z
  end.

(** Slice expressions [s[i:]], [s[:j]] and [s[i:j]] for offsets within
    the string.  They are used where the code has made sure of that
    before it slices; where it has not, the model tests the bounds
    itself and gives the panic as [None]. *)
Fixpoint drop_bytes (n : nat) (s : string) : string :=
  match n, s with
  | O, _ => s
  | S n', String _ r => drop_bytes n' r
  | S _, EmptyString => EmptyString
  end.

Fixpoint take_bytes (n : nat) (s : string) : string :=
  match n, s with
  | S n', String c r => String c (take_bytes n' r)
  | _, _ => EmptyString
  end.

Definition slice_from (s : string) (i : Z) : string := drop_bytes (Z.to_nat i) s.
Definition slice_to (s : string) (j : Z) : string := take_bytes (Z.to_nat j) s.
Definition slice (s : string) (i j : Z) : string :=
  take_bytes (Z.to_nat (j - i)) (drop_bytes (Z.to_nat i) s).

Definition len (s : string) : Z := Z.of_nat (String.length s).

(** [ReplaceAll s old new]: the non-overlapping occurrences of [old] are
    replaced from left to right.  [fuel] bounds the number of bytes
    still to copy after a match, which shortens the rest.  With [old]
    empty Go inserts [new] before every rune and at the end; the code
    passes an empty [old] only together with an empty [new] (the
    stripped variant of a working directory made of separators), and
    then the text is returned as it is, which is all that
    [intersperse_before] is used for. *)
Fixpoint replace_nonempty (fuel : nat) (s old new : string) : string :=
  match fuel with
  | O => s
  | S fuel' =>
      if String.prefix old s
      then new +:+ replace_nonempty fuel' (drop_bytes (String.length old) s) old new
      else match s with
           | EmptyString => EmptyString
           | String c r => String c (replace_nonempty fuel' r old new)
           end
  end.

Fixpoint intersperse_before (s new : string) : string :=
  match s with
  | EmptyString => new
  | String c r => new +:+ String c (intersperse_before r new)
  end.

Definition ReplaceAll (s old new : string) : string :=
  if is_empty old then intersperse_before s new
  else replace_nonempty (S (String.length s)) s old new.

(** [Split s sep] for a one-byte separator. *)
Fixpoint split_byte (s : string) (sep : ascii) : list string :=
  match s with
  | EmptyString => [EmptyString]
  | String c r =>
      match split_byte r sep with
      | [] => [EmptyString]
      | w :: ws => if Ascii.eqb c sep then EmptyString :: w :: ws
                   else String c w :: ws
      end
  end.

(** The maximal runs of bytes that are not ASCII white space: what
    [Fields] returns for a text of ASCII bytes. *)
Fixpoint fields_aux (s : string) : string * list string :=
  match s with
  | EmptyString => (EmptyString, [])
  | String c r =>
      let '(w, ws) := fields_aux r in
      if is_space c then (EmptyString, if is_empty w then ws else w :: ws)
      else (String c w, ws)
  end.

Definition blank_fields (s : string) : list string :=
  let '(w, ws) := fields_aux s in if is_empty w then ws else w :: ws.

Fixpoint Join (parts : list string) (sep : string) : string :=
  match parts with
  | [] => EmptyString
  | [p] => p
  | p :: ps => p +:+ sep +:+ Join ps sep
  end.

(** [ToLower], [TrimSpace] and [Fields], whatever their implementation. *)
Class Ops : Type := {
  ToLower : string -> string;
  TrimSpace : string -> string;
  Fields : string -> list string
}.

(** What the properties below use of the three functions.  Each law
    holds of the Go library:
    - [ToLower] maps rune after rune; a byte below 0x80 is a rune of its
      own wherever it stands, and its lower case is [lower_byte] of it;
    - every rune of the text gives one rune of the result and takes at
      least one byte, so the text has at least as many bytes as the
      result has ASCII bytes at its start;
    - on a text of ASCII bytes [TrimSpace] strips the six ASCII white
      space bytes from the two ends;
    - a byte of ASCII white space always separates two fields. *)
Class Laws (str : Ops) : Prop := {
  ToLower_empty : ToLower EmptyString = EmptyString;
  ToLower_ascii : forall a b,
    ascii_only a = true -> ToLower (a +:+ b) = lower_bytes a +:+ ToLower b;
  ToLower_prefix : forall s p,
    ascii_only p = true -> String.prefix p (ToLower s) = true ->
    (String.length p <= String.length s)%nat;
  TrimSpace_ascii : forall s,
    ascii_only s = true -> TrimSpace s = trim_blanks s;
  Fields_blank : forall s w c,
    In w (Fields s) -> mem_byte c w = true -> is_space c = false
}.

End GoStrings.

(** ** Package [safety]: the rule-table classifier *)
Module safety.
Import GoStrings.

Inductive Level : Type :=
  | Safe          (* Execute immediately *)
  | NeedsConfirm  (* Ask user for confirmation *)
  | Blocked.      (* Never execute *)

Record Assessment : Type := mkAssessment {
  level : Level;
  Reason : string;
  Command : string
}.

Record pattern : Type := mkPattern {
  match_ : string;
  reason : string
}.

Record Checker : Type := mkChecker {
  blockedPatterns : list pattern;
  confirmPatterns : list pattern
}.

Definition NewChecker : Checker := {|
  blockedPatterns := [
    (* System destruction *)
    mkPattern "format-volume" "Cannot format volumes — this destroys data permanently";
    mkPattern "format c:" "Cannot format system drive";
    mkPattern "format d:" "Cannot format drives";
    mkPattern "remove-item -recurse c:\windows" "Cannot delete Windows system directory";
    mkPattern "remove-item -recurse c:/windows" "Cannot delete Windows system directory";
    mkPattern "del /s /q c:\windows" "Cannot delete Windows system directory";
    mkPattern "rd /s /q c:\windows" "Cannot delete Windows system directory";
    mkPattern "rm -rf /" "Cannot delete root directory";
    mkPattern "del /s /q c:\" "Cannot recursively delete system drive";
    mkPattern "rd /s /q c:\" "Cannot recursively delete system drive";
    mkPattern ":(){:|:&};:" "Fork bomb detected";
    (* Registry destruction *)
    mkPattern "reg delete hklm" "Cannot modify system registry";
    mkPattern "remove-itemproperty hklm:" "Cannot modify system registry";
    (* Privilege escalation *)
    mkPattern "net user administrator" "Cannot modify administrator account";
    mkPattern "set-executionpolicy unrestricted" "Cannot weaken security policy"
  ];
  confirmPatterns := [
    (* Process management *)
    mkPattern "stop-process" "This will terminate a running process";
    mkPattern "taskkill" "This will terminate a running process";
    mkPattern "kill" "This will terminate processes";
    (* System power *)
    mkPattern "shutdown" "This will shut down the computer";
    mkPattern "restart-computer" "This will restart the computer";
    mkPattern "stop-computer" "This will shut down the computer";
    (* File deletion *)
    mkPattern "remove-item" "This will delete files or folders";
    mkPattern "del " "This will delete files";
    mkPattern "rmdir" "This will remove a directory";
    mkPattern "rd " "This will remove a directory";
    (* Network changes *)
    mkPattern "netsh" "This modifies network configuration";
    mkPattern "set-dnsclientserveraddress" "This changes DNS settings";
    (* Service management *)
    mkPattern "stop-service" "This will stop a system service";
    mkPattern "set-service" "This modifies a system service";
    mkPattern "sc stop" "This will stop a system service";
    mkPattern "sc delete" "This will delete a system service"
  ]
|}.

(** The [for ... range] loop over a rule table: the first rule whose
    [match_] occurs in [lower], if any. *)
Fixpoint first_match (lower : string) (ps : list pattern) : option pattern :=
  match ps with
  | [] => None
  | p :: ps' => if Contains lower (match_ p) then Some p else first_match lower ps'
  end.

Section WithStrings.
Context {str : Ops}.

(** [Check] evaluates a command and returns a safety assessment. *)
Definition Check (c : Checker) (command : string) : Assessment :=
  let lower := ToLower (TrimSpace command) in
  (* Check blocked patterns first *)
  match first_match lower (blockedPatterns c) with
  | Some p =>
      {| level := Blocked;
         Reason := "🚫 BLOCKED: " +:+ reason p;
         Command := command |}
  | None =>
      (* Check patterns that need confirmation *)
      match first_match lower (confirmPatterns c) with
      | Some p =>
          {| level := NeedsConfirm;
             Reason := "⚠️  " +:+ reason p +:+ " — confirm? (y/n)";
             Command := command |}
      | None =>
          (* Default: safe *)
          {| level := Safe; Reason := EmptyString; Command := command |}
      end
  end.

End WithStrings.

End safety.

(** ** The host operating system, as the packages see it *)

(** Package [path/filepath].  Its functions depend on the platform
    (separator, volume names), so the packages are modelled over any
    implementation of the three functions they call. *)
Module filepath.

Class Ops : Type := {
  Join : list string -> string;
  IsAbs : string -> bool;
  Clean : string -> string
}.

End filepath.

(** The files the [memory] package writes: the contents of the regular
    files by path; whether the operating system lets a path be opened
    with [O_APPEND|O_CREATE|O_WRONLY] (its directory exists and may be
    written); and how many bytes of a text it takes when the text is
    written to the file opened at a path (all of them, unless the write
    fails: the disk is full, say). *)
Module os.

Record Disk : Type := mkDisk {
  files : gmap string string;
  appendable : string -> bool;
  accepted : string -> string -> nat
}.

(** [os.OpenFile(path, O_APPEND|O_CREATE|O_WRONLY, 0644)] followed by
    [f.WriteString(data)] and [f.Close()]; [None] when the open fails.
    After a successful open the file exists, and holds what it held
    before followed by the bytes of [data] that were written; the code
    drops the error of a write that fails. *)
Definition append_file (d : Disk) (path data : string) : option Disk :=
  if appendable d path
  then Some {| files :=
                 <[path := default EmptyString (files d !! path)
                           +:+ GoStrings.take_bytes (accepted d path data) data]> (files d);
               appendable := appendable d;
               accepted := accepted d |}
  else None.

End os.

(** Package [time]: a wall-clock reading by its calendar fields, and the
    two layouts the code formats it with. *)
Module time.

Record Time : Type := mkTime {
  Year : Z; Month : Z; Day : Z; Hour : Z; Minute : Z
}.

Definition digit (n : Z) : ascii := ascii_of_nat (48 + Z.to_nat (n mod 10)).

Definition pad2 (n : Z) : string :=
  String (digit (n / 10)) (String (digit n) EmptyString).

Definition pad4 (n : Z) : string :=
  String (digit (n / 1000)) (String (digit (n / 100)) (pad2 n)).

(** [t.Format("2006-01-02")] *)
Definition Format_date (t : Time) : string :=
  pad4 (Year t) +:+ "-" +:+ pad2 (Month t) +:+ "-" +:+ pad2 (Day t).

(** [t.Format("15:04")] *)
Definition Format_clock (t : Time) : string :=
  pad2 (Hour t) +:+ ":" +:+ pad2 (Minute t).

End time.

Definition nl : string := String "010"%char EmptyString.
Definition tab : string := String "009"%char EmptyString.
Definition cr : string := String "013"%char EmptyString.
Definition dquote : string := String "034"%char EmptyString.
Definition bslash : string := String "092"%char EmptyString.

(** ** Package [memory]: the bounded conversation log

    [Load] and [Save], which none of the functions below calls, are
    left out; [FormatForPrompt] follows in a module of its own. *)
Module memory.
Import GoStrings.

(** [Exchange] represents one user-agent interaction. *)
Record Exchange : Type := mkExchange {
  Timestamp : time.Time;
  UserInput : string;
  Command : string;
  Result : string;
  Response : string
}.

(** [ContextInfo] is injected into the LLM prompt. *)
Record ContextInfo : Type := mkContextInfo {
  WorkingDirectory : string;
  ctx_LastAction : string;
  ctx_LastCreated : string;
  RecentExchanges : list Exchange
}.

(** [Memory] manages persistent context (the mutex is left out: the
    model is sequential). *)
Record Memory : Type := mkMemory {
  dataDir : string;
  WorkingDir : string;
  LastAction : string;
  LastCreated : string;
  Exchanges : list Exchange;
  MaxExchanges : Z;  (* How many to keep in active memory *)
  CompactAfter : Z   (* Compact after this many exchanges *)
}.

Definition set_Exchanges (m : Memory) (l : list Exchange) : Memory :=
  {| dataDir := dataDir m; WorkingDir := WorkingDir m;
     LastAction := LastAction m; LastCreated := LastCreated m;
     Exchanges := l;
     MaxExchanges := MaxExchanges m; CompactAfter := CompactAfter m |}.

Definition set_LastAction (m : Memory) (s : string) : Memory :=
  {| dataDir := dataDir m; WorkingDir := WorkingDir m;
     LastAction := s; LastCreated := LastCreated m;
     Exchanges := Exchanges m;
     MaxExchanges := MaxExchanges m; CompactAfter := CompactAfter m |}.

Definition set_LastCreated (m : Memory) (s : string) : Memory :=
  {| dataDir := dataDir m; WorkingDir := WorkingDir m;
     LastAction := LastAction m; LastCreated := s;
     Exchanges := Exchanges m;
     MaxExchanges := MaxExchanges m; CompactAfter := CompactAfter m |}.

(** [NewMemory]; [cwd] is what [os.Getwd] returned. *)
Definition NewMemory (cwd : string) (dataDir : string) : Memory :=
  {| dataDir := dataDir; WorkingDir := cwd;
     LastAction := EmptyString; LastCreated := EmptyString;
     Exchanges := [];
     MaxExchanges := 5; CompactAfter := 20 |}.

Section WithStrings.
Context {str : Ops}.

(** [ExtractNameFromCommand] tries to pull a folder/file name from a
    command.  The offset [idx] is one of the lower-cased text, which
    need not be as long as [cmd]: the result is [None] when the slice
    expression [cmd[idx+5:]] panics. *)
Definition ExtractNameFromCommand (cmd : string) : option string :=
  (* Look for -Name 'xxx' or -Name xxx *)
  let lower := ToLower cmd in
  let idx := Index lower "-name" in
  if negb (idx =? -1)%Z then
    if (idx + 5 <=? len cmd)%Z then
      let rest := TrimSpace (slice_from cmd (idx + 5)) in
      let rest := TrimLeft rest " " in
      (* Remove quotes *)
      let name := Trim rest ("'" +:+ dquote) in
      (* Take first word/token *)
      let sp := IndexAny name (" " +:+ tab) in
      Some (if negb (sp =? -1)%Z then slice_to name sp else name)
    else None
  else
    (* Look for mkdir xxx *)
    if Contains lower "mkdir" then
      let parts := Fields cmd in
      if (2 <=? length parts)%nat
      then Some (Trim (List.last parts EmptyString) ("'" +:+ dquote))
      else Some EmptyString
    else Some EmptyString.

(** [ExtractPathFromCommand] pulls a path from explorer or cd commands. *)
Definition ExtractPathFromCommand (cmd : string) : string :=
  let parts := Fields cmd in
  if (2 <=? length parts)%nat
  then Trim (List.last parts EmptyString) ("'" +:+ dquote)
  else EmptyString.

(** The text [compact] appends to the daily note for the exchanges
    [old]. *)
Definition note_entry (ex : Exchange) : string :=
  ("- [" +:+ time.Format_clock (Timestamp ex) +:+ "] User: " +:+ UserInput ex +:+ nl)
  +:+ (if is_empty (Command ex) then EmptyString
       else "  Command: `" +:+ Command ex +:+ "`" +:+ nl)
  +:+ ("  Response: " +:+ Response ex +:+ nl +:+ nl).

Fixpoint note_entries (old : list Exchange) : string :=
  match old with
  | [] => EmptyString
  | ex :: rest => note_entry ex +:+ note_entries rest
  end.

Definition note_text (today : string) (old : list Exchange) : string :=
  ("# Shell-E Session â€” " +:+ today +:+ nl +:+ nl) +:+ note_entries old.

End WithStrings.

Section WithHost.
Context {str : Ops} {fp : filepath.Ops}.

Definition notePath (m : Memory) (today : string) : string :=
  filepath.Join [dataDir m; "memory"; today +:+ ".md"].

(** [compact] summarizes old exchanges and saves to daily note.  [now]
    is the reading of [time.Now()].  The result is [None] when the slice
    expressions panic, which a negative [MaxExchanges] makes them do
    (the low bound [len - MaxExchanges] then lies beyond [len]). *)
Definition compact (m : Memory) (d : os.Disk) (now : time.Time)
    : option (Memory * os.Disk) :=
  let n := Z.of_nat (length (Exchanges m)) in
  if (n <=? MaxExchanges m)%Z then Some (m, d)
  else if (MaxExchanges m <? 0)%Z then None
  else
    (* Keep last MaxExchanges, summarize the rest into a daily note *)
    let k := Z.to_nat (n - MaxExchanges m) in
    let old := take k (Exchanges m) in
    let m' := set_Exchanges m (drop k (Exchanges m)) in
    (* Write compacted history to daily note *)
    let today := time.Format_date now in
    let note := note_text today old in
    (* Append to existing note (or create new) *)
    match os.append_file d (notePath m today) note with
    | Some d' => Some (m', d')
    | None => Some (m', d)
    end.

(** [RecordExchange] adds a new interaction to memory.  [now] and
    [now'] are the readings of [time.Now()] in [RecordExchange] and in
    [compact].  The result is [None] when the call panics, in
    [ExtractNameFromCommand] or in [compact]. *)
Definition RecordExchange (m : Memory) (d : os.Disk) (now now' : time.Time)
    (userInput command result response : string) : option (Memory * os.Disk) :=
  let ex := {| Timestamp := now; UserInput := userInput; Command := command;
               Result := result; Response := response |} in
  let m := set_Exchanges m (Exchanges m ++ [ex]) in
  (* Update context hints *)
  let m := set_LastAction m response in
  let hinted :=
    if negb (is_empty command) then
      let lower := ToLower command in
      (* Try to detect what was created/opened for context resolution *)
      if Contains lower "new-item" || Contains lower "mkdir"
      then match ExtractNameFromCommand command with
           | Some name => Some (set_LastCreated m name)
           | None => None
           end
      else if Contains lower "explorer"
      then Some (set_LastCreated m (ExtractPathFromCommand command))
      else Some m
    else Some m in
  match hinted with
  | None => None
  | Some m =>
      (* Compact if needed *)
      if (CompactAfter m <? Z.of_nat (length (Exchanges m)))%Z
      then compact m d now'
      else Some (m, d)
  end.

End WithHost.

(** [GetContext] returns the current context for the planner; [None]
    when the slice expression panics (negative [MaxExchanges]). *)
Definition GetContext (m : Memory) : option ContextInfo :=
  (* Get the last N exchanges for the active context *)
  let n := Z.of_nat (length (Exchanges m)) in
  let ctx recent :=
    {| WorkingDirectory := WorkingDir m; ctx_LastAction := LastAction m;
       ctx_LastCreated := LastCreated m; RecentExchanges := recent |} in
  if (MaxExchanges m <? n)%Z then
    if (MaxExchanges m <? 0)%Z then None
    else Some (ctx (drop (Z.to_nat (n - MaxExchanges m)) (Exchanges m)))
  else Some (ctx (Exchanges m)).

(** [GetHistory] returns all exchanges. *)
Definition GetHistory (m : Memory) : list Exchange := Exchanges m.

(** [Clear] resets the conversation memory. *)
Definition Clear (m : Memory) : Memory :=
  {| dataDir := dataDir m; WorkingDir := WorkingDir m;
     LastAction := EmptyString; LastCreated := EmptyString;
     Exchanges := [];
     MaxExchanges := MaxExchanges m; CompactAfter := CompactAfter m |}.

End memory.

(** What a Go call yields: a value, a returned [error] (by its message),
    or a run-time panic. *)
Inductive result (A : Type) : Type :=
  | Return (a : A)
  | Error (msg : string)
  | Panic.
Arguments Return {A} a.
Arguments Error {A} msg.
Arguments Panic {A}.

(** ** Package [planner]: from model text to a command plan *)
Module planner.
Import GoStrings.

(** [CommandPlan] is the structured output from the LLM. *)
Record CommandPlan : Type := mkCommandPlan {
  Command : option string;  (* Shell command to run (null if chat-only) *)
  Shell : string;           (* "powershell" or "cmd" *)
  Response : string;        (* Chat response to show user *)
  Reasoning : string;       (* Brief explanation of what/why *)
  Safe : bool               (* LLM's self-assessment *)
}.

(** The zero value of [var plan CommandPlan]. *)
Definition zero_plan : CommandPlan :=
  {| Command := None; Shell := EmptyString; Response := EmptyString;
     Reasoning := EmptyString; Safe := false |}.

Definition set_Command (pl : CommandPlan) (c : option string) : CommandPlan :=
  {| Command := c; Shell := Shell pl; Response := Response pl;
     Reasoning := Reasoning pl; Safe := Safe pl |}.

Definition set_Shell (pl : CommandPlan) (s : string) : CommandPlan :=
  {| Command := Command pl; Shell := s; Response := Response pl;
     Reasoning := Reasoning pl; Safe := Safe pl |}.

(** [historyPlan] is used to marshal previous exchanges as JSON for the
    assistant turn in conversation history. *)
Record historyPlan : Type := mkHistoryPlan {
  hp_Command : option string;
  hp_Shell : string;
  hp_Response : string;
  hp_Reasoning : string;
  hp_Safe : bool
}.

(** [llm.ChatMessage] *)
Record ChatMessage : Type := mkChatMessage {
  Role : string;
  Content : string
}.

(** The [llm.LLM] interface value held by the planner, by the dynamic
    type that [Plan] switches on: a [*llm.LlamaServer], called through
    [InferWithHistory], or any other implementation, called through
    [Infer].  Either call returns the completion text or an error. *)
Inductive LLM : Type :=
  | LlamaServer (InferWithHistory : list ChatMessage -> string + string)
  | OtherLLM (Infer : string -> string + string).

(** Package [encoding/json], as far as the planner calls it.
    [Unmarshal data plan] decodes into the plan it is given, which it
    may change even when it returns an error; [Marshal] encodes a
    [historyPlan]. *)
Class Codec : Type := {
  Unmarshal : string -> CommandPlan -> CommandPlan * option string;
  Marshal : historyPlan -> string + string
}.

(** [Planner] converts user intent into executable command plans.
    [llm] is [None] for a nil interface value; [mem] is the [Memory]
    its pointer refers to when [Plan] is called ([None] for a nil
    pointer). *)
Record Planner : Type := mkPlanner {
  llm : option LLM;
  mem : option memory.Memory;
  shell : string  (* default shell *)
}.

Definition NewPlanner (l : option LLM) (mem : option memory.Memory)
    (defaultShell : string) : Planner :=
  {| llm := l; mem := mem; shell := defaultShell |}.

(** [validEscapes] of [sanitizeJSON]: a Go map, false on absent keys. *)
Definition validEscapes (c : ascii) : bool :=
  mem_byte c (dquote +:+ "\/nrtu").

(** The loop of [sanitizeJSON] over the bytes from offset [i] on:
    [prev] is [s[i-1]] ([None] when [i = 0]), [inString] the loop's
    flag. *)
Fixpoint sanitize_loop (prev : option ascii) (inString : bool) (s : string) : string :=
  match s with
  | EmptyString => EmptyString
  | String ch rest =>
      if Ascii.eqb ch "034"
         && match prev with None => true | Some p => negb (Ascii.eqb p "\") end
      then String ch (sanitize_loop (Some ch) (negb inString) rest)
      else
        match rest with
        | String next _ =>
            if inString && Ascii.eqb ch "\" && negb (validEscapes next)
            then
              (* Invalid escape like \F -- convert to \\F *)
              "\\" +:+ sanitize_loop (Some ch) inString rest
            else String ch (sanitize_loop (Some ch) inString rest)
        | EmptyString => String ch (sanitize_loop (Some ch) inString rest)
        end
  end.

(** [sanitizeJSON] fixes invalid escape sequences like \F, \P, \S. *)
Definition sanitizeJSON (s : string) : string := sanitize_loop None false s.

(** The loop of [ExtractJSON]: the number of bytes up to and including
    the brace that brings [depth] back to 0, counted from [i]. *)
Fixpoint extract_loop (depth : Z) (i : nat) (s : string) : option nat :=
  match s with
  | EmptyString => None
  | String ch rest =>
      if Ascii.eqb ch "{" then extract_loop (depth + 1) (S i) rest
      else if Ascii.eqb ch "}" then
        if (depth - 1 =? 0)%Z then Some (S i)
        else extract_loop (depth - 1) (S i) rest
      else extract_loop depth (S i) rest
  end.

(** [ExtractJSON] finds and returns the first JSON object in a string. *)
Definition ExtractJSON (s : string) : string :=
  let start := Index s "{" in
  if (start =? -1)%Z then EmptyString
  else
    match extract_loop 0 0 (slice_from s start) with
    | Some n => take_bytes n (slice_from s start)
    | None => EmptyString
    end.

(** The variants of the CWD that [sanitizeCommand] looks for. *)
Definition variants (workingDir : string) : list string :=
  [ workingDir +:+ "\";
    workingDir +:+ "/";
    ReplaceAll workingDir "\" "/" +:+ "/";
    ReplaceAll workingDir "/" "\" +:+ "\";
    (* corrupted variant (strip all slashes) *)
    ReplaceAll (ReplaceAll workingDir "\" EmptyString) "/" EmptyString ].

Section WithStrings.
Context {str : Ops}.

(** One round of the second loop of [sanitizeCommand], on the [result]
    so far.  The offset [idx] is one of the lower-cased text, and the
    number of bytes cut is the length of the variant as written: the
    round gives [None] when the slice expressions panic, which they do
    when [idx + len(prefix)] lies beyond the end of [result]. *)
Definition strip_ci (result pre : string) : option string :=
  let lower := ToLower result in
  let lowerPrefix := ToLower pre in
  let idx := Index lower lowerPrefix in
  if (0 <=? idx)%Z
  then if (idx + len pre <=? len result)%Z
       then Some (slice_to result idx +:+ slice_from result (idx + len pre))
       else None
  else Some result.

(** [sanitizeCommand] strips the CWD prefix from commands when the
    model embeds absolute paths; [None] when it panics. *)
Definition sanitizeCommand (command workingDir : string) : option string :=
  if is_empty workingDir then Some command
  else
    (* Try stripping each variant from the command *)
    let result :=
      fold_left (fun r pre => ReplaceAll r pre EmptyString) (variants workingDir) command in
    (* Also try case-insensitive replacement for Windows paths *)
    fold_left (fun r pre => match r with Some r => strip_ci r pre | None => None end)
      (variants workingDir) (Some result).

(** The text [ParseResponse] decodes, its [jsonStr]: the first balanced
    brace span of the trimmed text, or all of the trimmed text when
    there is none. *)
Definition candidate (raw : string) : string :=
  let raw := TrimSpace raw in
  let jsonStr := ExtractJSON raw in
  if is_empty jsonStr then raw else jsonStr.

(** The inference call of [Plan], by the dynamic type of the LLM. *)
Definition infer (l : LLM) (messages : list ChatMessage) (userInput : string)
    : string + string :=
  match l with
  | LlamaServer InferWithHistory => InferWithHistory messages
  | OtherLLM Infer =>
      (* Fallback for MockLLM -- just send the user prompt *)
      Infer userInput
  end.

(** The plan [Plan] returns when the model text cannot be parsed. *)
Definition chat_fallback (rawResponse : string) : CommandPlan :=
  {| Command := None;
     Shell := EmptyString;
     Response := rawResponse;
     Reasoning := "Could not parse structured output, returning as chat";
     Safe := false |}.

Section WithCodec.
Context {codec : Codec}.

(** The normalization at the end of [ParseResponse]. *)
Definition normalize (plan : CommandPlan) : CommandPlan :=
  match Command plan with
  | Some c =>
      if String.eqb (TrimSpace c) "null" || String.eqb (TrimSpace c) EmptyString
      then set_Command plan None else plan
  | None => plan
  end.

(** [ParseResponse] extracts JSON from the LLM output. *)
Definition ParseResponse (raw : string) : result CommandPlan :=
  let jsonStr := candidate raw in
  (* First try: parse as-is *)
  match Unmarshal jsonStr zero_plan with
  | (plan, None) => Return (normalize plan)
  | (plan, Some _) =>
      (* Second try: fix invalid JSON escape sequences *)
      let sanitized := sanitizeJSON jsonStr in
      match Unmarshal sanitized plan with
      | (plan, None) => Return (normalize plan)
      | (_, Some err) => Error ("JSON parse error: " +:+ err)
      end
  end.

(** The assistant turn replayed for a previous exchange. *)
Definition history_message (ex : memory.Exchange) : ChatMessage :=
  let hp :=
    {| hp_Command := if is_empty (memory.Command ex) then None
                     else Some (memory.Command ex);
       hp_Shell := "powershell";
       hp_Response := memory.Response ex;
       hp_Reasoning := "executed";
       hp_Safe := true |} in
  match Marshal hp with
  | inl jsonBytes => {| Role := "assistant"; Content := jsonBytes |}
  | inr _ =>
      (* Fallback: just send the response text *)
      {| Role := "assistant";
         Content := "{" +:+ dquote +:+ "command" +:+ dquote +:+ ":null,"
                    +:+ dquote +:+ "response" +:+ dquote +:+ ":"
                    +:+ dquote +:+ memory.Response ex +:+ dquote +:+ "}" |}
  end.

(** [buildMessages] creates the ChatML conversation history; [None]
    when [GetContext] panics. *)
Definition buildMessages (p : Planner) (userInput : string)
    : option (list ChatMessage) :=
  match mem p with
  | Some m =>
      match memory.GetContext m with
      | None => None
      | Some ctx =>
          (* Only use last 2 exchanges *)
          let exchanges := memory.RecentExchanges ctx in
          let exchanges :=
            if (2 <? length exchanges)%nat
            then drop (length exchanges - 2) exchanges else exchanges in
          let history :=
            flat_map (fun ex =>
              [ {| Role := "user"; Content := memory.UserInput ex |};
                history_message ex ]) exchanges in
          (* Current user message with CWD *)
          let cwd := ReplaceAll (memory.WorkingDirectory ctx) "\" "/" in
          let userMsg := userInput +:+ nl +:+ nl +:+ "[CWD: " +:+ cwd +:+ "]" in
          Some (history ++ [ {| Role := "user"; Content := userMsg |} ])
      end
  | None => Some [ {| Role := "user"; Content := userInput |} ]
  end.

(** [Plan] takes user input and returns a [CommandPlan]. *)
Definition Plan (p : Planner) (userInput : string) : result CommandPlan :=
  match buildMessages p userInput with
  | None => Panic
  | Some messages =>
      match llm p with
      | None => Panic (* a method call through a nil interface *)
      | Some l =>
          match infer l messages userInput with
          | inr err => Error ("LLM inference failed: " +:+ err)
          | inl rawResponse =>
              match ParseResponse rawResponse with
              | Return plan =>
                  let plan :=
                    if is_empty (Shell plan) then set_Shell plan (shell p)
                    else plan in
                  (* Sanitize: strip CWD prefix from commands *)
                  match Command plan, mem p with
                  | Some c, Some m =>
                      match sanitizeCommand c (memory.WorkingDir m) with
                      | Some sanitized => Return (set_Command plan (Some sanitized))
                      | None => Panic
                      end
                  | _, _ => Return plan
                  end
              | Error _ => Return (chat_fallback rawResponse)
              | Panic => Panic
              end
          end
      end
  end.

End WithCodec.

End WithStrings.

End planner.

(** ** Package [executor]: running a command, emulating [cd] *)
Module executor.
Import GoStrings.

(** [Result] captures the output of a command execution.  [Duration]
    is in nanoseconds. *)
Record Result : Type := mkResult {
  Success : bool;
  Output : string;
  Error : string;
  Duration : Z;
  NewWorkDir : string;     (* Set when a cd/Set-Location command changes directory *)
  CurrentWorkDir : string  (* The actual working directory after execution *)
}.

(** [Executor] runs shell commands.  [Timeout] is in nanoseconds. *)
Record Executor : Type := mkExecutor {
  WorkingDir : string;
  Timeout : Z
}.

Definition NewExecutor (workingDir : string) : Executor :=
  {| WorkingDir := workingDir; Timeout := 30 * 1000000000 |}.

(** [SetWorkingDir] updates the working directory. *)
Definition SetWorkingDir (e : Executor) (dir : string) : Executor :=
  {| WorkingDir := dir; Timeout := Timeout e |}.

(** What [os.Stat] returned: the [IsDir] of the file info, or an error
    with what [os.IsNotExist] says of it and its message. *)
Inductive StatResult : Type :=
  | StatInfo (isDir : bool)
  | StatError (notExist : bool) (msg : string).

(** A subprocess as [exec.CommandContext] sets it up. *)
Record Cmd : Type := mkCmd {
  Path : string;
  Args : list string;
  Dir : string
}.

(** The error of [cmd.Run]: an [*exec.ExitError] with its exit code, or
    another error (the program could not be started, say). *)
Inductive RunError : Type :=
  | ExitError (code : Z) (msg : string)
  | OtherError (msg : string).

Definition Error_of (err : RunError) : string :=
  match err with ExitError _ msg => msg | OtherError msg => msg end.

(** What is observed once [cmd.Run] has returned: the two captured
    streams, the error of [Run], and whether [ctx.Err()] is
    [context.DeadlineExceeded]. *)
Record Ran : Type := mkRan {
  stdout : string;
  stderr : string;
  err : option RunError;
  deadlineExceeded : bool
}.

(** The operating system under the executor: the answers of [os.Stat]
    and [os.Getwd], the run of a subprocess under a timeout, the
    reading of [time.Since(start)] when a result is built, and the text
    [%v] prints for a [time.Duration]. *)
Class Host : Type := {
  Stat : string -> StatResult;
  Getwd : string + string;
  Run : Cmd -> Z -> Ran;
  Since : Z;
  Duration_String : Z -> string
}.

Section WithStrings.
Context {str : Ops}.

(** [cleanPathArg] strips quotes and whitespace from a path argument. *)
Definition cleanPathArg (s : string) : string :=
  let s := TrimSpace s in
  (* Remove surrounding single or double quotes *)
  match s with
  | String first (String _ _) =>
      let last := slice_from s (len s - 1) in
      if (Ascii.eqb first "'" && String.eqb last "'")
         || (Ascii.eqb first "034" && String.eqb last dquote)
      then slice s 1 (len s - 1)
      else s
  | _ => s
  end.

(** [extractCDTarget] detects cd/Set-Location commands and extracts the
    target path.  Returns the target and true if it's a cd command, or
    the empty string and false otherwise.  The slices are taken after
    the lower-cased text has been found to start with an ASCII keyword
    of their length, so that they are within the text. *)
Definition extractCDTarget (command : string) : string * bool :=
  let cmd := TrimSpace command in
  (* Check various cd patterns (case-insensitive) *)
  let lower := ToLower cmd in
  (* "cd 'path'" or "cd path" *)
  if HasPrefix lower "cd " then (cleanPathArg (slice_from cmd 3), true)
  (* "Set-Location 'path'" or "Set-Location -Path 'path'" *)
  else if HasPrefix lower "set-location " then
    let rest := TrimSpace (slice_from cmd 13) in
    (* Handle -Path parameter *)
    let lowerRest := ToLower rest in
    let rest :=
      if HasPrefix lowerRest "-path " then TrimSpace (slice_from rest 6) else rest in
    (cleanPathArg rest, true)
  (* "sl 'path'" (alias) *)
  else if HasPrefix lower "sl " then (cleanPathArg (slice_from cmd 3), true)
  else (EmptyString, false).

(** The three idioms [extractCDTarget] recognizes: the trimmed command
    starts, in any letter case, with "cd ", "set-location " or "sl ". *)
Definition cd_idiom (command : string) : Prop :=
  let lower := ToLower (TrimSpace command) in
  HasPrefix lower "cd " = true
  \/ HasPrefix lower "set-location " = true
  \/ HasPrefix lower "sl " = true.

(** The search commands, for which exit code 1 means "Not Found" rather
    than error, e.g. Select-String, grep, findstr. *)
Definition search_command (command : string) : bool :=
  let lowerCmd := ToLower command in
  Contains lowerCmd "select-string"
  || Contains lowerCmd "grep"
  || Contains lowerCmd "findstr".

(** [cleanTerminalOutput] handles control characters like \r to clean
    up progress bars. *)
Definition cleanTerminalOutput (s : string) : string :=
  (* Normalize Windows line endings *)
  let s := ReplaceAll s (cr +:+ nl) nl in
  if negb (ContainsAny s cr) then s
  else
    let lines := split_byte s "010" in
    Join (map (fun line =>
                 (* We keep the text after the last \r *)
                 let idx := LastIndexByte line "013" in
                 if negb (idx =? -1)%Z then slice_from line (idx + 1) else line)
              lines) nl.

End WithStrings.

Section WithHost.
Context {str : Ops} {fp : filepath.Ops} {host : Host}.

(** The directory [handleCD] looks up for [target]. *)
Definition resolve (e : Executor) (target : string) : string :=
  (* Resolve relative to current working dir, then clean the path *)
  filepath.Clean
    (if filepath.IsAbs target then target
     else filepath.Join [WorkingDir e; target]).

(** [handleCD] changes the executor's working directory natively: the
    result and the executor afterwards. *)
Definition handleCD (e : Executor) (target : string) : Result * Executor :=
  let newDir := resolve e target in
  (* Verify directory exists *)
  match Stat newDir with
  | StatError _ msg =>
      ({| Success := false; Output := EmptyString;
          Error := "Cannot navigate to '" +:+ target +:+ "': " +:+ msg;
          Duration := Since;
          NewWorkDir := EmptyString;
          CurrentWorkDir := WorkingDir e |}, e)
  | StatInfo false =>
      ({| Success := false; Output := EmptyString;
          Error := "'" +:+ target +:+ "' is not a directory";
          Duration := Since;
          NewWorkDir := EmptyString;
          CurrentWorkDir := WorkingDir e |}, e)
  | StatInfo true =>
      ({| Success := true;
          Output := "Directory: " +:+ newDir;
          Error := EmptyString;
          Duration := Since;
          NewWorkDir := newDir;
          CurrentWorkDir := newDir |},
       SetWorkingDir e newDir)
  end.

(** VALIDATE WorkingDir: if it doesn't exist, fall back to the current
    process directory (or to "." if [os.Getwd] fails). *)
Definition validate (e : Executor) : Executor :=
  match Stat (WorkingDir e) with
  | StatError true _ =>
      match Getwd with
      | inl cwd => SetWorkingDir e cwd
      | inr _ => SetWorkingDir e "."
      end
  | _ => e
  end.

(** The command line for [command] in [shell]. *)
Definition command_for (e : Executor) (command shell : string) : Cmd :=
  if String.eqb (ToLower shell) "cmd"
  then {| Path := "cmd"; Args := ["/C"; command]; Dir := WorkingDir e |}
  else (* powershell *)
    {| Path := "powershell";
       Args := ["-NoProfile"; "-NonInteractive"; "-Command"; command];
       Dir := WorkingDir e |}.

(** [Execute] runs a command in the specified shell.  It returns the
    result, the executor afterwards, and the subprocesses it has
    started, in order. *)
Definition Execute (e : Executor) (command shell : string)
    : Result * Executor * list Cmd :=
  (* Detect directory change commands and handle them natively *)
  match extractCDTarget command with
  | (newDir, true) => (handleCD e newDir, [])
  | (_, false) =>
      let e := validate e in
      let cmd := command_for e command shell in
      let ran := Run cmd (Timeout e) in
      let duration := Since in
      if deadlineExceeded ran then
        ({| Success := false; Output := EmptyString;
            Error := "Command timed out after " +:+ Duration_String (Timeout e);
            Duration := duration;
            NewWorkDir := EmptyString;
            CurrentWorkDir := WorkingDir e |}, e, [cmd])
      else
        let output := TrimSpace (stdout ran) in
        let errStr := TrimSpace (stderr ran) in
        (* Combine stdout and stderr for the user output *)
        let output :=
          if negb (is_empty errStr) then
            if negb (is_empty output) then output +:+ nl +:+ errStr else errStr
          else output in
        match err ran with
        | Some runErr =>
            let no_matches :=
              match runErr with
              | ExitError code _ => (code =? 1)%Z && search_command command
              | OtherError _ => false
              end in
            if no_matches then
              (* exit code 1 means "Not Found" rather than error *)
              ({| Success := false;
                  Output := cleanTerminalOutput output;
                  Error := "No matches found";
                  Duration := duration;
                  NewWorkDir := EmptyString;
                  CurrentWorkDir := WorkingDir e |}, e, [cmd])
            else
              let errorMsg := if is_empty errStr then Error_of runErr else errStr in
              ({| Success := false;
                  Output := cleanTerminalOutput output;
                  Error := errorMsg;
                  Duration := duration;
                  NewWorkDir := EmptyString;
                  CurrentWorkDir := WorkingDir e |}, e, [cmd])
        | None =>
            ({| Success := true;
                Output := cleanTerminalOutput output;
                Error := EmptyString;
                Duration := duration;
                NewWorkDir := EmptyString;
                CurrentWorkDir := WorkingDir e |}, e, [cmd])
        end
  end.

End WithHost.

End executor.

(** ** Package [encoding/json], for [CommandPlan] and [historyPlan]

    A decoder and an encoder after the Go library, for running the
    planner on concrete model texts.  Where they are simpler than the
    library: bytes from 0x80 upwards are copied as they are (Go replaces
    invalid UTF-8 by U+FFFD and escapes U+2028 and U+2029), keys are
    matched to fields up to ASCII case (Go folds Unicode case), and
    error messages are shortened. *)
Module json.
Import GoStrings planner.

#[local] Unset Elimination Schemes.
Inductive value : Type :=
  | Null
  | Bool (b : bool)
  | Number (lit : string)
  | Str (s : string)
  | Array (elems : list value)
  | Object (members : list (string * value)).
#[local] Set Elimination Schemes.

Definition is_ws (c : ascii) : bool :=
  mem_byte c (" " +:+ tab +:+ cr +:+ nl).

Definition skip_ws (s : string) : string := TrimLeftFunc is_ws s.

Definition is_digit (c : ascii) : bool :=
  (48 <=? byte_of c)%nat && (byte_of c <=? 57)%nat.

Definition hex_digit (c : ascii) : option N :=
  let n := N_of_ascii c in
  if (48 <=? n)%N && (n <=? 57)%N then Some (n - 48)%N
  else if (97 <=? n)%N && (n <=? 102)%N then Some (n - 87)%N
  else if (65 <=? n)%N && (n <=? 70)%N then Some (n - 55)%N
  else None.

(** [getu4]: the code unit of four hexadecimal digits. *)
Definition getu4 (s : string) : option (N * string) :=
  match s with
  | String a (String b (String c (String d r))) =>
      match hex_digit a, hex_digit b, hex_digit c, hex_digit d with
      | Some x, Some y, Some z, Some w => Some (((x * 16 + y) * 16 + z) * 16 + w, r)%N
      | _, _, _, _ => None
      end
  | _ => None
  end.

Definition byte_string (n : N) : string := String (ascii_of_N n) EmptyString.

(** [utf8.EncodeRune] *)
Definition encode_rune (r : N) : string :=
  if (r <? 128)%N then byte_string r
  else if (r <? 2048)%N then
    byte_string (192 + r / 64) +:+ byte_string (128 + r mod 64)
  else if (r <? 65536)%N then
    byte_string (224 + r / 4096) +:+ byte_string (128 + (r / 64) mod 64)
    +:+ byte_string (128 + r mod 64)
  else
    byte_string (240 + r / 262144) +:+ byte_string (128 + (r / 4096) mod 64)
    +:+ byte_string (128 + (r / 64) mod 64) +:+ byte_string (128 + r mod 64).

Definition is_surrogate (r : N) : bool := (55296 <=? r)%N && (r <? 57344)%N.

Definition replacement_char : N := 65533.

(** The rune of a [\u] escape whose first code unit is [rr], and the
    input left: a valid surrogate pair is combined, a lone surrogate
    becomes U+FFFD. *)
Definition escaped_rune (rr : N) (rest : string) : N * string :=
  if is_surrogate rr then
    match rest with
    | String "\" (String "u" r1) =>
        match getu4 r1 with
        | Some (rr1, r2) =>
            if (rr <? 56320)%N && (56320 <=? rr1)%N && (rr1 <? 57344)%N
            then (((rr - 55296) * 1024 + (rr1 - 56320) + 65536)%N, r2)
            else (replacement_char, rest)
        | None => (replacement_char, rest)
        end
    | _ => (replacement_char, rest)
    end
  else (rr, rest).

Definition simple_escape (e : ascii) : option string :=
  if Ascii.eqb e "034" then Some dquote
  else if Ascii.eqb e "\" then Some bslash
  else if Ascii.eqb e "/" then Some "/"
  else if Ascii.eqb e "b" then Some (byte_string 8)
  else if Ascii.eqb e "f" then Some (byte_string 12)
  else if Ascii.eqb e "n" then Some nl
  else if Ascii.eqb e "r" then Some cr
  else if Ascii.eqb e "t" then Some tab
  else None.

(** A string literal after its opening quote: the decoded text and the
    input after the closing quote. *)
Fixpoint parse_string (fuel : nat) (s : string) : option (string * string) :=
  match fuel with
  | O => None
  | S fuel' =>
      match s with
      | EmptyString => None
      | String c r =>
          if Ascii.eqb c "034" then Some (EmptyString, r)
          else if Ascii.eqb c "\" then
            match r with
            | String "u" r1 =>
                match getu4 r1 with
                | Some (rr, r2) =>
                    let '(rune, r3) := escaped_rune rr r2 in
                    match parse_string fuel' r3 with
                    | Some (str, r4) => Some (encode_rune rune +:+ str, r4)
                    | None => None
                    end
                | None => None
                end
            | String e r1 =>
                match simple_escape e, parse_string fuel' r1 with
                | Some b, Some (str, r2) => Some (b +:+ str, r2)
                | _, _ => None
                end
            | EmptyString => None
            end
          else if (byte_of c <? 32)%nat then None
          else
            match parse_string fuel' r with
            | Some (str, r1) => Some (String c str, r1)
            | None => None
            end
      end
  end.

Fixpoint span_digits (s : string) : string * string :=
  match s with
  | String c r =>
      if is_digit c then let '(ds, r') := span_digits r in (String c ds, r')
      else (EmptyString, s)
  | EmptyString => (EmptyString, EmptyString)
  end.

(** A number literal: an optional minus sign, then 0 or a digit from 1
    to 9 followed by digits, then optionally a point and digits, then
    optionally e or E, a sign and digits. *)
Definition parse_number (s : string) : option (string * string) :=
  let '(sign, s1) :=
    match s with String "-" r => ("-", r) | _ => (EmptyString, s) end in
  let int_part :=
    match s1 with
    | String "0" r => Some ("0", r)
    | _ => let '(ds, r) := span_digits s1 in
           if is_empty ds then None else Some (ds, r)
    end in
  match int_part with
  | None => None
  | Some (ip, s2) =>
      let frac :=
        match s2 with
        | String "." r =>
            let '(ds, r') := span_digits r in
            if is_empty ds then None else Some ("." +:+ ds, r')
        | _ => Some (EmptyString, s2)
        end in
      match frac with
      | None => None
      | Some (fp, s3) =>
          let exp_of (e : string) (r : string) :=
            let '(sg, r1) :=
              match r with
              | String "+" r' => ("+", r')
              | String "-" r' => ("-", r')
              | _ => (EmptyString, r)
              end in
            let '(ds, r2) := span_digits r1 in
            if is_empty ds then None else Some (e +:+ sg +:+ ds, r2) in
          let exp :=
            match s3 with
            | String "e" r => exp_of "e" r
            | String "E" r => exp_of "E" r
            | _ => Some (EmptyString, s3)
            end in
          match exp with
          | None => None
          | Some (ep, s4) => Some (sign +:+ ip +:+ fp +:+ ep, s4)
          end
      end
  end.

(** One JSON value, leading white space skipped, and the input left. *)
Fixpoint parse_value (fuel : nat) (s : string) : option (value * string) :=
  match fuel with
  | O => None
  | S fuel' =>
      match skip_ws s with
      | EmptyString => None
      | String c r =>
          if Ascii.eqb c "{" then
            match skip_ws r with
            | String "}" r1 => Some (Object [], r1)
            | r1 =>
                match parse_members fuel' r1 with
                | Some (kvs, r2) => Some (Object kvs, r2)
                | None => None
                end
            end
          else if Ascii.eqb c "[" then
            match skip_ws r with
            | String "]" r1 => Some (Array [], r1)
            | r1 =>
                match parse_elements fuel' r1 with
                | Some (vs, r2) => Some (Array vs, r2)
                | None => None
                end
            end
          else if Ascii.eqb c "034" then
            match parse_string (S (String.length r)) r with
            | Some (str, r1) => Some (Str str, r1)
            | None => None
            end
          else if String.prefix "true" (String c r) then Some (Bool true, drop_bytes 4 (String c r))
          else if String.prefix "false" (String c r) then Some (Bool false, drop_bytes 5 (String c r))
          else if String.prefix "null" (String c r) then Some (Null, drop_bytes 4 (String c r))
          else
            match parse_number (String c r) with
            | Some (lit, r1) => Some (Number lit, r1)
            | None => None
            end
      end
  end
with parse_members (fuel : nat) (s : string) : option (list (string * value) * string) :=
  match fuel with
  | O => None
  | S fuel' =>
      match s with
      | String "034" r =>
          match parse_string (S (String.length r)) r with
          | Some (k, r1) =>
              match skip_ws r1 with
              | String ":" r2 =>
                  match parse_value fuel' r2 with
                  | Some (v, r3) =>
                      match skip_ws r3 with
                      | String "," r4 =>
                          match parse_members fuel' (skip_ws r4) with
                          | Some (kvs, r5) => Some ((k, v) :: kvs, r5)
                          | None => None
                          end
                      | String "}" r4 => Some ([(k, v)], r4)
                      | _ => None
                      end
                  | None => None
                  end
              | _ => None
              end
          | None => None
          end
      | _ => None
      end
  end
with parse_elements (fuel : nat) (s : string) : option (list value * string) :=
  match fuel with
  | O => None
  | S fuel' =>
      match parse_value fuel' s with
      | Some (v, r1) =>
          match skip_ws r1 with
          | String "," r2 =>
              match parse_elements fuel' r2 with
              | Some (vs, r3) => Some (v :: vs, r3)
              | None => None
              end
          | String "]" r2 => Some ([v], r2)
          | _ => None
          end
      | None => None
      end
  end.

(** [checkValid] and the scan in one: the value of a text that is one
    JSON value between optional white space. *)
Definition parse (data : string) : option value :=
  match parse_value (S (2 * String.length data)) data with
  | Some (v, rest) => if is_empty (skip_ws rest) then Some v else None
  | None => None
  end.

(** The name of what a value is, as [UnmarshalTypeError] prints it. *)
Definition kind_name (v : value) : string :=
  match v with
  | Null => "null"
  | Bool _ => "bool"
  | Number _ => "number"
  | Str _ => "string"
  | Array _ => "array"
  | Object _ => "object"
  end.

Definition type_error (v : value) (field ty : string) : string :=
  "json: cannot unmarshal " +:+ kind_name v +:+ " into Go struct field CommandPlan."
  +:+ field +:+ " of type " +:+ ty.

(** The error kept is the first one saved. *)
Definition saveError (saved : option string) (msg : string) : option string :=
  match saved with Some e => Some e | None => Some msg end.

(** Storing one member into the plan.  A key selects the field whose
    tag it equals up to case; other keys are skipped.  [null] clears
    the pointer field and leaves the others as they are.  A value of
    the wrong kind saves a type error; for the pointer field the
    decoder has then already allocated the string it points to. *)
Definition store (st : CommandPlan * option string) (kv : string * value)
    : CommandPlan * option string :=
  let '(pl, saved) := st in
  let '(k, v) := kv in
  let f := lower_bytes k in
  let set_str (field : string) (upd : string -> CommandPlan) :=
    match v with
    | Str x => (upd x, saved)
    | Null => (pl, saved)
    | _ => (pl, saveError saved (type_error v field "string"))
    end in
  if String.eqb f "command" then
    match v with
    | Str x => (set_Command pl (Some x), saved)
    | Null => (set_Command pl None, saved)
    | _ => (set_Command pl (Some (default EmptyString (Command pl))),
            saveError saved (type_error v "command" "string"))
    end
  else if String.eqb f "shell" then set_str "shell" (set_Shell pl)
  else if String.eqb f "response" then
    set_str "response" (fun x =>
      {| Command := Command pl; Shell := Shell pl; Response := x;
         Reasoning := Reasoning pl; Safe := Safe pl |})
  else if String.eqb f "reasoning" then
    set_str "reasoning" (fun x =>
      {| Command := Command pl; Shell := Shell pl; Response := Response pl;
         Reasoning := x; Safe := Safe pl |})
  else if String.eqb f "safe" then
    match v with
    | Bool b =>
        ({| Command := Command pl; Shell := Shell pl; Response := Response pl;
            Reasoning := Reasoning pl; Safe := b |}, saved)
    | Null => (pl, saved)
    | _ => (pl, saveError saved (type_error v "safe" "bool"))
    end
  else (pl, saved).

(** [json.Unmarshal(data, &plan)] *)
Definition Unmarshal (data : string) (plan : CommandPlan)
    : CommandPlan * option string :=
  match parse data with
  | None => (plan, Some "invalid JSON syntax")
  | Some Null => (plan, None)
  | Some (Object members) => fold_left store members (plan, None)
  | Some v =>
      (plan, Some ("json: cannot unmarshal " +:+ kind_name v
                   +:+ " into Go value of type planner.CommandPlan"))
  end.

Definition hex_char (n : N) : ascii :=
  if (n <? 10)%N then ascii_of_N (48 + n) else ascii_of_N (87 + n).

(** The encoding of a string: quotes, backslashes and control
    characters are escaped, and so are <, > and &. *)
Fixpoint escape_string (s : string) : string :=
  match s with
  | EmptyString => EmptyString
  | String c r =>
      let n := N_of_ascii c in
      (if Ascii.eqb c "034" then bslash +:+ dquote
       else if Ascii.eqb c "\" then "\\"
       else if Ascii.eqb c "010" then "\n"
       else if Ascii.eqb c "013" then "\r"
       else if Ascii.eqb c "009" then "\t"
       else if Ascii.eqb c "008" then "\b"
       else if Ascii.eqb c "012" then "\f"
       else if (n <? 32)%N || Ascii.eqb c "<" || Ascii.eqb c ">" || Ascii.eqb c "&"
       then "\u00" +:+ String (hex_char (n / 16)) (String (hex_char (n mod 16)) EmptyString)
       else String c EmptyString)
      +:+ escape_string r
  end.

Definition quote (s : string) : string := dquote +:+ escape_string s +:+ dquote.

(** [json.Marshal(hp)] *)
Definition Marshal (hp : historyPlan) : string + string :=
  inl ("{" +:+ quote "command" +:+ ":"
       +:+ match hp_Command hp with Some c => quote c | None => "null" end
       +:+ "," +:+ quote "shell" +:+ ":" +:+ quote (hp_Shell hp)
       +:+ "," +:+ quote "response" +:+ ":" +:+ quote (hp_Response hp)
       +:+ "," +:+ quote "reasoning" +:+ ":" +:+ quote (hp_Reasoning hp)
       +:+ "," +:+ quote "safe" +:+ ":" +:+ (if hp_Safe hp then "true" else "false")
       +:+ "}").

Definition codec : Codec := {| planner.Unmarshal := Unmarshal; planner.Marshal := Marshal |}.

End json.

(** ** [path/filepath] on a Unix host *)
Module unix.
Import GoStrings.

(** One element of the path under [Clean]: [stack] holds the elements
    kept so far, last first; [..] elements that could not be resolved
    stay at its bottom. *)
Definition clean_step (rooted : bool) (stack : list string) (elem : string)
    : list string :=
  if is_empty elem || String.eqb elem "." then stack
  else if String.eqb elem ".." then
    match stack with
    | top :: below =>
        if String.eqb top ".." then ".." :: stack else below
    | [] => if rooted then [] else [".."]
    end
  else elem :: stack.

Definition Clean (path : string) : string :=
  if is_empty path then "."
  else
    let rooted := HasPrefix path "/" in
    let kept := rev (fold_left (clean_step rooted) (split_byte path "/") []) in
    if rooted then "/" +:+ GoStrings.Join kept "/"
    else if bool_decide (kept = []) then "." else GoStrings.Join kept "/".

Fixpoint drop_empty (elem : list string) : list string :=
  match elem with
  | e :: rest => if is_empty e then drop_empty rest else elem
  | [] => []
  end.

Definition Join (elem : list string) : string :=
  match drop_empty elem with
  | [] => EmptyString
  | rest => Clean (GoStrings.Join rest "/")
  end.

Definition IsAbs (path : string) : bool := HasPrefix path "/".

Definition ops : filepath.Ops :=
  {| filepath.Join := Join; filepath.IsAbs := IsAbs; filepath.Clean := Clean |}.

End unix.

(** ** [ToLower], [TrimSpace] and [Fields] on ASCII texts

    The three functions as the Go library computes them for a text of
    ASCII bytes, for running the model on such texts: every example
    below is one.  (On other texts these are not the library's
    functions; the properties are proved for every [Ops].) *)
Module ascii.

Definition ops : GoStrings.Ops :=
  {| GoStrings.ToLower := GoStrings.lower_bytes;
     GoStrings.TrimSpace := GoStrings.trim_blanks;
     GoStrings.Fields := GoStrings.blank_fields |}.

End ascii.

(** ** Sessions: successive calls of [RecordExchange] *)
Module session.
Import memory.

(** One call of [RecordExchange]: the two clock readings and the four
    arguments. *)
Record call : Type := mkCall {
  call_now : time.Time;
  call_now' : time.Time;
  call_userInput : string;
  call_command : string;
  call_result : string;
  call_response : string
}.

(** The exchange a call appends. *)
Definition exchange_of (c : call) : Exchange :=
  {| Timestamp := call_now c; UserInput := call_userInput c;
     Command := call_command c; Result := call_result c;
     Response := call_response c |}.

(** The day on which a call's compaction, if any, writes its note. *)
Definition day_of (c : call) : string := time.Format_date (call_now' c).

Section WithHost.
Context {str : GoStrings.Ops} {fp : filepath.Ops}.

Definition record (m : Memory) (d : os.Disk) (c : call) : option (Memory * os.Disk) :=
  RecordExchange m d (call_now c) (call_now' c)
    (call_userInput c) (call_command c) (call_result c) (call_response c).

(** The calls made one after the other, each on the memory and the
    disk the previous one left. *)
Fixpoint RecordExchanges (m : Memory) (d : os.Disk) (calls : list call)
    : option (Memory * os.Disk) :=
  match calls with
  | [] => Some (m, d)
  | c :: rest =>
      match record m d c with
      | Some (m', d') => RecordExchanges m' d' rest
      | None => None
      end
  end.

(** The files after the note for the exchanges [snd note] has been
    appended to the note of day [fst note]. *)
Definition append_note (m : Memory) (fs : gmap string string)
    (note : string * list Exchange) : gmap string string :=
  <[notePath m (fst note) :=
      default EmptyString (fs !! notePath m (fst note))
      +:+ note_text (fst note) (snd note)]> fs.

Definition append_notes (m : Memory) (fs : gmap string string)
    (notes : list (string * list Exchange)) : gmap string string :=
  fold_left (append_note m) notes fs.

End WithHost.

End session.

(** ** The repair pass as the design document words it *)
Module design.
Import GoStrings.

(** The repair pass of the design document, to compare [sanitizeJSON]
    with: the candidate is scanned character by character, tracking
    whether the scan is inside a quoted string; inside a string a
    backslash followed by one of the valid escape letters is an escape
    sequence and is kept, with its letter, as it is; a backslash
    followed by any other character is rewritten as an escaped
    backslash; everything else is copied. *)
Fixpoint repair_pass (inString : bool) (s : string) : string :=
  match s with
  | EmptyString => EmptyString
  | String ch rest =>
      if Ascii.eqb ch "034" then String ch (repair_pass (negb inString) rest)
      else if inString && Ascii.eqb ch "\" then
        match rest with
        | String next rest' =>
            if planner.validEscapes next
            then String ch (String next (repair_pass inString rest'))
            else "\\" +:+ repair_pass inString rest
        | EmptyString => String ch EmptyString
        end
      else String ch (repair_pass inString rest)
  end.

End design.

(** ** The shape of a replayed conversation *)
Module conversation.

(** The roles of [n] replayed exchanges: each is a user turn followed by
    an assistant turn. *)
Fixpoint turn_roles (n : nat) : list string :=
  match n with
  | O => []
  | S n' => "user" :: "assistant" :: turn_roles n'
  end.

End conversation.

(** ** Bytes of a string, for stating what a function keeps *)
Module text.

(** [s] without the bytes equal to [c]. *)
Fixpoint remove_byte (c : ascii) (s : string) : string :=
  match s with
  | EmptyString => EmptyString
  | String d r => if Ascii.eqb d c then remove_byte c r else String d (remove_byte c r)
  end.

(** The number of bytes of [s] equal to [c]. *)
Fixpoint count_byte (c : ascii) (s : string) : nat :=
  match s with
  | EmptyString => O
  | String d r => (if Ascii.eqb d c then 1 else 0) + count_byte c r
  end.

(** [s] with [f] applied to every byte. *)
Fixpoint map_bytes (f : ascii -> ascii) (s : string) : string :=
  match s with
  | EmptyString => EmptyString
  | String d r => String (f d) (map_bytes f r)
  end.

(** Whether every byte of [s] satisfies [f]. *)
Fixpoint all_bytes (f : ascii -> bool) (s : string) : bool :=
  match s with
  | EmptyString => true
  | String d r => f d && all_bytes f r
  end.

(** [strings.HasSuffix] *)
Definition HasSuffix (s suffix : string) : bool :=
  (String.length suffix <=? String.length s)%nat
  && String.eqb (GoStrings.drop_bytes (String.length s - String.length suffix) s) suffix.

End text.

(** ** [ContextInfo.FormatForPrompt] of package [memory] *)
Module prompt.
Import GoStrings memory.

(** The lines one exchange adds to the prompt. *)
Definition exchange_parts (ex : Exchange) : list string :=
  let parts := [ "  User: " +:+ UserInput ex ] in
  let parts :=
    if negb (is_empty (Command ex))
    then parts ++ [ "  Command: " +:+ Command ex ] else parts in
  if negb (is_empty (Response ex))
  then parts ++ [ "  Response: " +:+ Response ex ] else parts.

(** The slice [parts] at the end of [FormatForPrompt]. *)
Definition prompt_parts (c : ContextInfo) : list string :=
  let parts := [] in
  let parts :=
    if negb (is_empty (ctx_LastAction c))
    then parts ++ [ "- Last action: " +:+ ctx_LastAction c ] else parts in
  let parts :=
    if negb (is_empty (ctx_LastCreated c))
    then parts ++ [ "- Last created/opened: " +:+ ctx_LastCreated c ] else parts in
  if (0 <? length (RecentExchanges c))%nat
  then fold_left (fun parts ex => parts ++ exchange_parts ex)
         (RecentExchanges c) (parts ++ [ "- Recent conversation:" ])
  else parts.

(** [FormatForPrompt] converts context into a string for the LLM. *)
Definition FormatForPrompt (c : ContextInfo) : string :=
  Join (prompt_parts c) nl.

End prompt.

(** ** Package [llm]: the end-of-turn test kept for the tests *)
Module llm.
Import GoStrings.

(** The inner loop of [CouldBePartialEnd]: whether the last [i] bytes of
    [text] are the first [i] bytes of [pattern], for some [i] from 1 up
    to the shorter of the two lengths. *)
Definition partial_end (text pattern : string) : bool :=
  existsb
    (fun i =>
       String.eqb (drop_bytes (String.length text - i) text) (take_bytes i pattern))
    (seq 1 (Nat.min (String.length pattern) (String.length text))).

Definition suffixes : list string := [ nl +:+ "> "; cr +:+ nl +:+ "> " ].

Definition CouldBePartialEnd (text : string) : bool :=
  existsb (partial_end text) suffixes.

End llm.

(** ** Concrete hosts and inputs, for running the model *)
Module examples.

(** A fresh memory with the sizes of [NewMemory] (5 and 20). *)
Definition fresh_memory : memory.Memory := memory.NewMemory "/home/u" "/home/u/.shell-e".

(** A disk on which every note can be opened, and one on which none
    can (the [memory] directory is missing). *)
Definition writable_disk : os.Disk :=
  {| os.files := ∅; os.appendable := fun _ => true;
     os.accepted := fun _ data => String.length data |}.

Definition unwritable_disk : os.Disk :=
  {| os.files := ∅; os.appendable := fun _ => false;
     os.accepted := fun _ data => String.length data |}.

(** A disk that is full: files can be opened and created, and every
    write fails before its first byte. *)
Definition full_disk : os.Disk :=
  {| os.files := ∅; os.appendable := fun _ => true;
     os.accepted := fun _ _ => 0%nat |}.

Definition morning : time.Time :=
  {| time.Year := 2026; time.Month := 3; time.Day := 7;
     time.Hour := 9; time.Minute := 5 |}.

(** The call of the repository's compaction test. *)
Definition a_call : session.call :=
  {| session.call_now := morning; session.call_now' := morning;
     session.call_userInput := "msg"; session.call_command := "cmd";
     session.call_result := "result"; session.call_response := "response" |}.

(** A host with a home directory, a project directory and a file; its
    subprocesses exit at once with code 1 and print nothing, as a
    search that finds nothing does. *)
Definition a_host : executor.Host :=
  {| executor.Stat := fun path =>
       if String.eqb path "/home/u" || String.eqb path "/home/u/projects"
       then executor.StatInfo true
       else if String.eqb path "/home/u/notes.txt" then executor.StatInfo false
       else executor.StatError true ("stat " +:+ path +:+ ": no such file or directory");
     executor.Getwd := inl "/home/u";
     executor.Run := fun _ _ =>
       {| executor.stdout := EmptyString; executor.stderr := EmptyString;
          executor.err := Some (executor.ExitError 1 "exit status 1");
          executor.deadlineExceeded := false |};
     executor.Since := 15000000;
     executor.Duration_String := fun _ => "30s" |}.

(** The same host when the subprocess is still running at the deadline:
    it is killed, which on Windows makes it exit with code 1, and the
    context reports [DeadlineExceeded]. *)
Definition a_slow_host : executor.Host :=
  {| executor.Stat := executor.Stat (Host := a_host);
     executor.Getwd := executor.Getwd (Host := a_host);
     executor.Run := fun _ _ =>
       {| executor.stdout := EmptyString; executor.stderr := EmptyString;
          executor.err := Some (executor.ExitError 1 "exit status 1");
          executor.deadlineExceeded := true |};
     executor.Since := 30000000000;
     executor.Duration_String := fun _ => "30s" |}.

Definition an_executor : executor.Executor := executor.NewExecutor "/home/u".

(** The planner of the repository's system tests: a mock model that
    answers every prompt with [response], a fresh memory, and
    "powershell" as the default shell. *)
Definition mockPlanner (response : string) : planner.Planner :=
  planner.NewPlanner (Some (planner.OtherLLM (fun _ => inl response)))
    (Some fresh_memory) "powershell".

(** A JSON object with the given members, each value given as JSON
    text. *)
Definition quoted (s : string) : string := dquote +:+ s +:+ dquote.

Fixpoint members (kvs : list (string * string)) : string :=
  match kvs with
  | [] => EmptyString
  | [(k, v)] => quoted k +:+ ":" +:+ v
  | (k, v) :: rest => quoted k +:+ ":" +:+ v +:+ "," +:+ members rest
  end.

Definition object (kvs : list (string * string)) : string :=
  "{" +:+ members kvs +:+ "}".

(** A model text whose command is the working directory itself and
    whose shell is neither of the two supported ones. *)
Definition a_bash_text : string :=
  object [("command", quoted "/home/u/"); ("shell", quoted "bash");
          ("response", quoted "Here is your folder")].

(** A model text that mixes an escaped and a bare backslash in a
    Windows path. *)
Definition a_mixed_path_text : string :=
  object [("command", quoted "cd C:\\Users\Foo")].

Definition an_apology : string := "I'm sorry, I can't do that.".

(** The plan [Plan] returns for [a_bash_text]. *)
Definition a_bash_plan : planner.CommandPlan :=
  {| planner.Command := Some EmptyString; planner.Shell := "bash";
     planner.Response := "Here is your folder";
     planner.Reasoning := EmptyString; planner.Safe := false |}.

(** Two more calls: one that created a folder and one that only
    chatted. *)
Definition a_mkdir_call : session.call :=
  {| session.call_now := morning; session.call_now' := morning;
     session.call_userInput := "create a folder called docs";
     session.call_command := "mkdir docs";
     session.call_result := EmptyString;
     session.call_response := "Created folder docs" |}.

Definition a_chat_call : session.call :=
  {| session.call_now := morning; session.call_now' := morning;
     session.call_userInput := "thanks";
     session.call_command := EmptyString;
     session.call_result := EmptyString;
     session.call_response := "You're welcome" |}.

(** A memory on a Windows host that holds three exchanges, and a planner
    over it. *)
Definition a_windows_memory : memory.Memory :=
  memory.set_Exchanges (memory.NewMemory "C:\Users\me" "C:\Users\me\.shell-e")
    [ session.exchange_of a_call; session.exchange_of a_mkdir_call;
      session.exchange_of a_chat_call ].

Definition a_windows_planner : planner.Planner :=
  planner.NewPlanner (Some (planner.OtherLLM (fun _ => inl an_apology)))
    (Some a_windows_memory) "powershell".

(** An executor whose working directory has been deleted. *)
Definition a_lost_executor : executor.Executor := executor.NewExecutor "/gone".

End examples.

(** * Properties *)

(** ** The string functions on bytes

    Lengths and offsets: [lower_bytes] keeps the length, an occurrence
    found by [Index] lies within the text, and the fuel of [ReplaceAll]
    is enough. *)
Section StringFacts.
Import GoStrings.

Lemma lower_bytes_length (s : string) :
  String.length (lower_bytes s) = String.length s.
Proof. induction s as [|c r IH]; simpl; [reflexivity | rewrite IH; reflexivity]. Qed.

Lemma prefix_length (pre s : string) :
  String.prefix pre s = true -> (String.length pre <= String.length s)%nat.
Proof.
  revert s. induction pre as [|c pre IH]; intros s H; simpl; [lia|].
  destruct s as [|d s]; simpl in H; [discriminate|].
  destruct (ascii_dec c d); [|discriminate].
  apply IH in H. simpl. lia.
Qed.

Lemma index_from_in_range (sub s : string) : forall i j,
  index_from i s sub = Some j ->
  (i <= j /\ j - i + String.length sub <= String.length s)%nat.
Proof.
  induction s as [|c r IH]; intros i j.
  - destruct sub; simpl; [|discriminate]. intros [= <-]. lia.
  - change (index_from i (String c r) sub)
      with (if String.prefix sub (String c r) then Some i
            else index_from (S i) r sub).
    destruct (String.prefix sub (String c r)) eqn:Hp.
    + intros [= <-]. apply prefix_length in Hp. simpl in Hp. simpl. lia.
    + intros H. apply IH in H. simpl. lia.
Qed.

Lemma Index_in_range (s sub : string) :
  (0 <= Index s sub)%Z -> (Index s sub + len sub <= len s)%Z.
Proof.
  unfold Index, len.
  destruct (index_from 0 s sub) as [j|] eqn:Hi; [|lia].
  intros _. apply index_from_in_range in Hi. lia.
Qed.

Lemma drop_bytes_length (n : nat) (s : string) :
  String.length (drop_bytes n s) = (String.length s - n)%nat.
Proof.
  revert s. induction n as [|n IH]; intros s; simpl; [lia|].
  destruct s as [|c r]; simpl; [reflexivity | apply IH].
Qed.

(** Any fuel above the length of the string gives [replace_nonempty]
    the same result: the recursion has come to the end of the string
    before the fuel is used up. *)
Lemma replace_nonempty_fuel (old new : string) :
  is_empty old = false ->
  forall fuel fuel' s,
    (String.length s < fuel)%nat -> (String.length s < fuel')%nat ->
    replace_nonempty fuel s old new = replace_nonempty fuel' s old new.
Proof.
  intros Hold. induction fuel as [|fuel IH]; intros fuel' s H H'; [lia|].
  destruct fuel' as [|fuel']; [lia|]. simpl.
  destruct (String.prefix old s) eqn:Hp.
  - f_equal. apply prefix_length in Hp.
    assert (0 < String.length old)%nat by (destruct old; [discriminate | simpl; lia]).
    apply IH; rewrite drop_bytes_length; lia.
  - destruct s as [|c r]; [reflexivity|]. f_equal.
    simpl in H, H'. apply IH; lia.
Qed.

End StringFacts.

(** ** Strings: appending, taking and dropping *)

(** One step of [+:+], which [simpl] leaves folded when it is at the
    head of a term. *)
Ltac app_step :=
  repeat match goal with
         | |- context [String ?x ?a +:+ ?y] =>
             change (String x a +:+ y) with (String x (a +:+ y))
         | |- context [EmptyString +:+ ?y] => change (EmptyString +:+ y) with y
         end.

Section TextFacts.
Import GoStrings text.

Lemma append_length (a b : string) :
  String.length (a +:+ b) = (String.length a + String.length b)%nat.
Proof. induction a as [|c a IH]; simpl; [reflexivity | rewrite IH; reflexivity]. Qed.

Lemma append_assoc (a b c : string) : (a +:+ b) +:+ c = a +:+ (b +:+ c).
Proof. induction a as [|x a IH]; app_step; [reflexivity | f_equal; exact IH]. Qed.

Lemma append_empty_r (a : string) : a +:+ EmptyString = a.
Proof. induction a as [|x a IH]; app_step; [reflexivity | f_equal; exact IH]. Qed.

Lemma mem_byte_append (c : ascii) (a b : string) :
  mem_byte c (a +:+ b) = mem_byte c a || mem_byte c b.
Proof.
  induction a as [|x a IH]; simpl; [reflexivity|].
  rewrite IH. apply orb_assoc.
Qed.

Lemma take_bytes_length (n : nat) (s : string) :
  String.length (take_bytes n s) = Nat.min n (String.length s).
Proof.
  revert s. induction n as [|n IH]; intros [|c r]; simpl; try reflexivity.
  rewrite IH. reflexivity.
Qed.

Lemma take_bytes_beyond (n : nat) (s : string) :
  (String.length s <= n)%nat -> take_bytes n s = s.
Proof.
  revert s. induction n as [|n IH]; intros [|c r]; simpl; try reflexivity; [lia|].
  intros H. rewrite IH by lia. reflexivity.
Qed.

Lemma take_drop_bytes (n : nat) (s : string) :
  take_bytes n s +:+ drop_bytes n s = s.
Proof.
  revert s. induction n as [|n IH]; intros [|c r]; simpl; app_step;
    try reflexivity.
  f_equal. apply IH.
Qed.

Lemma take_bytes_append (a b : string) : take_bytes (String.length a) (a +:+ b) = a.
Proof.
  induction a as [|x a IH]; app_step; simpl; [destruct b; reflexivity|].
  f_equal. exact IH.
Qed.

Lemma drop_bytes_append (a b : string) : drop_bytes (String.length a) (a +:+ b) = b.
Proof. induction a as [|x a IH]; app_step; simpl; [reflexivity | exact IH]. Qed.

Lemma mem_byte_take (c : ascii) (n : nat) (s : string) :
  mem_byte c s = false -> mem_byte c (take_bytes n s) = false.
Proof.
  revert s. induction n as [|n IH]; intros [|d r]; simpl; try reflexivity.
  intros H. apply orb_false_iff in H as [H1 H2]. rewrite H1. simpl. auto.
Qed.

Lemma mem_byte_drop (c : ascii) (n : nat) (s : string) :
  mem_byte c s = false -> mem_byte c (drop_bytes n s) = false.
Proof.
  revert s. induction n as [|n IH]; intros [|d r]; simpl; try tauto.
  intros H. apply orb_false_iff in H as [H1 H2]. auto.
Qed.

Lemma prefix_empty (s : string) : String.prefix EmptyString s = true.
Proof. destruct s; reflexivity. Qed.

Lemma prefix_append (a b : string) : String.prefix a (a +:+ b) = true.
Proof.
  induction a as [|x a IH]; simpl; [apply prefix_empty|].
  destruct (Ascii.ascii_dec x x); [exact IH | congruence].
Qed.

Lemma lower_bytes_append (a b : string) :
  lower_bytes (a +:+ b) = lower_bytes a +:+ lower_bytes b.
Proof. induction a as [|x a IH]; simpl; [reflexivity | rewrite IH; reflexivity]. Qed.

Lemma prefix_lower_bytes (a s : string) :
  String.prefix a s = true -> String.prefix (lower_bytes a) (lower_bytes s) = true.
Proof.
  revert s. induction a as [|x a IH]; intros s; simpl; [intros _; apply prefix_empty|].
  destruct s as [|y s]; simpl; [discriminate|].
  destruct (Ascii.ascii_dec x y) as [->|]; [|discriminate].
  intros H. destruct (Ascii.ascii_dec (lower_byte y) (lower_byte y)); [|congruence].
  apply IH. exact H.
Qed.

Lemma all_bytes_mem (f : ascii -> bool) (s : string) (c : ascii) :
  all_bytes f s = true -> mem_byte c s = true -> f c = true.
Proof.
  induction s as [|d r IH]; simpl; [discriminate|].
  intros H Hm. apply andb_true_iff in H as [H1 H2].
  apply orb_true_iff in Hm as [Hm | Hm]; [|auto].
  apply Ascii.eqb_eq in Hm. subst c. exact H1.
Qed.

Lemma ascii_only_append (a b : string) :
  ascii_only (a +:+ b) = ascii_only a && ascii_only b.
Proof.
  induction a as [|x a IH]; simpl; [reflexivity|].
  rewrite IH. apply andb_assoc.
Qed.

Lemma ascii_only_lower_byte (c : ascii) :
  (byte_of (lower_byte c) <? 128)%nat = (byte_of c <? 128)%nat.
Proof.
  unfold lower_byte, is_upper.
  destruct ((65 <=? byte_of c)%nat && (byte_of c <=? 90)%nat) eqn:H; [|reflexivity].
  apply andb_true_iff in H as [H1 H2].
  apply Nat.leb_le in H1. apply Nat.leb_le in H2.
  unfold byte_of at 1. rewrite nat_ascii_embedding by lia.
  transitivity true; [apply Nat.ltb_lt; lia | symmetry; apply Nat.ltb_lt; lia].
Qed.

Lemma ascii_only_lower_bytes (s : string) :
  ascii_only (lower_bytes s) = ascii_only s.
Proof.
  induction s as [|c r IH]; simpl; [reflexivity|].
  rewrite ascii_only_lower_byte, IH. reflexivity.
Qed.

Lemma fields_aux_clean (s : string) :
  all_bytes (fun c => negb (is_space c)) (fst (fields_aux s)) = true
  /\ Forall (fun w => all_bytes (fun c => negb (is_space c)) w = true)
       (snd (fields_aux s)).
Proof.
  induction s as [|c r IH]; simpl; [auto|].
  destruct (fields_aux r) as [w ws]. simpl in IH. destruct IH as [Hw Hws].
  destruct (is_space c) eqn:Hc; simpl.
  - split; [reflexivity|]. destruct (is_empty w); auto.
  - rewrite Hc, Hw. auto.
Qed.

Lemma blank_fields_clean (s : string) :
  Forall (fun w => all_bytes (fun c => negb (is_space c)) w = true) (blank_fields s).
Proof.
  unfold blank_fields. pose proof (fields_aux_clean s) as [Hw Hws].
  destruct (fields_aux s) as [w ws]. simpl in *. destruct (is_empty w); auto.
Qed.

End TextFacts.

(** ** The three functions on ASCII texts satisfy the laws *)
Section AsciiTexts.
Import GoStrings text.

Lemma ascii_laws : Laws ascii.ops.
Proof.
  split; simpl.
  - reflexivity.
  - intros a b _. apply lower_bytes_append.
  - intros s p _ H. apply prefix_length in H.
    rewrite lower_bytes_length in H. exact H.
  - reflexivity.
  - intros s w c Hin Hm.
    pose proof (blank_fields_clean s) as Hall.
    rewrite List.Forall_forall in Hall. specialize (Hall w Hin).
    apply (all_bytes_mem _ _ c Hall) in Hm.
    destruct (is_space c); [discriminate | reflexivity].
Qed.

End AsciiTexts.

(** ** The safety classifier *)
Section CheckerProperties.
Import GoStrings safety.
Context {str : Ops}.

Lemma first_match_found (lower : string) (ps : list pattern) (p : pattern) :
  In p ps -> Contains lower (match_ p) = true ->
  exists q, first_match lower ps = Some q.
Proof.
  induction ps as [|q ps IH]; simpl; [tauto|].
  intros [->|Hin] Hc.
  - rewrite Hc. eauto.
  - destruct (Contains lower (match_ q)); eauto.
Qed.

Lemma first_match_none (lower : string) (ps : list pattern) :
  (forall p, In p ps -> Contains lower (match_ p) = false) ->
  first_match lower ps = None.
Proof.
  induction ps as [|q ps IH]; simpl; [reflexivity|].
  intros H. rewrite (H q) by auto. apply IH. intros p Hp. apply H. auto.
Qed.

Lemma Check_blocked (c : Checker) (command : string) (p : pattern) :
  In p (blockedPatterns c) ->
  Contains (ToLower (TrimSpace command)) (match_ p) = true ->
  level (Check c command) = Blocked.
Proof.
  intros Hin Hc. unfold Check.
  destruct (first_match_found _ _ _ Hin Hc) as [q ->]. reflexivity.
Qed.

(** C1: whenever the lower-cased trimmed command contains the text of a
    rule of the blocked table, [Check] answers [Blocked].  The blocked
    table is scanned in full before the confirm table is looked at, so
    nothing is asked of the confirm rules, and every command with the
    same lower-cased trimmed form (any other letter case) is blocked
    too. *)
Theorem Check_blocked_wins (c : Checker) (command : string) (p : pattern) :
  In p (blockedPatterns c) ->
  Contains (ToLower (TrimSpace command)) (match_ p) = true ->
  level (Check c command) = Blocked
  /\ forall command',
       ToLower (TrimSpace command') = ToLower (TrimSpace command) ->
       level (Check c command') = Blocked.
Proof.
  intros Hin Hc. split.
  - eapply Check_blocked; eassumption.
  - intros command' Heq. eapply Check_blocked; [eassumption|].
    rewrite Heq. exact Hc.
Qed.

Lemma Check_safe (c : Checker) (command : string) :
  (forall p, In p (blockedPatterns c) ->
             Contains (ToLower (TrimSpace command)) (match_ p) = false) ->
  (forall p, In p (confirmPatterns c) ->
             Contains (ToLower (TrimSpace command)) (match_ p) = false) ->
  Check c command = {| level := Safe; Reason := EmptyString; Command := command |}.
Proof.
  intros Hb Hc. unfold Check.
  rewrite (first_match_none _ _ Hb), (first_match_none _ _ Hc). reflexivity.
Qed.

Section WithLaws.
Context {laws : Laws str}.

(** C8: a command whose lower-cased trimmed text contains the text of no
    rule of either table is classified [Safe], with an empty reason and
    the command unchanged; the empty command is such a command. *)
Theorem Check_no_match_safe (command : string) :
  (forall p, In p (blockedPatterns NewChecker) ->
             Contains (ToLower (TrimSpace command)) (match_ p) = false) ->
  (forall p, In p (confirmPatterns NewChecker) ->
             Contains (ToLower (TrimSpace command)) (match_ p) = false) ->
  Check NewChecker command
    = {| level := Safe; Reason := EmptyString; Command := command |}
  /\ Check NewChecker EmptyString
    = {| level := Safe; Reason := EmptyString; Command := EmptyString |}.
Proof.
  intros Hb Hc. split; [apply Check_safe; assumption|].
  unfold Check. rewrite (TrimSpace_ascii EmptyString eq_refl).
  change (trim_blanks EmptyString) with EmptyString.
  rewrite ToLower_empty. reflexivity.
Qed.

End WithLaws.

End CheckerProperties.

Section CheckerExamples.
Import GoStrings safety.
#[local] Existing Instance ascii.ops.

(** A command in capitals that matches a blocked rule and the confirm
    rule "del " as well. *)
Lemma Check_blocked_wins_witness :
  let command := "DEL /S /Q C:\Windows\System32" in
  let p := mkPattern "del /s /q c:\windows" "Cannot delete Windows system directory" in
  In p (blockedPatterns NewChecker)
  /\ Contains (ToLower (TrimSpace command)) (match_ p) = true
  /\ Contains (ToLower (TrimSpace command)) "del " = true
  /\ level (Check NewChecker command) = Blocked.
Proof.
  intros command p.
  assert (Hin : In p (blockedPatterns NewChecker)) by (simpl; tauto).
  assert (Hc : Contains (ToLower (TrimSpace command)) (match_ p) = true)
    by reflexivity.
  split; [exact Hin|]. split; [exact Hc|]. split; [reflexivity|].
  exact (proj1 (Check_blocked_wins NewChecker command p Hin Hc)).
Defined.

Ltac each_pattern H :=
  simpl in H;
  repeat (destruct H as [<-|H]; [reflexivity|]);
  contradiction.

Lemma Check_no_match_safe_witness :
  let command := "Get-ChildItem" in
  (forall p, In p (blockedPatterns NewChecker) ->
             Contains (ToLower (TrimSpace command)) (match_ p) = false)
  /\ (forall p, In p (confirmPatterns NewChecker) ->
                Contains (ToLower (TrimSpace command)) (match_ p) = false)
  /\ Check NewChecker command
     = {| level := Safe; Reason := EmptyString; Command := command |}.
Proof.
  intros command.
  assert (Hb : forall p, In p (blockedPatterns NewChecker) ->
             Contains (ToLower (TrimSpace command)) (match_ p) = false)
    by (intros p Hp; each_pattern Hp).
  assert (Hc : forall p, In p (confirmPatterns NewChecker) ->
             Contains (ToLower (TrimSpace command)) (match_ p) = false)
    by (intros p Hp; each_pattern Hp).
  split; [exact Hb|]. split; [exact Hc|].
  exact (proj1 (Check_no_match_safe (laws:=ascii_laws) command Hb Hc)).
Defined.

(** The commands of the repository's classifier tests and of the design
    document's scenarios, run through the model. *)
Example Check_repository_tests :
  map (fun command => level (Check NewChecker command))
    [ "Get-ChildItem"; "mkdir test"; "echo hello"; "where.exe python";
      "New-Item -ItemType Directory -Name 'project'";
      "Get-Process | Sort-Object CPU -Descending | Select-Object -First 10";
      "systeminfo"; "ipconfig"; "explorer.exe ." ]
  = replicate 9 Safe
  /\ map (fun command => level (Check NewChecker command))
       [ "Format-Volume -DriveLetter C"; "format c:";
         "Remove-Item -Recurse C:\Windows"; "del /s /q C:\Windows\System32";
         "rd /s /q C:\"; "Set-ExecutionPolicy Unrestricted";
         "reg delete HKLM\Software\Test"; "FORMAT-VOLUME -DriveLetter C" ]
     = replicate 8 Blocked
  /\ map (fun command => level (Check NewChecker command))
       [ "Stop-Process -Name notepad"; "taskkill /IM notepad.exe";
         "shutdown /s /t 0"; "Restart-Computer"; "Remove-Item test.txt";
         "del test.txt"; "rmdir /s testdir"; "Stop-Service wuauserv";
         "netsh interface set interface 'Wi-Fi' disable"; "SHUTDOWN /s /t 0";
         "Remove-Item -Path 'TempData' -Recurse -Force" ]
     = replicate 11 NeedsConfirm.
Proof. repeat split. Qed.

End CheckerExamples.

(** ** The conversation memory *)
Section MemoryProperties.
Import GoStrings memory session.
Context {str : Ops} {fp : filepath.Ops}.

(** C10: [Clear] empties the exchange list and the two hints and keeps
    the working directory (and the data directory and the two sizes)
    as they were. *)
Theorem Clear_keeps_working_directory (m : Memory) :
  Exchanges (Clear m) = []
  /\ LastAction (Clear m) = EmptyString
  /\ LastCreated (Clear m) = EmptyString
  /\ WorkingDir (Clear m) = WorkingDir m
  /\ dataDir (Clear m) = dataDir m
  /\ MaxExchanges (Clear m) = MaxExchanges m
  /\ CompactAfter (Clear m) = CompactAfter m.
Proof. unfold Clear. simpl. tauto. Qed.

Ltac pick_memory :=
  match goal with
  | |- context [memory.compact ?x _ _] => exists x
  end.

(** The two ways of a call of [RecordExchange]: it panics in
    [ExtractNameFromCommand], which it calls for a command that names
    new-item or mkdir; or it goes on, with the memory [m3], to decide
    whether to compact. *)
Lemma record_unfold (m : Memory) (d : os.Disk) (c : call) :
  let creates :=
    negb (is_empty (call_command c))
    && (Contains (ToLower (call_command c)) "new-item"
        || Contains (ToLower (call_command c)) "mkdir") in
  (creates = true
   /\ ExtractNameFromCommand (call_command c) = None
   /\ record m d c = None)
  \/ (~ (creates = true /\ ExtractNameFromCommand (call_command c) = None)
      /\ exists m3,
           Exchanges m3 = Exchanges m ++ [exchange_of c]
           /\ dataDir m3 = dataDir m
           /\ WorkingDir m3 = WorkingDir m
           /\ MaxExchanges m3 = MaxExchanges m
           /\ CompactAfter m3 = CompactAfter m
           /\ LastAction m3 = call_response c
           /\ (is_empty (call_command c) = true
               \/ (Contains (ToLower (call_command c)) "new-item" = false
                   /\ Contains (ToLower (call_command c)) "mkdir" = false
                   /\ Contains (ToLower (call_command c)) "explorer" = false) ->
               LastCreated m3 = LastCreated m)
           /\ record m d c
              = if (CompactAfter m3 <? Z.of_nat (length (Exchanges m3)))%Z
                then compact m3 d (call_now' c) else Some (m3, d)).
Proof.
  intros creates. subst creates. unfold record, RecordExchange.
  destruct (is_empty (call_command c)) eqn:He; simpl.
  - right. split; [intros [? _]; discriminate|].
    pick_memory. repeat split; auto.
  - destruct (Contains (ToLower (call_command c)) "new-item"
              || Contains (ToLower (call_command c)) "mkdir") eqn:Hn.
    + destruct (ExtractNameFromCommand (call_command c)) as [name|] eqn:Hx.
      * right. split; [intros [_ ?]; discriminate|].
        pick_memory. repeat split; try reflexivity.
        intros [H | (H1 & H2 & _)]; [discriminate|].
        rewrite H1, H2 in Hn. discriminate.
      * left. auto.
    + right. split; [intros [? _]; discriminate|].
      destruct (Contains (ToLower (call_command c)) "explorer") eqn:Hp.
      * pick_memory. repeat split; try reflexivity.
        intros [H | (_ & _ & H)]; discriminate.
      * pick_memory. repeat split; auto.
Qed.

(** What one call of [RecordExchange] does to a memory whose window
    size is not negative, when [ExtractNameFromCommand] returns. *)
Lemma record_step (m : Memory) (d : os.Disk) (c : call) :
  (0 <= MaxExchanges m)%Z ->
  ExtractNameFromCommand (call_command c) <> None ->
  exists m' d' old,
    record m d c = Some (m', d')
    /\ dataDir m' = dataDir m
    /\ MaxExchanges m' = MaxExchanges m
    /\ CompactAfter m' = CompactAfter m
    /\ Exchanges m ++ [exchange_of c] = old ++ Exchanges m'
    /\ os.appendable d' = os.appendable d
    /\ os.accepted d' = os.accepted d
    /\ (Z.of_nat (length (Exchanges m')) <= Z.max (MaxExchanges m) (CompactAfter m))%Z
    /\ ((Z.max (MaxExchanges m) (CompactAfter m) < Z.of_nat (length (Exchanges m)) + 1)%Z ->
        Z.of_nat (length (Exchanges m')) = MaxExchanges m)
    /\ ((old = [] /\ d' = d)
        \/ (old <> []
            /\ (os.appendable d (notePath m (day_of c)) = true ->
                (forall data,
                   String.length data <= os.accepted d (notePath m (day_of c)) data)%nat ->
                os.files d' = append_note m (os.files d) (day_of c, old)))).
Proof.
  intros Hmax Hname.
  destruct (record_unfold m d c) as [(_ & Hx & _) | (_ & m3 & HE & HD & _ & HM & HC & _ & _ & ->)];
    [contradiction|].
  assert (Hlen : Z.of_nat (length (Exchanges m3))
                 = (Z.of_nat (length (Exchanges m)) + 1)%Z).
  { rewrite HE, length_app. simpl. lia. }
  destruct (CompactAfter m3 <? Z.of_nat (length (Exchanges m3)))%Z eqn:Hca.
  - apply Z.ltb_lt in Hca. unfold compact.
    destruct (Z.of_nat (length (Exchanges m3)) <=? MaxExchanges m3)%Z eqn:Hle.
    + apply Z.leb_le in Hle.
      exists m3, d, []. repeat split; try assumption; try lia.
      * rewrite HE. reflexivity.
      * left. split; reflexivity.
    + apply Z.leb_gt in Hle.
      destruct (MaxExchanges m3 <? 0)%Z eqn:Hneg; [apply Z.ltb_lt in Hneg; lia|].
      set (k := Z.to_nat (Z.of_nat (length (Exchanges m3)) - MaxExchanges m3)).
      assert (Hk : (0 < k <= length (Exchanges m3))%nat) by (subst k; lia).
      set (old := take k (Exchanges m3)).
      set (m' := set_Exchanges m3 (drop k (Exchanges m3))).
      assert (Hold : old <> []).
      { intros Hnil. apply (f_equal length) in Hnil. subst old.
        rewrite length_take in Hnil. simpl in Hnil. lia. }
      assert (Hlen' : Z.of_nat (length (Exchanges m')) = MaxExchanges m).
      { subst m'. simpl. rewrite length_drop. subst k. lia. }
      assert (Hsplit : Exchanges m ++ [exchange_of c] = old ++ Exchanges m').
      { rewrite <- HE. subst old m'. simpl. symmetry. apply take_drop. }
      unfold os.append_file.
      assert (HP : notePath m3 (time.Format_date (call_now' c))
                   = notePath m (day_of c))
        by (unfold notePath, day_of; rewrite HD; reflexivity).
      rewrite HP.
      destruct (os.appendable d (notePath m (day_of c))) eqn:Hopen.
      * eexists m', _, old. repeat split; try eassumption; try reflexivity;
          try lia.
        right. split; [assumption|]. intros _ Hfull. simpl. unfold append_note.
        simpl. rewrite take_bytes_beyond by apply Hfull. reflexivity.
      * exists m', d, old. repeat split; try assumption; try reflexivity;
          try lia.
        right. split; [assumption|]. intros; discriminate.
  - apply Z.ltb_ge in Hca.
    exists m3, d, []. repeat split; try assumption; try lia.
    + rewrite HE. reflexivity.
    + left. split; reflexivity.
Qed.

Lemma notePath_dataDir (m m' : Memory) (today : string) :
  dataDir m' = dataDir m -> notePath m' today = notePath m today.
Proof. intros H. unfold notePath. rewrite H. reflexivity. Qed.

Lemma append_notes_dataDir (m m' : Memory) notes (fs : gmap string string) :
  dataDir m' = dataDir m -> append_notes m' fs notes = append_notes m fs notes.
Proof.
  intros H. revert fs. induction notes as [|n notes IH]; intros fs; simpl.
  - reflexivity.
  - rewrite IH. unfold append_note. rewrite (notePath_dataDir _ _ _ H).
    reflexivity.
Qed.

Lemma append_notes_keeps (m : Memory) notes (fs : gmap string string) (path : string) :
  is_Some (fs !! path) -> is_Some (append_notes m fs notes !! path).
Proof.
  revert fs. induction notes as [|n notes IH]; intros fs Hs; simpl.
  - exact Hs.
  - apply IH. unfold append_note.
    destruct (decide (notePath m (fst n) = path)) as [<-|Hne].
    + rewrite lookup_insert_eq. eauto.
    + rewrite lookup_insert_ne by exact Hne. exact Hs.
Qed.

Lemma append_notes_written (m : Memory) notes (fs : gmap string string) note :
  In note notes -> is_Some (append_notes m fs notes !! notePath m (fst note)).
Proof.
  revert fs. induction notes as [|n notes IH]; intros fs; simpl; [tauto|].
  intros [->|Hin].
  - apply append_notes_keeps. unfold append_note.
    rewrite lookup_insert_eq. eauto.
  - apply IH. exact Hin.
Qed.

Lemma RecordExchanges_app (before after : list call) :
  forall (m : Memory) (d : os.Disk),
    RecordExchanges m d (before ++ after)
    = match RecordExchanges m d before with
      | Some (m1, d1) => RecordExchanges m1 d1 after
      | None => None
      end.
Proof.
  induction before as [|c rest IH]; intros m d; simpl; [reflexivity|].
  destruct (record m d c) as [[m1 d1]|]; [apply IH | reflexivity].
Qed.

(** The invariant of a session: the exchanges recorded are the ones
    written to the notes followed by the ones still in memory. *)
Lemma record_all_inv (calls : list call) : forall (m : Memory) (d : os.Disk),
  (0 <= MaxExchanges m)%Z ->
  (forall c, In c calls -> ExtractNameFromCommand (call_command c) <> None) ->
  exists m' d' notes,
    RecordExchanges m d calls = Some (m', d')
    /\ dataDir m' = dataDir m
    /\ MaxExchanges m' = MaxExchanges m
    /\ CompactAfter m' = CompactAfter m
    /\ Exchanges m ++ map exchange_of calls
        = concat (map snd notes) ++ Exchanges m'
    /\ ((forall c0, In c0 calls ->
          os.appendable d (notePath m (day_of c0)) = true
          /\ forall data,
               (String.length data <= os.accepted d (notePath m (day_of c0)) data)%nat) ->
        os.files d' = append_notes m (os.files d) notes)
    /\ (calls <> []
         \/ (Z.of_nat (length (Exchanges m))
              <= Z.max (MaxExchanges m) (CompactAfter m))%Z ->
        (Z.of_nat (length (Exchanges m'))
         <= Z.max (MaxExchanges m) (CompactAfter m))%Z).
Proof.
  induction calls as [|c rest IH]; intros m d Hmax Hname.
  - exists m, d, []. simpl. rewrite app_nil_r.
    repeat split; try reflexivity.
    intros [H|H]; [congruence | exact H].
  - destruct (record_step m d c Hmax)
      as (m1 & d1 & old & Hrec & HD & HM & HC & HE & HA & HW & Hb & _ & Hcase).
    { apply Hname. left. reflexivity. }
    destruct (IH m1 d1) as (m2 & d2 & notes & Hrec2 & HD2 & HM2 & HC2 & HE2 & HF2 & Hb2).
    { rewrite HM. exact Hmax. }
    { intros c' Hc'. apply Hname. right. exact Hc'. }
    assert (Hbound : (Z.of_nat (length (Exchanges m2))
                      <= Z.max (MaxExchanges m) (CompactAfter m))%Z).
    { rewrite <- HM, <- HC. apply Hb2. right. rewrite HM, HC. exact Hb. }
    assert (Hrun : RecordExchanges m d (c :: rest) = Some (m2, d2))
      by (simpl; rewrite Hrec; exact Hrec2).
    assert (Hrest : (forall c0, In c0 (c :: rest) ->
              os.appendable d (notePath m (day_of c0)) = true
              /\ forall data,
                   (String.length data <= os.accepted d (notePath m (day_of c0)) data)%nat) ->
                    (forall c0, In c0 rest ->
              os.appendable d1 (notePath m1 (day_of c0)) = true
              /\ forall data,
                   (String.length data <= os.accepted d1 (notePath m1 (day_of c0)) data)%nat)).
    { intros Hw c' Hc'. rewrite HA, HW, (notePath_dataDir _ _ _ HD).
      apply Hw. right. exact Hc'. }
    rewrite (append_notes_dataDir _ _ _ _ HD) in HF2.
    destruct Hcase as [[-> ->] | (Hold & Hfile)].
    + exists m2, d2, notes. simpl in HE.
      repeat split; try congruence.
      * simpl map. rewrite <- HE2, <- HE, <- app_assoc. reflexivity.
      * intros Hw. apply HF2, Hrest, Hw.
    + exists m2, d2, ((day_of c, old) :: notes).
      repeat split; try congruence.
      * simpl. rewrite <- app_assoc, <- HE2, app_assoc, <- HE, <- app_assoc.
        reflexivity.
      * intros Hw. simpl. rewrite (HF2 (Hrest Hw)).
        destruct (Hw c (or_introl eq_refl)) as [Hopen Hfull].
        rewrite (Hfile Hopen Hfull). reflexivity.
Qed.

(** C6 (amended): on a memory whose window size is not negative, every
    call of [RecordExchange] whose command [ExtractNameFromCommand] can
    take returns; after each call the number of exchanges in memory is
    at most the larger of [MaxExchanges] and [CompactAfter], and a call
    that would take the number above both cuts it back to
    [MaxExchanges].  The exchanges recorded are the ones removed from
    memory, in order, followed by the ones still in memory.  When the
    dated note files can be opened for appending and the writes succeed,
    the exchanges removed are the ones written to the notes, and every
    note written is a file that exists.  Once more exchanges have been
    recorded than the larger of the two sizes, at least one note has
    been made. *)
Theorem RecordExchange_compaction (m0 : Memory) (d0 : os.Disk) (calls : list call) :
  (0 <= MaxExchanges m0)%Z ->
  (forall c, In c calls -> ExtractNameFromCommand (call_command c) <> None) ->
  calls <> [] ->
  exists m d notes,
    RecordExchanges m0 d0 calls = Some (m, d)
    /\ (Z.of_nat (length (Exchanges m))
        <= Z.max (MaxExchanges m0) (CompactAfter m0))%Z
    /\ (forall before c m1 d1,
          calls = before ++ [c] ->
          RecordExchanges m0 d0 before = Some (m1, d1) ->
          (Z.max (MaxExchanges m0) (CompactAfter m0)
           < Z.of_nat (length (Exchanges m1)) + 1)%Z ->
          Z.of_nat (length (Exchanges m)) = MaxExchanges m0)
    /\ Exchanges m0 ++ map exchange_of calls = concat (map snd notes) ++ Exchanges m
    /\ ((forall c, In c calls ->
           os.appendable d0 (notePath m0 (day_of c)) = true
           /\ forall data,
                (String.length data
                 <= os.accepted d0 (notePath m0 (day_of c)) data)%nat) ->
        os.files d = append_notes m0 (os.files d0) notes
        /\ forall note, In note notes ->
             is_Some (os.files d !! notePath m0 (fst note)))
    /\ ((Z.max (MaxExchanges m0) (CompactAfter m0)
         < Z.of_nat (length (Exchanges m0) + length calls))%Z ->
        notes <> []).
Proof.
  intros Hmax Hname Hcalls.
  destruct (record_all_inv calls m0 d0 Hmax Hname)
    as (m & d & notes & Hrun & _ & _ & _ & HE & HF & Hb).
  assert (Hbound : (Z.of_nat (length (Exchanges m))
                    <= Z.max (MaxExchanges m0) (CompactAfter m0))%Z)
    by (apply Hb; left; exact Hcalls).
  exists m, d, notes. split; [exact Hrun|]. split; [exact Hbound|].
  split; [|split; [exact HE|split]].
  - intros before c m1 d1 -> Hbefore Hover.
    rewrite RecordExchanges_app, Hbefore in Hrun. simpl in Hrun.
    destruct (record_all_inv before m0 d0 Hmax)
      as (m1' & d1' & _ & Hrun1 & _ & HM1 & HC1 & _).
    { intros c' Hc'. apply Hname. apply in_or_app. left. exact Hc'. }
    rewrite Hbefore in Hrun1. injection Hrun1 as <- <-.
    destruct (record_step m1 d1 c)
      as (m' & d' & _ & Hrec & _ & _ & _ & _ & _ & _ & _ & Hcut & _).
    { rewrite HM1. exact Hmax. }
    { apply Hname. apply in_or_app. right. left. reflexivity. }
    rewrite Hrec in Hrun. injection Hrun as <- <-.
    rewrite <- HM1. apply Hcut. rewrite HM1, HC1. exact Hover.
  - intros Hw. split; [apply HF; exact Hw|].
    intros note Hin. rewrite (HF Hw). apply append_notes_written. exact Hin.
  - intros Hmore Hnil. subst notes. simpl in HE.
    apply (f_equal length) in HE. rewrite length_app, length_map in HE. lia.
Qed.

End MemoryProperties.

Section MemoryExamples.
Import GoStrings memory session examples.
#[local] Existing Instance ascii.ops.

(** Twenty-one calls on a fresh memory: the last one takes the count
    above both sizes and cuts it back to the window size. *)
Lemma RecordExchange_compaction_witness :
  let calls := replicate 21 a_call in
  (0 <= MaxExchanges fresh_memory)%Z
  /\ (forall c, In c calls -> ExtractNameFromCommand (call_command c) <> None)
  /\ calls <> []
  /\ exists m d notes,
       RecordExchanges (fp:=unix.ops) fresh_memory writable_disk calls = Some (m, d)
       /\ (Z.of_nat (length (Exchanges m))
           <= Z.max (MaxExchanges fresh_memory) (CompactAfter fresh_memory))%Z
       /\ (forall before c m1 d1,
             calls = before ++ [c] ->
             RecordExchanges (fp:=unix.ops) fresh_memory writable_disk before
             = Some (m1, d1) ->
             (Z.max (MaxExchanges fresh_memory) (CompactAfter fresh_memory)
              < Z.of_nat (length (Exchanges m1)) + 1)%Z ->
             Z.of_nat (length (Exchanges m)) = MaxExchanges fresh_memory)
       /\ Exchanges fresh_memory ++ map exchange_of calls
          = concat (map snd notes) ++ Exchanges m
       /\ ((forall c, In c calls ->
              os.appendable writable_disk
                (notePath (fp:=unix.ops) fresh_memory (day_of c)) = true
              /\ forall data,
                   (String.length data
                    <= os.accepted writable_disk
                         (notePath (fp:=unix.ops) fresh_memory (day_of c)) data)%nat) ->
           os.files d
           = append_notes (fp:=unix.ops) fresh_memory (os.files writable_disk) notes
           /\ forall note, In note notes ->
                is_Some (os.files d !! notePath (fp:=unix.ops) fresh_memory (fst note)))
       /\ ((Z.max (MaxExchanges fresh_memory) (CompactAfter fresh_memory)
            < Z.of_nat (length (Exchanges fresh_memory) + length calls))%Z ->
           notes <> []).
Proof.
  intros calls.
  assert (H1 : (0 <= MaxExchanges fresh_memory)%Z) by (simpl; lia).
  assert (H2 : forall c, In c calls ->
            ExtractNameFromCommand (call_command c) <> None).
  { intros c Hc. apply list_elem_of_In, elem_of_replicate in Hc as [-> _].
    vm_compute. discriminate. }
  assert (H3 : calls <> []) by discriminate.
  split; [exact H1|]. split; [exact H2|]. split; [exact H3|].
  exact (RecordExchange_compaction (fp:=unix.ops) fresh_memory writable_disk calls
           H1 H2 H3).
Defined.

(** With the sizes of [NewMemory], the 21st call compacts the memory to
    5 exchanges and the 22nd brings it to 6, above the window size; and
    on a disk where the note cannot be opened the 21st call removes 16
    exchanges from memory and leaves no note file. *)
Lemma RecordExchange_window_counterexample :
  (CompactAfter fresh_memory < 22)%Z
  /\ (exists m d,
        RecordExchanges (fp:=unix.ops) fresh_memory writable_disk (replicate 22 a_call)
        = Some (m, d)
        /\ ~ (Z.of_nat (length (Exchanges m)) <= MaxExchanges m)%Z)
  /\ (exists m d,
        RecordExchanges (fp:=unix.ops) fresh_memory unwritable_disk (replicate 21 a_call)
        = Some (m, d)
        /\ length (Exchanges m) = 5%nat
        /\ os.files d = ∅).
Proof.
  split; [simpl; lia|]. split.
  - eexists _, _. split; [vm_compute; reflexivity|]. simpl. lia.
  - eexists _, _. split; [vm_compute; reflexivity|]. split; reflexivity.
Qed.

(** The repository's compaction test: with a threshold of 5 and a
    window of 3, ten calls leave 4 exchanges in memory and a note with
    the 6 others. *)
Example RecordExchange_repository_test :
  let m0 :=
    {| dataDir := "/tmp/t"; WorkingDir := "/home/u";
       LastAction := EmptyString; LastCreated := EmptyString; Exchanges := [];
       MaxExchanges := 3; CompactAfter := 5 |} in
  exists m d note,
    RecordExchanges (fp:=unix.ops) m0 writable_disk (replicate 10 a_call) = Some (m, d)
    /\ length (Exchanges m) = 4%nat
    /\ os.files d !! "/tmp/t/memory/2026-03-07.md" = Some note
    /\ note = note_text "2026-03-07" (replicate 3 (exchange_of a_call))
              +:+ note_text "2026-03-07" (replicate 3 (exchange_of a_call)).
Proof.
  eexists _, _, _. split; [vm_compute; reflexivity|].
  split; [reflexivity|]. split; [vm_compute; reflexivity|]. vm_compute. reflexivity.
Qed.

(** On a full disk the 21st call removes 16 exchanges from memory and
    leaves an empty note file. *)
Example RecordExchange_full_disk :
  exists m d,
    RecordExchanges (fp:=unix.ops) fresh_memory full_disk (replicate 21 a_call)
    = Some (m, d)
    /\ length (Exchanges m) = 5%nat
    /\ os.files d !! "/home/u/.shell-e/memory/2026-03-07.md" = Some EmptyString.
Proof.
  eexists _, _. split; [vm_compute; reflexivity|].
  split; [reflexivity | vm_compute; reflexivity].
Qed.

End MemoryExamples.

(** ** The executor *)
Section ExecutorProperties.
Import GoStrings executor.
Context {str : Ops} {fp : filepath.Ops} {host : Host}.

(** The slices of [extractCDTarget] are within the text they are taken
    from: the lower-cased text starts with an ASCII keyword, so the
    text is at least as long as the keyword. *)
Lemma extractCDTarget_in_range {laws : Laws str} (command : string) :
  let cmd := TrimSpace command in
  let rest := TrimSpace (slice_from cmd 13) in
  (HasPrefix (ToLower cmd) "cd " = true -> (3 <= String.length cmd)%nat)
  /\ (HasPrefix (ToLower cmd) "set-location " = true ->
      (13 <= String.length cmd)%nat)
  /\ (HasPrefix (ToLower rest) "-path " = true -> (6 <= String.length rest)%nat)
  /\ (HasPrefix (ToLower cmd) "sl " = true -> (3 <= String.length cmd)%nat).
Proof.
  intros cmd rest. unfold HasPrefix.
  repeat split; intros H; apply ToLower_prefix in H; auto.
Qed.

Lemma extractCDTarget_idiom (command : string) :
  cd_idiom command <-> snd (extractCDTarget command) = true.
Proof.
  unfold cd_idiom, extractCDTarget.
  destruct (HasPrefix (ToLower (TrimSpace command)) "cd ");
    [simpl; tauto|].
  destruct (HasPrefix (ToLower (TrimSpace command)) "set-location ");
    [simpl; tauto|].
  destruct (HasPrefix (ToLower (TrimSpace command)) "sl "); simpl; [tauto|].
  split; [intros [H|[H|H]]; discriminate | discriminate].
Qed.

Lemma Execute_cd (e : Executor) (command shell : string) :
  snd (extractCDTarget command) = true ->
  Execute e command shell = (handleCD e (fst (extractCDTarget command)), []).
Proof.
  intros H. unfold Execute.
  destruct (extractCDTarget command) as [target ok]. simpl in *.
  rewrite H. reflexivity.
Qed.


(** C5: when the target of a directory-change command, resolved against
    the working directory and cleaned, does not exist (or cannot be
    examined) or is not a directory, [Execute]
    returns a failure result, starts no subprocess and leaves the
    executor as it was; the result's [CurrentWorkDir] is the unchanged
    working directory. *)
Theorem Execute_cd_failure (e : Executor) (command shell : string) :
  cd_idiom command ->
  (let target := fst (extractCDTarget command) in
   let newDir :=
     filepath.Clean
       (if filepath.IsAbs target then target
        else filepath.Join [WorkingDir e; target]) in
   (exists notExist msg, Stat newDir = StatError notExist msg)
   \/ Stat newDir = StatInfo false) ->
  exists r,
    Execute e command shell = (r, e, [])
    /\ Success r = false
    /\ NewWorkDir r = EmptyString
    /\ CurrentWorkDir r = WorkingDir e.
Proof.
  intros Hcd Hstat. apply extractCDTarget_idiom in Hcd.
  rewrite (Execute_cd e command shell Hcd).
  simpl in Hstat. unfold handleCD, resolve.
  destruct Hstat as [(ne & msg & ->) | ->]; eexists; split; reflexivity || auto.
Qed.

(** C9 (amended): when the command is not a directory change, so that a
    subprocess is run, the deadline has not passed when the run
    returns, the subprocess has exited with code 1 and the command
    names a search tool, [Execute] returns a failure whose error is
    exactly "No matches found". *)
Theorem Execute_search_no_matches (e : Executor) (command shell msg : string) :
  snd (extractCDTarget command) = false ->
  let e1 := validate e in
  let ran := Run (command_for e1 command shell) (Timeout e1) in
  deadlineExceeded ran = false ->
  err ran = Some (ExitError 1 msg) ->
  search_command command = true ->
  exists r,
    Execute e command shell = (r, e1, [command_for e1 command shell])
    /\ Success r = false
    /\ Error r = "No matches found"
    /\ CurrentWorkDir r = WorkingDir e1.
Proof.
  intros Hcd e1 ran Hdl Herr Hsearch. unfold Execute.
  destruct (extractCDTarget command) as [target ok]. simpl in Hcd. subst ok.
  fold e1. fold ran. rewrite Hdl, Herr.
  rewrite Hsearch. simpl.
  eexists. split; [reflexivity|]. auto.
Qed.

End ExecutorProperties.

Section ExecutorExamples.
Import GoStrings executor examples.
#[local] Existing Instance ascii.ops.


(** The run behind the witness: the change succeeds and the executor
    holds the cleaned path. *)
Example Execute_cd_projects :
  Execute (fp:=unix.ops) (host:=a_host) an_executor "CD './projects/'" "powershell"
  = ({| Success := true; Output := "Directory: /home/u/projects";
        Error := EmptyString; Duration := 15000000;
        NewWorkDir := "/home/u/projects";
        CurrentWorkDir := "/home/u/projects" |},
     {| WorkingDir := "/home/u/projects"; Timeout := 30000000000 |},
     []).
Proof. reflexivity. Qed.

Lemma Execute_cd_failure_witness :
  let command := "Set-Location -Path 'missing'" in
  cd_idiom command
  /\ (let target := fst (extractCDTarget command) in
      let newDir :=
        filepath.Clean (Ops:=unix.ops)
          (if filepath.IsAbs (Ops:=unix.ops) target then target
           else filepath.Join (Ops:=unix.ops) [WorkingDir an_executor; target]) in
      (exists notExist msg, Stat (Host:=a_host) newDir = StatError notExist msg)
      \/ Stat (Host:=a_host) newDir = StatInfo false)
  /\ exists r,
       Execute (fp:=unix.ops) (host:=a_host) an_executor command "powershell"
       = (r, an_executor, [])
       /\ Success r = false
       /\ NewWorkDir r = EmptyString
       /\ CurrentWorkDir r = WorkingDir an_executor.
Proof.
  intros command.
  assert (H1 : cd_idiom command) by (right; left; reflexivity).
  assert (H2 : let target := fst (extractCDTarget command) in
               let newDir :=
                 filepath.Clean (Ops:=unix.ops)
                   (if filepath.IsAbs (Ops:=unix.ops) target then target
                    else filepath.Join (Ops:=unix.ops)
                           [WorkingDir an_executor; target]) in
               (exists notExist msg,
                  Stat (Host:=a_host) newDir = StatError notExist msg)
               \/ Stat (Host:=a_host) newDir = StatInfo false)
    by (left; eexists _, _; reflexivity).
  split; [exact H1|]. split; [exact H2|].
  exact (Execute_cd_failure (fp:=unix.ops) (host:=a_host)
           an_executor command "powershell" H1 H2).
Defined.

Lemma Execute_search_no_matches_witness :
  let command := "echo apple | findstr orange" in
  let e1 := validate (host:=a_host) an_executor in
  let ran := Run (Host:=a_host) (command_for e1 command "cmd") (Timeout e1) in
  snd (extractCDTarget command) = false
  /\ deadlineExceeded ran = false
  /\ err ran = Some (ExitError 1 "exit status 1")
  /\ search_command command = true
  /\ exists r,
       Execute (fp:=unix.ops) (host:=a_host) an_executor command "cmd"
       = (r, e1, [command_for e1 command "cmd"])
       /\ Success r = false
       /\ Error r = "No matches found"
       /\ CurrentWorkDir r = WorkingDir e1.
Proof.
  intros command e1 ran.
  assert (H1 : snd (extractCDTarget command) = false) by reflexivity.
  assert (H2 : deadlineExceeded ran = false) by reflexivity.
  assert (H3 : err ran = Some (ExitError 1 "exit status 1")) by reflexivity.
  assert (H4 : search_command command = true) by reflexivity.
  split; [exact H1|]. split; [exact H2|]. split; [exact H3|]. split; [exact H4|].
  exact (Execute_search_no_matches (fp:=unix.ops) (host:=a_host)
           an_executor command "cmd" "exit status 1" H1 H2 H3 H4).
Defined.

(** The search command of the repository's test on a host where it is
    still running at the deadline: the subprocess is killed and exits
    with code 1, the command names [findstr], and the error is the
    timeout message, not "No matches found". *)
Lemma Execute_search_timeout_counterexample :
  let command := "echo apple | findstr orange" in
  let e1 := validate (host:=a_slow_host) an_executor in
  let ran := Run (Host:=a_slow_host) (command_for e1 command "cmd") (Timeout e1) in
  err ran = Some (ExitError 1 "exit status 1")
  /\ search_command command = true
  /\ exists r,
       Execute (fp:=unix.ops) (host:=a_slow_host) an_executor command "cmd"
       = (r, e1, [command_for e1 command "cmd"])
       /\ Success r = false
       /\ Error r = "Command timed out after 30s"
       /\ Error r <> "No matches found".
Proof.
  intros command e1 ran.
  split; [reflexivity|]. split; [reflexivity|].
  eexists. split; [reflexivity|]. simpl.
  split; [reflexivity|]. split; [reflexivity|]. discriminate.
Qed.

End ExecutorExamples.

(** ** The planner *)
Section PlannerProperties.
Import GoStrings planner.
Context {str : Ops} {codec : Codec}.

(** [ParseResponse] fails exactly when both decoding attempts do. *)
Lemma ParseResponse_decode_failure (raw : string) plan1 e1 plan2 e2 :
  Unmarshal (candidate raw) zero_plan = (plan1, Some e1) ->
  Unmarshal (sanitizeJSON (candidate raw)) plan1 = (plan2, Some e2) ->
  ParseResponse raw = Error ("JSON parse error: " +:+ e2).
Proof.
  intros H1 H2. unfold ParseResponse. rewrite H1, H2. reflexivity.
Qed.

Lemma ParseResponse_never_panics (raw : string) : ParseResponse raw <> Panic.
Proof.
  unfold ParseResponse.
  destruct (Unmarshal (candidate raw) zero_plan) as [plan1 [e1|]];
    [|discriminate].
  destruct (Unmarshal (sanitizeJSON (candidate raw)) plan1) as [plan2 [e2|]];
    discriminate.
Qed.

(** After the normalization a command is neither blank nor the word
    "null". *)
Lemma normalize_command (plan : CommandPlan) (c : string) :
  Command (normalize plan) = Some c ->
  TrimSpace c <> EmptyString /\ TrimSpace c <> "null".
Proof.
  unfold normalize. destruct (Command plan) as [c0|] eqn:Hc; [|congruence].
  destruct (String.eqb (TrimSpace c0) "null") eqn:Hn; simpl;
    [discriminate|].
  destruct (String.eqb (TrimSpace c0) EmptyString) eqn:He; simpl; [discriminate|].
  rewrite Hc. intros [= <-].
  apply String.eqb_neq in Hn, He. auto.
Qed.

Lemma normalize_Shell (plan : CommandPlan) : Shell (normalize plan) = Shell plan.
Proof. unfold normalize. repeat case_match; reflexivity. Qed.

Lemma ParseResponse_command (raw : string) (d : CommandPlan) (c : string) :
  ParseResponse raw = Return d -> Command d = Some c ->
  TrimSpace c <> EmptyString /\ TrimSpace c <> "null".
Proof.
  unfold ParseResponse.
  destruct (Unmarshal (candidate raw) zero_plan) as [plan1 [e1|]].
  - destruct (Unmarshal (sanitizeJSON (candidate raw)) plan1) as [plan2 [e2|]];
      [discriminate|].
    intros [= <-]. apply normalize_command.
  - intros [= <-]. apply normalize_command.
Qed.

(** C3: when the model has answered with a text and decoding still fails
    on the extracted candidate and again on the repaired candidate,
    [Plan] returns no error: it returns the chat plan, whose command is
    null and whose response is the raw model text, untrimmed and
    unchanged. *)
Theorem Plan_parse_failure_is_chat (p : Planner) (l : LLM) (userInput raw : string)
    (messages : list ChatMessage) (plan1 plan2 : CommandPlan) (e1 e2 : string) :
  buildMessages p userInput = Some messages ->
  llm p = Some l ->
  infer l messages userInput = inl raw ->
  Unmarshal (candidate raw) zero_plan = (plan1, Some e1) ->
  Unmarshal (sanitizeJSON (candidate raw)) plan1 = (plan2, Some e2) ->
  exists pl,
    Plan p userInput = Return pl
    /\ Command pl = None
    /\ Response pl = raw
    /\ Shell pl = EmptyString
    /\ Reasoning pl = "Could not parse structured output, returning as chat".
Proof.
  intros Hb Hl Hi H1 H2. unfold Plan. rewrite Hb, Hl, Hi.
  rewrite (ParseResponse_decode_failure raw _ _ _ _ H1 H2).
  eexists. split; [reflexivity|]. simpl. auto.
Qed.

(** C2 (amended): a plan that [Plan] returns without error is either the
    chat plan of a model text that could not be parsed, with a null
    command and an empty shell, or comes from a parsed plan [d]: its
    shell is the shell of [d] when that is not empty and the planner's
    default shell otherwise, and its command is null when that of [d]
    is, and otherwise what [sanitizeCommand] has returned (against the
    working directory of the memory, when there is a memory) for the
    command of [d], whose trimmed form is neither empty nor the word
    "null". *)
Theorem Plan_returns (p : Planner) (userInput : string) (pl : CommandPlan) :
  Plan p userInput = Return pl ->
  exists messages l raw,
    buildMessages p userInput = Some messages
    /\ llm p = Some l
    /\ infer l messages userInput = inl raw
    /\ ((exists e, ParseResponse raw = Error e /\ pl = chat_fallback raw)
        \/ (exists d,
              ParseResponse raw = Return d
              /\ Shell pl = (if is_empty (Shell d) then shell p else Shell d)
              /\ match Command d with
                 | None => Command pl = None
                 | Some c =>
                     TrimSpace c <> EmptyString /\ TrimSpace c <> "null"
                     /\ match mem p with
                        | Some m =>
                            exists sanitized,
                              sanitizeCommand c (memory.WorkingDir m) = Some sanitized
                              /\ Command pl = Some sanitized
                        | None => Command pl = Some c
                        end
                 end)).
Proof.
  unfold Plan. intros H.
  destruct (buildMessages p userInput) as [messages|] eqn:Hb; [|discriminate].
  destruct (llm p) as [l|] eqn:Hl; [|discriminate].
  destruct (infer l messages userInput) as [raw|err] eqn:Hi; [|discriminate].
  exists messages, l, raw.
  split; [reflexivity|]. split; [reflexivity|]. split; [exact Hi|].
  destruct (ParseResponse raw) as [d|e|] eqn:HP; [| |discriminate].
  - right. exists d. split; [reflexivity|].
    pose proof (fun c => ParseResponse_command raw d c HP) as Hcmd.
    destruct d as [dc ds dr dre dsafe]; simpl in *.
    destruct (is_empty ds), dc as [c|], (mem p) as [m|]; simpl in *;
      try (destruct (sanitizeCommand c (memory.WorkingDir m)) as [sanitized|];
           [|discriminate]);
      injection H as <-; simpl;
      (split; [reflexivity|]); try reflexivity;
      destruct (Hcmd c eq_refl); eauto.
  - left. exists e. split; [reflexivity|]. congruence.
Qed.

End PlannerProperties.

Section PlannerExamples.
Import GoStrings planner examples.
#[local] Existing Instance ascii.ops.

Lemma Plan_parse_failure_is_chat_witness :
  let p := mockPlanner an_apology in
  let messages :=
    [ {| Role := "user";
         Content := "do something" +:+ nl +:+ nl +:+ "[CWD: /home/u]" |} ] in
  let l := OtherLLM (fun _ => inl an_apology) in
  buildMessages (codec:=json.codec) p "do something" = Some messages
  /\ llm p = Some l
  /\ infer l messages "do something" = inl an_apology
  /\ json.Unmarshal (candidate an_apology) zero_plan
     = (zero_plan, Some "invalid JSON syntax")
  /\ json.Unmarshal (sanitizeJSON (candidate an_apology)) zero_plan
     = (zero_plan, Some "invalid JSON syntax")
  /\ exists pl,
       Plan (codec:=json.codec) p "do something" = Return pl
       /\ Command pl = None
       /\ Response pl = an_apology
       /\ Shell pl = EmptyString
       /\ Reasoning pl = "Could not parse structured output, returning as chat".
Proof.
  intros p messages l.
  assert (H1 : buildMessages (codec:=json.codec) p "do something" = Some messages)
    by reflexivity.
  assert (H0 : llm p = Some l) by reflexivity.
  assert (H2 : infer l messages "do something" = inl an_apology)
    by reflexivity.
  assert (H3 : json.Unmarshal (candidate an_apology) zero_plan
               = (zero_plan, Some "invalid JSON syntax")) by reflexivity.
  assert (H4 : json.Unmarshal (sanitizeJSON (candidate an_apology)) zero_plan
               = (zero_plan, Some "invalid JSON syntax")) by reflexivity.
  split; [exact H1|]. split; [exact H0|]. split; [exact H2|].
  split; [exact H3|]. split; [exact H4|].
  exact (Plan_parse_failure_is_chat (codec:=json.codec) p l "do something" an_apology
           messages zero_plan zero_plan _ _ H1 H0 H2 H3 H4).
Defined.

Lemma Plan_returns_witness :
  let p := mockPlanner a_bash_text in
  Plan (codec:=json.codec) p "open this folder" = Return a_bash_plan
  /\ exists messages l raw,
       buildMessages (codec:=json.codec) p "open this folder" = Some messages
       /\ llm p = Some l
       /\ infer l messages "open this folder" = inl raw
       /\ ((exists e, ParseResponse (codec:=json.codec) raw = Error e
                      /\ a_bash_plan = chat_fallback raw)
           \/ (exists d,
                 ParseResponse (codec:=json.codec) raw = Return d
                 /\ Shell a_bash_plan = (if is_empty (Shell d) then shell p else Shell d)
                 /\ match Command d with
                    | None => Command a_bash_plan = None
                    | Some c =>
                        TrimSpace c <> EmptyString /\ TrimSpace c <> "null"
                        /\ match mem p with
                           | Some m =>
                               exists sanitized,
                                 sanitizeCommand c (memory.WorkingDir m) = Some sanitized
                                 /\ Command a_bash_plan = Some sanitized
                           | None => Command a_bash_plan = Some c
                           end
                    end)).
Proof.
  intros p.
  assert (H : Plan (codec:=json.codec) p "open this folder" = Return a_bash_plan)
    by reflexivity.
  split; [exact H|].
  exact (Plan_returns (codec:=json.codec) p "open this folder" a_bash_plan H).
Defined.

(** The same run against the invariant as the design document states
    it: the plan is returned without error, its command is neither null
    nor a non-empty string, and its shell is neither "powershell" nor
    "cmd". *)
Lemma Plan_invariant_counterexample :
  exists pl,
    Plan (codec:=json.codec) (mockPlanner a_bash_text) "open this folder" = Return pl
    /\ ~ (Command pl = None \/ exists c, Command pl = Some c /\ c <> EmptyString)
    /\ ~ (Shell pl = "powershell" \/ Shell pl = "cmd").
Proof.
  exists a_bash_plan. split; [reflexivity|]. split.
  - intros [H | (c & H & Hne)]; [discriminate|].
    injection H as <-. apply Hne. reflexivity.
  - intros [H | H]; discriminate.
Qed.

(** C7 (a defect of the code): on a model text that writes one backslash
    of a Windows path escaped and the next one bare, the first decoding
    fails, so the repair pass runs; [sanitizeJSON] then doubles not only
    the bare backslash before [F] but also the second backslash of the
    valid escape sequence before [U], so that the valid sequence is not
    left as it was and the repaired text is still rejected; the repair
    pass of the design document, which keeps valid escape sequences,
    yields a text that decodes to the command. *)
Theorem sanitizeJSON_rewrites_valid_escape :
  a_mixed_path_text = object [("command", quoted "cd C:\\Users\Foo")]
  /\ snd (json.Unmarshal a_mixed_path_text zero_plan) = Some "invalid JSON syntax"
  /\ sanitizeJSON a_mixed_path_text
     = object [("command", quoted "cd C:\\\Users\\Foo")]
  /\ design.repair_pass false a_mixed_path_text
     = object [("command", quoted "cd C:\\Users\\Foo")]
  /\ snd (json.Unmarshal (sanitizeJSON a_mixed_path_text) zero_plan)
     = Some "invalid JSON syntax"
  /\ json.Unmarshal (design.repair_pass false a_mixed_path_text) zero_plan
     = (set_Command zero_plan (Some "cd C:\Users\Foo"), None)
  /\ Plan (codec:=json.codec) (mockPlanner a_mixed_path_text) "go to Foo"
     = Return (chat_fallback a_mixed_path_text).
Proof. repeat (split; [reflexivity|]). reflexivity. Qed.

(** The repository's tests of [ExtractJSON] and [ParseResponse]. *)
Example ExtractJSON_repository_tests :
  ExtractJSON ("```json" +:+ nl +:+ object [("command", quoted "mkdir test")]
               +:+ nl +:+ "```")
  = object [("command", quoted "mkdir test")]
  /\ ExtractJSON ("Here is the command:" +:+ nl +:+ object [("command", quoted "dir")])
     = object [("command", quoted "dir")]
  /\ ExtractJSON "Just some text without any JSON" = EmptyString
  /\ ExtractJSON (object [("command", quoted "echo {hello}"); ("safe", "true")])
     = object [("command", quoted "echo {hello}"); ("safe", "true")]
  /\ ExtractJSON EmptyString = EmptyString.
Proof. repeat split. Qed.

Example ParseResponse_repository_tests :
  ParseResponse (codec:=json.codec)
    (object [("command", quoted "mkdir test"); ("shell", quoted "powershell");
             ("response", quoted "Creating folder"); ("reasoning", quoted "test");
             ("safe", "true")])
  = Return {| Command := Some "mkdir test"; Shell := "powershell";
              Response := "Creating folder"; Reasoning := "test"; Safe := true |}
  /\ ParseResponse (codec:=json.codec)
       (object [("command", "null"); ("response", quoted "Hello!");
                ("reasoning", quoted "greeting"); ("safe", "true")])
     = Return {| Command := None; Shell := EmptyString; Response := "Hello!";
                 Reasoning := "greeting"; Safe := true |}
  /\ ParseResponse (codec:=json.codec) "This is not JSON at all"
     = Error "JSON parse error: invalid JSON syntax"
  /\ ParseResponse (codec:=json.codec)
       (object [("command", quoted "null"); ("response", quoted "Hi")])
     = Return {| Command := None; Shell := EmptyString; Response := "Hi";
                 Reasoning := EmptyString; Safe := false |}.
Proof. repeat split. Qed.

(** On the paths of the code's own comment, where every backslash is
    bare, [sanitizeJSON] and the design document's pass agree. *)
Example sanitizeJSON_repairs_bare_backslashes :
  sanitizeJSON (object [("command", quoted "cd C:\Files\Projects")])
  = object [("command", quoted "cd C:\\Files\\Projects")]
  /\ design.repair_pass false (object [("command", quoted "cd C:\Files\Projects")])
     = object [("command", quoted "cd C:\\Files\\Projects")].
Proof. split; reflexivity. Qed.

End PlannerExamples.

(** * Further properties of the code *)

(** ** The classifier: the middle tier, the reason and the command *)
Section CheckerTiers.
Import GoStrings safety.
Context {str : Ops}.

(** The rule [first_match] returns is the first one of the table whose
    text occurs in the command. *)
Lemma first_match_first (lower : string) (ps : list pattern) (q : pattern) :
  first_match lower ps = Some q ->
  exists before after,
    ps = before ++ q :: after
    /\ Contains lower (match_ q) = true
    /\ forall p, In p before -> Contains lower (match_ p) = false.
Proof.
  induction ps as [|p ps IH]; simpl; [discriminate|].
  destruct (Contains lower (match_ p)) eqn:Hp.
  - intros [= <-]. exists [], ps. simpl. tauto.
  - intros H. destruct (IH H) as (before & after & -> & Hq & Hb).
    exists (p :: before), after. split; [reflexivity|]. split; [exact Hq|].
    intros x [<-|Hx]; auto.
Qed.

(** When no blocked rule matches and some confirm rule does, [Check]
    answers [NeedsConfirm], and the reason it gives is that of the first
    confirm rule, in table order, whose text occurs in the lower-cased
    trimmed command. *)
Theorem Check_needs_confirm (c : Checker) (command : string) (p : pattern) :
  (forall b, In b (blockedPatterns c) ->
             Contains (ToLower (TrimSpace command)) (match_ b) = false) ->
  In p (confirmPatterns c) ->
  Contains (ToLower (TrimSpace command)) (match_ p) = true ->
  exists before q after,
    confirmPatterns c = before ++ q :: after
    /\ Contains (ToLower (TrimSpace command)) (match_ q) = true
    /\ (forall x, In x before ->
                  Contains (ToLower (TrimSpace command)) (match_ x) = false)
    /\ Check c command
       = {| level := NeedsConfirm;
            Reason := "⚠️  " +:+ reason q +:+ " — confirm? (y/n)";
            Command := command |}.
Proof.
  intros Hb Hin Hc. unfold Check.
  rewrite (first_match_none _ _ Hb).
  destruct (first_match_found _ _ _ Hin Hc) as [q Hq]. rewrite Hq.
  destruct (first_match_first _ _ _ Hq) as (before & after & Heq & Hm & Hbefore).
  exists before, q, after. auto.
Qed.

(** Whatever the tables and the command, the assessment carries the
    command exactly as it was given (untrimmed, in its own letter
    case), and its reason is empty exactly when the tier is [Safe]. *)
Theorem Check_reason_and_command (c : Checker) (command : string) :
  Command (Check c command) = command
  /\ (Reason (Check c command) = EmptyString <-> level (Check c command) = Safe).
Proof.
  unfold Check.
  destruct (first_match _ (blockedPatterns c)) as [p|].
  - simpl. split; [reflexivity|]. split; discriminate.
  - destruct (first_match _ (confirmPatterns c)) as [p|]; simpl.
    + split; [reflexivity|]. split; discriminate.
    + split; [reflexivity|]. split; reflexivity.
Qed.

End CheckerTiers.

Section CheckerTiersExamples.
Import GoStrings safety.
#[local] Existing Instance ascii.ops.

Lemma Check_needs_confirm_witness :
  let command := "Remove-Item -Path 'TempData' -Recurse -Force" in
  let p := mkPattern "remove-item" "This will delete files or folders" in
  (forall b, In b (blockedPatterns NewChecker) ->
             Contains (ToLower (TrimSpace command)) (match_ b) = false)
  /\ In p (confirmPatterns NewChecker)
  /\ Contains (ToLower (TrimSpace command)) (match_ p) = true
  /\ exists before q after,
       confirmPatterns NewChecker = before ++ q :: after
       /\ Contains (ToLower (TrimSpace command)) (match_ q) = true
       /\ (forall x, In x before ->
                     Contains (ToLower (TrimSpace command)) (match_ x) = false)
       /\ Check NewChecker command
          = {| level := NeedsConfirm;
               Reason := "⚠️  " +:+ reason q +:+ " — confirm? (y/n)";
               Command := command |}.
Proof.
  intros command p.
  assert (Hb : forall b, In b (blockedPatterns NewChecker) ->
             Contains (ToLower (TrimSpace command)) (match_ b) = false).
  { intros b Hin. simpl in Hin.
    repeat (destruct Hin as [<-|Hin]; [reflexivity|]). contradiction. }
  assert (Hin : In p (confirmPatterns NewChecker)) by (simpl; tauto).
  assert (Hc : Contains (ToLower (TrimSpace command)) (match_ p) = true)
    by reflexivity.
  split; [exact Hb|]. split; [exact Hin|]. split; [exact Hc|].
  exact (Check_needs_confirm NewChecker command p Hb Hin Hc).
Defined.

End CheckerTiersExamples.

(** ** The memory: context window, hints and panics *)
Section MemoryWindow.
Import GoStrings memory session.
Context {str : Ops} {fp : filepath.Ops}.

(** [GetContext] panics exactly when the window size is negative (even
    on an empty history); otherwise it returns the working directory
    and the two hints as they are, and as recent exchanges the last
    [MaxExchanges] of the history, or all of it when it is shorter. *)
Theorem GetContext_window (m : Memory) :
  (GetContext m = None <-> (MaxExchanges m < 0)%Z)
  /\ forall ctx, GetContext m = Some ctx ->
       WorkingDirectory ctx = WorkingDir m
       /\ ctx_LastAction ctx = LastAction m
       /\ ctx_LastCreated ctx = LastCreated m
       /\ (exists older, Exchanges m = older ++ RecentExchanges ctx)
       /\ length (RecentExchanges ctx)
          = Nat.min (length (Exchanges m)) (Z.to_nat (MaxExchanges m)).
Proof.
  unfold GetContext. split.
  - destruct (MaxExchanges m <? Z.of_nat (length (Exchanges m)))%Z eqn:Hlt.
    + destruct (MaxExchanges m <? 0)%Z eqn:Hneg.
      * apply Z.ltb_lt in Hneg. tauto.
      * apply Z.ltb_ge in Hneg. split; [discriminate | lia].
    + apply Z.ltb_ge in Hlt. split; [discriminate | lia].
  - intros ctx.
    destruct (MaxExchanges m <? Z.of_nat (length (Exchanges m)))%Z eqn:Hlt.
    + destruct (MaxExchanges m <? 0)%Z eqn:Hneg; [discriminate|].
      apply Z.ltb_lt in Hlt. apply Z.ltb_ge in Hneg.
      intros [= <-]. simpl. repeat split.
      * eexists. symmetry. apply take_drop.
      * rewrite length_drop. lia.
    + apply Z.ltb_ge in Hlt. intros [= <-]. simpl. repeat split.
      * exists []. reflexivity.
      * lia.
Qed.

(** [ExtractNameFromCommand] panics exactly when the lower-cased command
    holds "-name" so far to the right that fewer than five bytes of the
    command itself follow that offset (lower-casing has made the text
    longer). *)
Lemma ExtractNameFromCommand_panics (cmd : string) :
  ExtractNameFromCommand cmd = None
  <-> Index (ToLower cmd) "-name" <> (-1)%Z
      /\ (len cmd < Index (ToLower cmd) "-name" + 5)%Z.
Proof.
  unfold ExtractNameFromCommand.
  destruct (Index (ToLower cmd) "-name" =? -1)%Z eqn:Hi; simpl.
  - apply Z.eqb_eq in Hi.
    split; [|tauto]. repeat case_match; discriminate.
  - apply Z.eqb_neq in Hi.
    destruct (Index (ToLower cmd) "-name" + 5 <=? len cmd)%Z eqn:Hr.
    + apply Z.leb_le in Hr. split; [discriminate | lia].
    + apply Z.leb_gt in Hr. split; auto.
Qed.

(** [RecordExchange] panics in exactly two cases: the command names
    new-item or mkdir and [ExtractNameFromCommand] slices it beyond its
    end; or the window size is negative and the call takes the number
    of exchanges above the compaction threshold. *)
Theorem RecordExchange_panics (m : Memory) (d : os.Disk) (c : call) :
  record m d c = None
  <-> (is_empty (call_command c) = false
       /\ (Contains (ToLower (call_command c)) "new-item" = true
           \/ Contains (ToLower (call_command c)) "mkdir" = true)
       /\ Index (ToLower (call_command c)) "-name" <> (-1)%Z
       /\ (len (call_command c) < Index (ToLower (call_command c)) "-name" + 5)%Z)
      \/ ((MaxExchanges m < 0)%Z
          /\ (CompactAfter m < Z.of_nat (length (Exchanges m)) + 1)%Z).
Proof.
  assert (Hcreates :
    negb (is_empty (call_command c))
    && (Contains (ToLower (call_command c)) "new-item"
        || Contains (ToLower (call_command c)) "mkdir") = true
    /\ ExtractNameFromCommand (call_command c) = None
    <-> is_empty (call_command c) = false
        /\ (Contains (ToLower (call_command c)) "new-item" = true
            \/ Contains (ToLower (call_command c)) "mkdir" = true)
        /\ Index (ToLower (call_command c)) "-name" <> (-1)%Z
        /\ (len (call_command c) < Index (ToLower (call_command c)) "-name" + 5)%Z).
  { rewrite ExtractNameFromCommand_panics, andb_true_iff, orb_true_iff,
      negb_true_iff. tauto. }
  destruct (record_unfold m d c)
    as [(H1 & H2 & ->) | (Hno & m3 & HE & _ & _ & HM & HC & _ & _ & ->)].
  - split; [intros _; left; apply Hcreates; auto | reflexivity].
  - rewrite Hcreates in Hno.
    assert (Hlen : Z.of_nat (length (Exchanges m3))
                   = (Z.of_nat (length (Exchanges m)) + 1)%Z)
      by (rewrite HE, length_app; simpl; lia).
    rewrite HC, Hlen.
    destruct (CompactAfter m <? Z.of_nat (length (Exchanges m)) + 1)%Z eqn:Hca.
    + apply Z.ltb_lt in Hca. unfold compact. rewrite HM, Hlen.
      destruct (Z.of_nat (length (Exchanges m)) + 1 <=? MaxExchanges m)%Z eqn:Hle.
      * apply Z.leb_le in Hle. split; [discriminate|].
        intros [H | H]; [tauto | lia].
      * apply Z.leb_gt in Hle.
        destruct (MaxExchanges m <? 0)%Z eqn:Hneg.
        -- apply Z.ltb_lt in Hneg. tauto.
        -- apply Z.ltb_ge in Hneg.
           destruct (os.append_file _ _ _); (split; [discriminate|]);
             intros [H | H]; tauto || lia.
    + apply Z.ltb_ge in Hca. split; [discriminate|].
      intros [H | H]; [tauto | lia].
Qed.

(** A call of [RecordExchange] that returns sets the last-action hint
    to the response and keeps the working directory, the data directory
    and the two sizes; it leaves the last-created hint as it was when
    the command is empty or names none of new-item, mkdir and explorer;
    and with a window of at least one exchange, the exchange just
    recorded is the last one in memory. *)
Theorem RecordExchange_hints (m m' : Memory) (d d' : os.Disk) (c : call) :
  record m d c = Some (m', d') ->
  LastAction m' = call_response c
  /\ WorkingDir m' = WorkingDir m
  /\ dataDir m' = dataDir m
  /\ MaxExchanges m' = MaxExchanges m
  /\ CompactAfter m' = CompactAfter m
  /\ (is_empty (call_command c) = true
      \/ (Contains (ToLower (call_command c)) "new-item" = false
          /\ Contains (ToLower (call_command c)) "mkdir" = false
          /\ Contains (ToLower (call_command c)) "explorer" = false) ->
      LastCreated m' = LastCreated m)
  /\ ((1 <= MaxExchanges m)%Z ->
      List.last (Exchanges m') (exchange_of c) = exchange_of c
      /\ Exchanges m' <> []).
Proof.
  destruct (record_unfold m d c)
    as [(_ & _ & ->) | (_ & m3 & HE & HD & HW & HM & HC & HA & HL & ->)];
    [discriminate|].
  assert (Hlast : forall k, (k < length (Exchanges m3))%nat ->
            List.last (drop k (Exchanges m3)) (exchange_of c) = exchange_of c
            /\ drop k (Exchanges m3) <> []).
  { intros k Hk. rewrite HE in *. rewrite length_app in Hk. simpl in Hk.
    rewrite drop_app_le by lia. split.
    - apply last_last.
    - intros Hnil. apply (f_equal length) in Hnil.
      rewrite length_app in Hnil. simpl in Hnil. lia. }
  assert (Hkeep : (1 <= MaxExchanges m)%Z ->
            List.last (Exchanges m3) (exchange_of c) = exchange_of c
            /\ Exchanges m3 <> []).
  { intros _. apply (Hlast 0%nat). rewrite HE, length_app. simpl. lia. }
  destruct (CompactAfter m3 <? Z.of_nat (length (Exchanges m3)))%Z.
  - unfold compact.
    destruct (Z.of_nat (length (Exchanges m3)) <=? MaxExchanges m3)%Z eqn:Hle.
    + intros [= <- <-]. repeat split; auto; apply Hkeep; assumption.
    + apply Z.leb_gt in Hle.
      destruct (MaxExchanges m3 <? 0)%Z eqn:Hneg; [discriminate|].
      apply Z.ltb_ge in Hneg.
      assert (Hcut : (1 <= MaxExchanges m)%Z ->
                List.last (drop (Z.to_nat (Z.of_nat (length (Exchanges m3))
                                           - MaxExchanges m3)) (Exchanges m3))
                  (exchange_of c) = exchange_of c
                /\ drop (Z.to_nat (Z.of_nat (length (Exchanges m3))
                                   - MaxExchanges m3)) (Exchanges m3) <> []).
      { intros H1. apply Hlast. lia. }
      destruct (os.append_file _ _ _) as [d1|]; intros [= <- <-]; simpl;
        repeat split; auto; apply Hcut; assumption.
  - intros [= <- <-]. repeat split; auto; apply Hkeep; assumption.
Qed.

End MemoryWindow.

Section MemoryWindowExamples.
Import GoStrings memory session examples.
#[local] Existing Instance ascii.ops.

Lemma RecordExchange_hints_witness :
  let m' := set_LastAction
              (set_Exchanges fresh_memory [exchange_of a_call]) "response" in
  record (fp:=unix.ops) fresh_memory writable_disk a_call = Some (m', writable_disk)
  /\ LastAction m' = call_response a_call
  /\ WorkingDir m' = WorkingDir fresh_memory
  /\ dataDir m' = dataDir fresh_memory
  /\ MaxExchanges m' = MaxExchanges fresh_memory
  /\ CompactAfter m' = CompactAfter fresh_memory
  /\ (is_empty (call_command a_call) = true
      \/ (Contains (ToLower (call_command a_call)) "new-item" = false
          /\ Contains (ToLower (call_command a_call)) "mkdir" = false
          /\ Contains (ToLower (call_command a_call)) "explorer" = false) ->
      LastCreated m' = LastCreated fresh_memory)
  /\ ((1 <= MaxExchanges fresh_memory)%Z ->
      List.last (Exchanges m') (exchange_of a_call) = exchange_of a_call
      /\ Exchanges m' <> []).
Proof.
  intros m'.
  assert (H : record (fp:=unix.ops) fresh_memory writable_disk a_call
              = Some (m', writable_disk)) by reflexivity.
  split; [exact H|].
  exact (RecordExchange_hints (fp:=unix.ops) fresh_memory m'
           writable_disk writable_disk a_call H).
Defined.

(** A command that creates a folder sets the last-created hint to the
    folder's name, as the repository's memory-tracking test expects. *)
Example RecordExchange_tracks_created_folder :
  let c := {| call_now := morning; call_now' := morning;
              call_userInput := "create a folder called MyProject";
              call_command := "New-Item -ItemType Directory -Name 'MyProject'";
              call_result := EmptyString;
              call_response := "Created folder MyProject" |} in
  exists m' d',
    record (fp:=unix.ops) fresh_memory writable_disk c = Some (m', d')
    /\ LastCreated m' = "MyProject"
    /\ LastAction m' = "Created folder MyProject".
Proof. eexists _, _. split; [reflexivity|]. split; reflexivity. Qed.

End MemoryWindowExamples.

(** ** The planner: errors and the message sequence *)
Section PlannerMessages.
Import GoStrings planner conversation.
Context {str : Ops} {codec : Codec}.

(** The only error [Plan] returns is that of the inference call, wrapped:
    [Plan] returns an error with message [msg] exactly when the
    messages could be built, the planner has a model, and the model's
    call returned an error [err] with [msg] being "LLM inference
    failed: " followed by [err].  A parse error is never returned. *)
Theorem Plan_error_is_inference_error (p : Planner) (userInput msg : string) :
  Plan p userInput = Error msg
  <-> exists messages l err,
        buildMessages p userInput = Some messages
        /\ llm p = Some l
        /\ infer l messages userInput = inr err
        /\ msg = "LLM inference failed: " +:+ err.
Proof.
  unfold Plan. split.
  - destruct (buildMessages p userInput) as [messages|]; [|discriminate].
    destruct (llm p) as [l|]; [|discriminate].
    destruct (infer l messages userInput) as [raw|err] eqn:Hi.
    + destruct (ParseResponse raw); repeat case_match; discriminate.
    + intros [= <-]. exists messages, l, err. auto.
  - intros (messages & l & err & -> & -> & -> & ->). reflexivity.
Qed.

(** [Plan] panics in exactly three cases: [GetContext] panics, the
    planner holds a nil model, or the model's text was parsed into a
    plan with a command, the planner has a memory, and
    [sanitizeCommand] panics on that command.  Parsing and normalizing
    never panic. *)
Theorem Plan_panics (p : Planner) (userInput : string) :
  Plan p userInput = Panic
  <-> buildMessages p userInput = None
      \/ llm p = None
      \/ exists messages l raw d c m,
           buildMessages p userInput = Some messages
           /\ llm p = Some l
           /\ infer l messages userInput = inl raw
           /\ ParseResponse raw = Return d
           /\ Command d = Some c
           /\ mem p = Some m
           /\ sanitizeCommand c (memory.WorkingDir m) = None.
Proof.
  unfold Plan. split.
  - destruct (buildMessages p userInput) as [messages|]; [|auto].
    destruct (llm p) as [l|]; [|auto].
    destruct (infer l messages userInput) as [raw|err] eqn:Hi; [|discriminate].
    pose proof (ParseResponse_never_panics raw) as Hnp.
    destruct (ParseResponse raw) as [d| |] eqn:HP; [|discriminate|congruence].
    intros H. right. right.
    destruct d as [dc ds dr dre dsafe]. simpl in H.
    destruct dc as [c|], (mem p) as [m|];
      try (destruct (is_empty ds); discriminate).
    eexists messages, l, raw, _, c, m.
    split; [reflexivity|]. split; [reflexivity|]. split; [exact Hi|].
    split; [exact HP|]. split; [reflexivity|]. split; [reflexivity|].
    destruct (is_empty ds); simpl in H;
      destruct (sanitizeCommand c (memory.WorkingDir m));
      try discriminate; reflexivity.
  - intros [H | [H | (messages & l & raw & d & c & m & -> & -> & -> & -> & Hc & Hm & Hs)]].
    + rewrite H. reflexivity.
    + destruct (buildMessages p userInput); [rewrite H|]; reflexivity.
    + destruct d as [dc ds dr dre dsafe]. simpl in Hc. subst dc.
      rewrite Hm. simpl. destruct (is_empty ds); simpl; rewrite Hs; reflexivity.
Qed.

Lemma prefix_app_cancel (a b c : string) :
  String.prefix (a +:+ b) (a +:+ c) = String.prefix b c.
Proof.
  induction a as [|x a IH]; simpl; [reflexivity|].
  destruct (Ascii.ascii_dec x x); [exact IH | congruence].
Qed.

Lemma history_message_Role (ex : memory.Exchange) :
  Role (history_message ex) = "assistant".
Proof. unfold history_message. destruct (Marshal _); reflexivity. Qed.

Lemma history_roles (exchanges : list memory.Exchange) :
  map Role
    (flat_map (fun ex =>
       [ {| Role := "user"; Content := memory.UserInput ex |};
         history_message ex ]) exchanges)
  = turn_roles (length exchanges).
Proof.
  induction exchanges as [|ex rest IH]; simpl; [reflexivity|].
  rewrite history_message_Role, IH. reflexivity.
Qed.

(** The message sequence [buildMessages] returns for a planner with a
    memory: the last two exchanges of the context (all of them when
    there are fewer) are replayed in their order, each as a user turn
    with the exchange's input followed by an assistant turn with the
    JSON encoding of its plan (command null when the exchange had
    none, shell "powershell", the response, reasoning "executed", safe
    true); the sequence ends with one user turn that carries the input
    and the working directory; so it has 1, 3 or 5 messages.  Without a
    memory it is the input alone. *)
Theorem buildMessages_shape (p : Planner) (userInput : string)
    (messages : list ChatMessage) :
  buildMessages p userInput = Some messages ->
  match mem p with
  | None => messages = [ {| Role := "user"; Content := userInput |} ]
  | Some m =>
      exists ctx older replayed,
        memory.GetContext m = Some ctx
        /\ memory.RecentExchanges ctx = older ++ replayed
        /\ length replayed = Nat.min 2 (length (memory.RecentExchanges ctx))
        /\ messages
           = flat_map (fun ex =>
               [ {| Role := "user"; Content := memory.UserInput ex |};
                 history_message ex ]) replayed
             ++ [ {| Role := "user";
                     Content := userInput +:+ nl +:+ nl +:+ "[CWD: "
                                +:+ ReplaceAll (memory.WorkingDirectory ctx) "\" "/"
                                +:+ "]" |} ]
        /\ (forall ex json,
              Marshal {| hp_Command := if is_empty (memory.Command ex) then None
                                       else Some (memory.Command ex);
                         hp_Shell := "powershell";
                         hp_Response := memory.Response ex;
                         hp_Reasoning := "executed";
                         hp_Safe := true |} = inl json ->
              history_message ex = {| Role := "assistant"; Content := json |})
        /\ (forall ex, Role (history_message ex) = "assistant")
        /\ map Role messages = turn_roles (length replayed) ++ ["user"]
        /\ (length messages = 2 * length replayed + 1)%nat
  end.
Proof.
  unfold buildMessages. destruct (mem p) as [m|]; [|intros [= <-]; reflexivity].
  destruct (memory.GetContext m) as [ctx|]; [|discriminate].
  intros [= <-].
  set (recent := memory.RecentExchanges ctx).
  set (replayed := if (2 <? length recent)%nat
                   then drop (length recent - 2) recent else recent).
  exists ctx, (if (2 <? length recent)%nat
               then take (length recent - 2) recent else []), replayed.
  split; [reflexivity|].
  assert (Hlen : length replayed = Nat.min 2 (length recent)).
  { subst replayed. destruct (2 <? length recent)%nat eqn:H2.
    - apply Nat.ltb_lt in H2. rewrite length_drop. lia.
    - apply Nat.ltb_ge in H2. lia. }
  split.
  { subst replayed. destruct (2 <? length recent)%nat;
      [symmetry; apply take_drop | reflexivity]. }
  split; [exact Hlen|]. split; [reflexivity|]. split.
  { intros ex json HM. unfold history_message. rewrite HM. reflexivity. }
  split; [apply history_message_Role|].
  assert (Hroles : map Role
            (flat_map (fun ex =>
               [ {| Role := "user"; Content := memory.UserInput ex |};
                 history_message ex ]) replayed ++
             [ {| Role := "user";
                  Content := userInput +:+ nl +:+ nl +:+ "[CWD: "
                    +:+ ReplaceAll (memory.WorkingDirectory ctx) "\" "/"
                    +:+ "]" |} ])
           = turn_roles (length replayed) ++ ["user"]).
  { rewrite map_app, history_roles. reflexivity. }
  split; [exact Hroles|].
  apply (f_equal (@length _)) in Hroles.
  rewrite length_map in Hroles. rewrite Hroles, length_app. simpl.
  clear. induction (length replayed) as [|n IH]; simpl; lia.
Qed.

End PlannerMessages.

(** ** The executor: what every result carries *)
Section ExecutorResults.
Import GoStrings executor.
Context {str : Ops} {fp : filepath.Ops} {host : Host}.

Lemma Execute_not_cd (e : Executor) (command shell : string) :
  snd (extractCDTarget command) = false ->
  exists r,
    Execute e command shell
    = (r, validate e, [command_for (validate e) command shell])
    /\ CurrentWorkDir r = WorkingDir (validate e)
    /\ NewWorkDir r = EmptyString
    /\ (Success r = true -> Error r = EmptyString).
Proof.
  intros Hcd. unfold Execute.
  destruct (extractCDTarget command) as [target ok]. simpl in Hcd. subst ok.
  destruct (deadlineExceeded _).
  - eexists. split; [reflexivity|]. simpl. split; [reflexivity|].
    split; [reflexivity|]. discriminate.
  - destruct (err _) as [runErr|].
    + match goal with |- context [if ?b then _ else _] => destruct b end;
        (eexists; split; [reflexivity|]; simpl;
         split; [reflexivity|]; split; [reflexivity|]; discriminate).
    + eexists. split; [reflexivity|]. simpl. auto.
Qed.

Lemma validate_Timeout (e : Executor) : Timeout (validate e) = Timeout e.
Proof.
  unfold validate. destruct (Stat (WorkingDir e)) as [|[|] msg]; try reflexivity.
  destruct Getwd; reflexivity.
Qed.

(** Whatever the command, the result's [CurrentWorkDir] is the working
    directory the executor holds after the call, and the call leaves
    the executor's timeout as it was. *)
Theorem Execute_reports_working_directory (e : Executor) (command shell : string) :
  CurrentWorkDir (fst (fst (Execute e command shell)))
  = WorkingDir (snd (fst (Execute e command shell)))
  /\ Timeout (snd (fst (Execute e command shell))) = Timeout e.
Proof.
  destruct (snd (extractCDTarget command)) eqn:Hcd.
  - rewrite (Execute_cd e command shell Hcd). simpl. unfold handleCD.
    destruct (Stat _) as [[|]|ne msg]; simpl; auto.
  - destruct (Execute_not_cd e command shell Hcd) as (r & -> & Hcur & _).
    simpl. split; [exact Hcur | apply validate_Timeout].
Qed.

(** [Execute] starts a subprocess exactly when the command is not a
    directory change, and then exactly one: the shell chosen by
    [command_for], in the working directory left by the validation,
    with the command text as its last argument, unchanged. *)
Theorem Execute_starts_one_subprocess (e : Executor) (command shell : string) :
  (cd_idiom command -> snd (Execute e command shell) = [])
  /\ (~ cd_idiom command ->
      exists cmd,
        snd (Execute e command shell) = [cmd]
        /\ Dir cmd = WorkingDir (snd (fst (Execute e command shell)))
        /\ List.last (Args cmd) EmptyString = command
        /\ (Path cmd = "cmd" /\ String.eqb (ToLower shell) "cmd" = true
            \/ Path cmd = "powershell" /\ String.eqb (ToLower shell) "cmd" = false)).
Proof.
  split.
  - intros Hcd. apply extractCDTarget_idiom in Hcd.
    rewrite (Execute_cd e command shell Hcd). reflexivity.
  - intros Hcd.
    assert (Hn : snd (extractCDTarget command) = false).
    { destruct (snd (extractCDTarget command)) eqn:H; [|reflexivity].
      apply extractCDTarget_idiom in H. contradiction. }
    destruct (Execute_not_cd e command shell Hn) as (r & -> & _).
    eexists. split; [reflexivity|]. simpl. unfold command_for.
    destruct (String.eqb (ToLower shell) "cmd"); simpl; auto.
Qed.

(** A result that reports success has an empty error; and a result has
    a [NewWorkDir] only when the command was a directory change that
    succeeded, in which case it is the [CurrentWorkDir]. *)
Theorem Execute_success_shape (e : Executor) (command shell : string) :
  let r := fst (fst (Execute e command shell)) in
  (Success r = true -> Error r = EmptyString)
  /\ (NewWorkDir r <> EmptyString ->
      cd_idiom command /\ Success r = true /\ NewWorkDir r = CurrentWorkDir r).
Proof.
  simpl. destruct (snd (extractCDTarget command)) eqn:Hcd.
  - rewrite (Execute_cd e command shell Hcd). simpl.
    apply extractCDTarget_idiom in Hcd. unfold handleCD.
    destruct (Stat _) as [[|]|ne msg]; simpl;
      (split; [auto || discriminate | intros H; auto; try congruence]).
  - destruct (Execute_not_cd e command shell Hcd) as (r & -> & _ & Hnew & Hs).
    simpl. split; [exact Hs | congruence].
Qed.

(** When the deadline has passed by the time the run returns, the
    result is a failure with the timeout message and no output,
    whatever the subprocess printed and however it exited. *)
Theorem Execute_timeout (e : Executor) (command shell : string) :
  snd (extractCDTarget command) = false ->
  let e1 := validate e in
  deadlineExceeded (Run (command_for e1 command shell) (Timeout e1)) = true ->
  Execute e command shell
  = ({| Success := false; Output := EmptyString;
        Error := "Command timed out after " +:+ Duration_String (Timeout e1);
        Duration := Since; NewWorkDir := EmptyString;
        CurrentWorkDir := WorkingDir e1 |},
     e1, [command_for e1 command shell]).
Proof.
  intros Hcd e1 Hdl. unfold Execute.
  destruct (extractCDTarget command) as [target ok]. simpl in Hcd. subst ok.
  fold e1. rewrite Hdl. reflexivity.
Qed.

(** When the stored working directory no longer exists and the process
    has a current directory, a command that is not a directory change
    is run in the process's current directory, which the executor
    holds afterwards and the result reports. *)
Theorem Execute_deleted_working_directory (e : Executor) (command shell : string)
    (msg cwd : string) :
  snd (extractCDTarget command) = false ->
  Stat (WorkingDir e) = StatError true msg ->
  Getwd = inl cwd ->
  exists r cmd,
    Execute e command shell = (r, SetWorkingDir e cwd, [cmd])
    /\ Dir cmd = cwd
    /\ CurrentWorkDir r = cwd.
Proof.
  intros Hcd Hstat Hwd.
  destruct (Execute_not_cd e command shell Hcd) as (r & HE & Hcur & _).
  assert (Hv : validate e = SetWorkingDir e cwd)
    by (unfold validate; rewrite Hstat, Hwd; reflexivity).
  rewrite Hv in HE, Hcur.
  exists r, (command_for (SetWorkingDir e cwd) command shell).
  split; [exact HE|]. split; [|exact Hcur].
  unfold command_for. destruct (String.eqb _ _); reflexivity.
Qed.

(** The executor's working directory changes only in two ways: by a
    directory change that succeeded, or because the stored directory no
    longer exists when another command is run. *)
Theorem Execute_changes_directory_only (e : Executor) (command shell : string) :
  WorkingDir (snd (fst (Execute e command shell))) <> WorkingDir e ->
  (cd_idiom command /\ Success (fst (fst (Execute e command shell))) = true)
  \/ (~ cd_idiom command /\ exists msg, Stat (WorkingDir e) = StatError true msg).
Proof.
  destruct (snd (extractCDTarget command)) eqn:Hcd.
  - rewrite (Execute_cd e command shell Hcd). simpl.
    apply extractCDTarget_idiom in Hcd. unfold handleCD.
    destruct (Stat _) as [[|]|ne msg]; simpl; intros H; try congruence.
    left. auto.
  - destruct (Execute_not_cd e command shell Hcd) as (r & -> & _).
    simpl. intros H. right. split.
    + intros Hi. apply extractCDTarget_idiom in Hi. congruence.
    + unfold validate in H.
      destruct (Stat (WorkingDir e)) as [|[|] msg]; try congruence. eauto.
Qed.

End ExecutorResults.

(** ** The repair pass only adds backslashes *)
Section RepairPass.
Import GoStrings planner text.

Lemma sanitize_loop_keeps (prev : option ascii) (inString : bool) (s : string) :
  remove_byte "\" (sanitize_loop prev inString s) = remove_byte "\" s
  /\ (String.length s <= String.length (sanitize_loop prev inString s))%nat
  /\ (mem_byte "\" s = false -> sanitize_loop prev inString s = s).
Proof.
  revert prev inString. induction s as [|ch rest IH]; intros prev inString.
  - simpl. auto.
  - cbn [sanitize_loop].
    destruct (Ascii.eqb ch "034" && _) eqn:Hq.
    + destruct (IH (Some ch) (negb inString)) as (H1 & H2 & H3).
      cbn [remove_byte String.length mem_byte]. rewrite H1.
      split; [reflexivity|]. split; [lia|].
      intros H. apply orb_false_iff in H as [_ H]. rewrite (H3 H). reflexivity.
    + destruct (IH (Some ch) inString) as (H1 & H2 & H3).
      destruct rest as [|next rest'].
      * simpl. destruct (Ascii.eqb ch "\"); auto.
      * cbn [String.length] in H2.
        destruct (inString && Ascii.eqb ch "\" && negb (validEscapes next)) eqn:Hinv.
        -- apply andb_true_iff in Hinv as [Hinv _].
           apply andb_true_iff in Hinv as [_ Hb].
           change ("\\" +:+ ?x) with (String "\" (String "\" x)).
           cbn [remove_byte String.length mem_byte].
           rewrite Hb. change (Ascii.eqb "\" "\") with true. cbn iota.
           split; [exact H1|]. split; [lia|].
           rewrite Ascii.eqb_sym in Hb. rewrite Hb. discriminate.
        -- cbn [remove_byte String.length mem_byte]. rewrite H1.
           split; [reflexivity|]. split; [lia|].
           intros H. apply orb_false_iff in H as [_ H]. rewrite (H3 H). reflexivity.
Qed.

(** [sanitizeJSON] only ever adds backslashes: with the backslashes
    taken out, its result and its argument are the same text; the
    result is never shorter than the argument; and a text without
    backslashes is returned as it is. *)
Theorem sanitizeJSON_adds_backslashes_only (s : string) :
  remove_byte "\" (sanitizeJSON s) = remove_byte "\" s
  /\ (String.length s <= String.length (sanitizeJSON s))%nat
  /\ (mem_byte "\" s = false -> sanitizeJSON s = s).
Proof. apply sanitize_loop_keeps. Qed.

End RepairPass.

(** ** The terminal output has no carriage return left *)
Section TerminalOutput.
Import GoStrings executor text.

Lemma index_any_single (c : ascii) (s : string) : forall i,
  index_any_from i s (String c EmptyString) = None <-> mem_byte c s = false.
Proof.
  induction s as [|d r IH]; intros i; simpl; [tauto|].
  rewrite orb_false_r, (Ascii.eqb_sym c d).
  destruct (Ascii.eqb d c); simpl; [split; discriminate | apply IH].
Qed.

Lemma ContainsAny_single (c : ascii) (s : string) :
  ContainsAny s (String c EmptyString) = negb (negb (mem_byte c s)).
Proof.
  unfold ContainsAny, IndexAny.
  destruct (index_any_from 0 s (String c EmptyString)) as [j|] eqn:H.
  - destruct (mem_byte c s) eqn:Hm.
    + simpl. apply Z.leb_le. lia.
    + apply (proj2 (index_any_single c s 0)) in Hm. rewrite Hm in H. discriminate.
  - apply (proj1 (index_any_single c s 0)) in H. rewrite H. reflexivity.
Qed.

Lemma last_index_after (c : ascii) (s : string) : forall i,
  match last_index_byte_from i s c with
  | None => mem_byte c s = false
  | Some j => (i <= j)%nat /\ mem_byte c (drop_bytes (S (j - i)) s) = false
  end.
Proof.
  induction s as [|d r IH]; intros i; simpl; [reflexivity|].
  specialize (IH (S i)).
  destruct (last_index_byte_from (S i) r c) as [j|].
  - destruct IH as [Hle Hm]. split; [lia|].
    replace (j - i)%nat with (S (j - S i)) by lia. exact Hm.
  - rewrite (Ascii.eqb_sym c d). destruct (Ascii.eqb d c); simpl.
    + split; [lia|]. rewrite Nat.sub_diag. simpl. exact IH.
    + exact IH.
Qed.

(** The text after the last carriage return of a line. *)
Lemma cut_line_clean (line : string) :
  mem_byte "013"
    (if negb (LastIndexByte line "013" =? -1)%Z
     then slice_from line (LastIndexByte line "013" + 1) else line) = false.
Proof.
  unfold LastIndexByte, slice_from.
  pose proof (last_index_after "013" line 0) as H.
  destruct (last_index_byte_from 0 line "013") as [j|].
  - destruct H as [_ H]. rewrite Nat.sub_0_r in H.
    replace (Z.of_nat j =? -1)%Z with false by (symmetry; apply Z.eqb_neq; lia).
    simpl negb. cbv iota.
    replace (Z.to_nat (Z.of_nat j + 1)) with (S j) by lia. exact H.
  - simpl. exact H.
Qed.

Lemma Join_clean (c : ascii) (sep : string) (parts : list string) :
  mem_byte c sep = false ->
  Forall (fun part => mem_byte c part = false) parts ->
  mem_byte c (GoStrings.Join parts sep) = false.
Proof.
  intros Hsep. induction 1 as [|p ps Hp Hps IH]; [reflexivity|].
  destruct ps as [|q ps]; [exact Hp|].
  change (GoStrings.Join (p :: q :: ps) sep)
    with (p +:+ sep +:+ GoStrings.Join (q :: ps) sep).
  rewrite !mem_byte_append, Hp, Hsep, IH. reflexivity.
Qed.

Lemma replace_absent (c : ascii) (old' new : string) : forall fuel s,
  mem_byte c s = false ->
  replace_nonempty fuel s (String c old') new = s.
Proof.
  induction fuel as [|fuel IH]; intros s Hs; [reflexivity|].
  destruct s as [|d r]; [reflexivity|].
  simpl in Hs. apply orb_false_iff in Hs as [Hd Hr].
  cbn [replace_nonempty String.prefix].
  destruct (Ascii.ascii_dec c d) as [->|_].
  - rewrite Ascii.eqb_refl in Hd. discriminate.
  - rewrite (IH r Hr). reflexivity.
Qed.

(** [cleanTerminalOutput] returns a text without carriage returns; a
    text that has none is returned as it is; so cleaning a second time
    changes nothing. *)
Theorem cleanTerminalOutput_no_carriage_return (s : string) :
  mem_byte "013" (cleanTerminalOutput s) = false
  /\ (mem_byte "013" s = false -> cleanTerminalOutput s = s)
  /\ cleanTerminalOutput (cleanTerminalOutput s) = cleanTerminalOutput s.
Proof.
  assert (Hclean : forall t, mem_byte "013" (cleanTerminalOutput t) = false).
  { intros t. unfold cleanTerminalOutput.
    set (t1 := ReplaceAll t (cr +:+ nl) nl).
    change cr with (String "013" EmptyString).
    rewrite ContainsAny_single.
    destruct (mem_byte "013" t1) eqn:Hm; simpl; [|exact Hm].
    apply Join_clean; [reflexivity|].
    apply Forall_map. apply Forall_forall. intros line _. apply cut_line_clean. }
  assert (Hid : forall t, mem_byte "013" t = false -> cleanTerminalOutput t = t).
  { intros t Ht. unfold cleanTerminalOutput.
    assert (H1 : ReplaceAll t (cr +:+ nl) nl = t)
      by (unfold ReplaceAll; change (cr +:+ nl) with (String "013" nl);
          cbn [is_empty]; apply replace_absent; exact Ht).
    rewrite H1. change cr with (String "013" EmptyString).
    rewrite ContainsAny_single, Ht. reflexivity. }
  split; [apply Hclean|]. split; [apply Hid|]. apply Hid, Hclean.
Qed.

End TerminalOutput.

(** ** Stripping the working directory from a command *)
Section SanitizeCommand.
Import GoStrings planner text.
Context {str : Ops}.

Lemma replace_removes (old : string) : forall fuel s,
  (String.length (replace_nonempty fuel s old EmptyString) <= String.length s)%nat.
Proof.
  induction fuel as [|fuel IH]; intros s; [simpl; lia|].
  cbn [replace_nonempty].
  destruct (String.prefix old s).
  - app_step. specialize (IH (drop_bytes (String.length old) s)).
    rewrite drop_bytes_length in IH. lia.
  - destruct s as [|c r]; [simpl; lia|]. specialize (IH r). simpl. lia.
Qed.

Lemma intersperse_nothing (s : string) : intersperse_before s EmptyString = s.
Proof. induction s as [|c r IH]; simpl; app_step; [reflexivity | f_equal; exact IH]. Qed.

Lemma ReplaceAll_removes (s old : string) :
  (String.length (ReplaceAll s old EmptyString) <= String.length s)%nat.
Proof.
  unfold ReplaceAll. destruct (is_empty old).
  - rewrite intersperse_nothing. lia.
  - apply replace_removes.
Qed.

Lemma strip_ci_removes (result pre r : string) :
  strip_ci result pre = Some r -> (String.length r <= String.length result)%nat.
Proof.
  unfold strip_ci, slice_to, slice_from.
  destruct (0 <=? Index (ToLower result) (ToLower pre))%Z eqn:Hi;
    [|intros [= <-]; lia].
  apply Z.leb_le in Hi.
  destruct (Index (ToLower result) (ToLower pre) + len pre <=? len result)%Z eqn:Hr;
    [|discriminate].
  apply Z.leb_le in Hr. intros [= <-].
  rewrite append_length, take_bytes_length, drop_bytes_length. unfold len in *. lia.
Qed.

Lemma fold_left_removes (f : string -> string -> string) :
  (forall r v, (String.length (f r v) <= String.length r)%nat) ->
  forall vs r, (String.length (fold_left f vs r) <= String.length r)%nat.
Proof.
  intros Hf. induction vs as [|v vs IH]; intros r; simpl; [lia|].
  specialize (IH (f r v)). specialize (Hf r v). lia.
Qed.

Lemma fold_strip_none (vs : list string) :
  fold_left (fun r pre => match r with Some r => strip_ci r pre | None => None end)
    vs None = None.
Proof. induction vs as [|v vs IH]; simpl; [reflexivity | exact IH]. Qed.

Lemma fold_strip_removes (vs : list string) : forall result r,
  fold_left (fun r pre => match r with Some r => strip_ci r pre | None => None end)
    vs (Some result) = Some r ->
  (String.length r <= String.length result)%nat.
Proof.
  induction vs as [|v vs IH]; intros result r; simpl.
  - intros [= <-]. lia.
  - destruct (strip_ci result v) as [r1|] eqn:Hs.
    + intros H. apply IH in H. apply strip_ci_removes in Hs. lia.
    + rewrite fold_strip_none. discriminate.
Qed.

Lemma ascii_only_take (n : nat) (s : string) :
  ascii_only s = true -> ascii_only (take_bytes n s) = true.
Proof.
  revert s. induction n as [|n IH]; intros [|c r]; simpl; try reflexivity.
  intros H. apply andb_true_iff in H as [H1 H2]. rewrite H1. simpl. auto.
Qed.

Lemma ascii_only_drop (n : nat) (s : string) :
  ascii_only s = true -> ascii_only (drop_bytes n s) = true.
Proof.
  revert s. induction n as [|n IH]; intros [|c r]; simpl; try tauto.
  intros H. apply andb_true_iff in H as [H1 H2]. auto.
Qed.

Lemma ascii_only_replace (old new : string) :
  ascii_only new = true ->
  forall fuel s, ascii_only s = true ->
    ascii_only (replace_nonempty fuel s old new) = true.
Proof.
  intros Hnew. induction fuel as [|fuel IH]; intros s Hs; [exact Hs|].
  cbn [replace_nonempty]. destruct (String.prefix old s).
  - rewrite ascii_only_append, Hnew. simpl. apply IH, ascii_only_drop, Hs.
  - destruct s as [|c r]; [reflexivity|]. simpl in *.
    apply andb_true_iff in Hs as [H1 H2]. rewrite H1. simpl. auto.
Qed.

Lemma ascii_only_ReplaceAll (s old new : string) :
  ascii_only s = true -> ascii_only new = true ->
  ascii_only (ReplaceAll s old new) = true.
Proof.
  intros Hs Hnew. unfold ReplaceAll. destruct (is_empty old).
  - induction s as [|c r IH]; simpl; [exact Hnew|].
    simpl in Hs. apply andb_true_iff in Hs as [H1 H2].
    rewrite ascii_only_append, Hnew. simpl. rewrite H1. simpl. auto.
  - apply ascii_only_replace; assumption.
Qed.

Lemma ascii_only_variants (workingDir v : string) :
  ascii_only workingDir = true -> In v (variants workingDir) ->
  ascii_only v = true.
Proof.
  intros Hwd. unfold variants. simpl.
  intros [<-|[<-|[<-|[<-|[<-|[]]]]]];
    rewrite ?ascii_only_append, ?andb_true_r;
    repeat apply ascii_only_ReplaceAll; try exact Hwd; try reflexivity;
    rewrite ?Hwd; try reflexivity;
    rewrite ascii_only_ReplaceAll; auto.
Qed.

Section OnAsciiTexts.
Context {laws : Laws str}.

Lemma ToLower_ascii_text (s : string) :
  ascii_only s = true -> ToLower s = lower_bytes s.
Proof.
  intros H. rewrite <- (append_empty_r s) at 1.
  rewrite (ToLower_ascii s EmptyString H), ToLower_empty. apply append_empty_r.
Qed.

Lemma strip_ci_ascii (result pre : string) :
  ascii_only result = true -> ascii_only pre = true ->
  exists r, strip_ci result pre = Some r /\ ascii_only r = true.
Proof.
  intros Hr Hp. unfold strip_ci.
  rewrite (ToLower_ascii_text result Hr), (ToLower_ascii_text pre Hp).
  destruct (0 <=? Index (lower_bytes result) (lower_bytes pre))%Z eqn:Hi;
    [|eauto].
  apply Z.leb_le in Hi.
  pose proof (Index_in_range _ _ Hi) as Hin.
  unfold len in Hin. rewrite !lower_bytes_length in Hin.
  replace (Index (lower_bytes result) (lower_bytes pre) + len pre
           <=? len result)%Z with true by (symmetry; apply Z.leb_le; exact Hin).
  eexists. split; [reflexivity|].
  unfold slice_to, slice_from.
  rewrite ascii_only_append, ascii_only_take, ascii_only_drop by exact Hr.
  reflexivity.
Qed.

Lemma fold_strip_ascii (vs : list string) : forall result,
  ascii_only result = true ->
  (forall v, In v vs -> ascii_only v = true) ->
  exists r,
    fold_left (fun r pre => match r with Some r => strip_ci r pre | None => None end)
      vs (Some result) = Some r.
Proof.
  induction vs as [|v vs IH]; intros result Hr Hvs; simpl; [eauto|].
  assert (Hv : ascii_only v = true) by (apply Hvs; left; reflexivity).
  destruct (strip_ci_ascii result v Hr Hv) as (r1 & -> & Hr1).
  apply IH; [exact Hr1|]. intros x Hx. apply Hvs. right. exact Hx.
Qed.

(** [sanitizeCommand] only removes text: what it returns is never longer
    than the command.  It returns for every command and working
    directory of ASCII bytes; on other texts it can panic, when
    lower-casing changes the length of the text. *)
Theorem sanitizeCommand_only_removes (command workingDir : string) :
  (forall r, sanitizeCommand command workingDir = Some r ->
             (String.length r <= String.length command)%nat)
  /\ (ascii_only command = true -> ascii_only workingDir = true ->
      exists r, sanitizeCommand command workingDir = Some r).
Proof.
  unfold sanitizeCommand. destruct (is_empty workingDir).
  - split; [intros r [= <-]; lia | eauto].
  - split.
    + intros r H. apply fold_strip_removes in H.
      etransitivity; [exact H|].
      apply (fold_left_removes (fun r pre => ReplaceAll r pre EmptyString)).
      intros r0 v. apply ReplaceAll_removes.
    + intros Hc Hwd. apply fold_strip_ascii.
      * assert (H : forall vs r, ascii_only r = true ->
                  ascii_only (fold_left (fun r pre => ReplaceAll r pre EmptyString)
                                vs r) = true).
        { induction vs as [|v vs IH]; intros r Hr; simpl; [exact Hr|].
          apply IH, ascii_only_ReplaceAll; [exact Hr | reflexivity]. }
        apply H, Hc.
      * intros v Hv. apply (ascii_only_variants workingDir v Hwd Hv).
Qed.

End OnAsciiTexts.

Lemma Contains_index (s sub : string) :
  Contains s sub = false <-> index_from 0 s sub = None.
Proof.
  unfold Contains, Index. destruct (index_from 0 s sub) as [j|].
  - split; [|discriminate]. intros H. apply Z.leb_gt in H. lia.
  - split; reflexivity.
Qed.

Lemma index_from_shift (s sub : string) : forall i k,
  index_from i s sub = None -> index_from k s sub = None.
Proof.
  induction s as [|c r IH]; intros i k.
  - destruct sub; simpl; intros; [discriminate | reflexivity].
  - change (index_from i (String c r) sub)
      with (if String.prefix sub (String c r) then Some i
            else index_from (S i) r sub).
    change (index_from k (String c r) sub)
      with (if String.prefix sub (String c r) then Some k
            else index_from (S k) r sub).
    destruct (String.prefix sub (String c r)); [discriminate|]. apply IH.
Qed.

Lemma replace_not_found (old new : string) : forall fuel s i,
  index_from i s old = None -> replace_nonempty fuel s old new = s.
Proof.
  induction fuel as [|fuel IH]; intros s i H; [reflexivity|].
  cbn [replace_nonempty]. destruct s as [|c r].
  - destruct old; simpl in *; [discriminate | reflexivity].
  - change (index_from i (String c r) old)
      with (if String.prefix old (String c r) then Some i
            else index_from (S i) r old) in H.
    destruct (String.prefix old (String c r)); [discriminate|].
    rewrite (IH r (S i) H). reflexivity.
Qed.

Lemma Contains_empty (s : string) : Contains s EmptyString = true.
Proof. unfold Contains, Index. destruct s; reflexivity. Qed.

Lemma strip_unrelated (command v : string) :
  Contains command v = false ->
  Contains (ToLower command) (ToLower v) = false ->
  ReplaceAll command v EmptyString = command /\ strip_ci command v = Some command.
Proof.
  intros H H'. split.
  - unfold ReplaceAll. destruct (is_empty v) eqn:He.
    + apply intersperse_nothing.
    + apply Contains_index in H. eapply replace_not_found. exact H.
  - unfold strip_ci. unfold Contains in H'. rewrite H'. reflexivity.
Qed.

(** A command that holds none of the five forms of the working
    directory [sanitizeCommand] looks for, neither as they are written
    nor, once both are in lower case, in another letter case, is
    returned as it is. *)
Theorem sanitizeCommand_unrelated (command workingDir : string) :
  (forall v, In v (variants workingDir) ->
             Contains command v = false
             /\ Contains (ToLower command) (ToLower v) = false) ->
  sanitizeCommand command workingDir = Some command.
Proof.
  intros H. unfold sanitizeCommand. destruct (is_empty workingDir); [reflexivity|].
  assert (H1 : forall vs, (forall v, In v vs -> In v (variants workingDir)) ->
             fold_left (fun r pre => ReplaceAll r pre EmptyString) vs command = command).
  { induction vs as [|v vs IH]; intros Hin; simpl; [reflexivity|].
    destruct (H v (Hin v (or_introl eq_refl))) as [Ha Hb].
    rewrite (proj1 (strip_unrelated command v Ha Hb)).
    apply IH. intros x Hx. apply Hin. right. exact Hx. }
  assert (H2 : forall vs, (forall v, In v vs -> In v (variants workingDir)) ->
             fold_left (fun r pre => match r with
                                     | Some r => strip_ci r pre
                                     | None => None
                                     end) vs (Some command) = Some command).
  { induction vs as [|v vs IH]; intros Hin; simpl; [reflexivity|].
    destruct (H v (Hin v (or_introl eq_refl))) as [Ha Hb].
    rewrite (proj2 (strip_unrelated command v Ha Hb)).
    apply IH. intros x Hx. apply Hin. right. exact Hx. }
  rewrite H1 by auto. apply H2. auto.
Qed.

Lemma replace_byte (a b : ascii) : forall fuel s,
  (String.length s < fuel)%nat ->
  replace_nonempty fuel s (String a EmptyString) (String b EmptyString)
  = map_bytes (fun c => if Ascii.eqb c a then b else c) s.
Proof.
  induction fuel as [|fuel IH]; intros s Hf; [lia|].
  destruct s as [|c r]; [reflexivity|].
  cbn [replace_nonempty String.prefix map_bytes]. simpl in Hf.
  destruct (Ascii.ascii_dec a c) as [<-|Hne].
  - rewrite prefix_empty, Ascii.eqb_refl. app_step.
    cbn [drop_bytes String.length]. rewrite IH by lia. reflexivity.
  - assert (Hc : Ascii.eqb c a = false) by (apply Ascii.eqb_neq; congruence).
    rewrite Hc, IH by lia. reflexivity.
Qed.

Lemma map_bytes_without (a b : ascii) (s : string) :
  a <> b -> mem_byte a (map_bytes (fun c => if Ascii.eqb c a then b else c) s) = false.
Proof.
  intros Hab. induction s as [|c r IH]; simpl; [reflexivity|].
  rewrite IH, orb_false_r. destruct (Ascii.eqb c a) eqn:Hc.
  - apply Ascii.eqb_neq. exact Hab.
  - rewrite Ascii.eqb_sym. exact Hc.
Qed.

Section WithCodec.
Context {codec : Codec}.

(** The last message [buildMessages] builds for a planner with a memory
    is the user turn for the current input, annotated with the memory's
    working directory in which every backslash has become a forward
    slash; the annotation holds no backslash from the directory. *)
Theorem buildMessages_cwd_forward_slashes (p : Planner) (m : memory.Memory)
    (userInput : string) (messages : list ChatMessage) :
  mem p = Some m ->
  buildMessages p userInput = Some messages ->
  let cwd := map_bytes (fun c => if Ascii.eqb c "\" then "/"%char else c)
               (memory.WorkingDir m) in
  mem_byte "\" cwd = false
  /\ String.length cwd = String.length (memory.WorkingDir m)
  /\ exists history,
       messages
       = history ++ [ {| Role := "user";
                         Content := userInput +:+ nl +:+ nl +:+ "[CWD: "
                                    +:+ cwd +:+ "]" |} ].
Proof.
  intros Hm. unfold buildMessages. rewrite Hm.
  destruct (memory.GetContext m) as [ctx|] eqn:Hctx; [|discriminate].
  assert (Hwd : memory.WorkingDirectory ctx = memory.WorkingDir m).
  { unfold memory.GetContext in Hctx. repeat case_match; try discriminate;
      injection Hctx as <-; reflexivity. }
  intros [= <-]. split; [apply map_bytes_without; discriminate|]. split.
  - clear. induction (memory.WorkingDir m) as [|c r IH]; simpl; [reflexivity|].
    rewrite IH. reflexivity.
  - eexists. rewrite Hwd. unfold ReplaceAll. cbn [is_empty].
    rewrite replace_byte by lia. reflexivity.
Qed.

End WithCodec.

End SanitizeCommand.

(** ** The first balanced brace span *)
Section ExtractSpan.
Import GoStrings planner text.

Lemma index_byte_found (c : ascii) (s : string) : forall i,
  match index_from i s (String c EmptyString) with
  | Some j =>
      exists pre rest,
        s = pre +:+ String c rest
        /\ mem_byte c pre = false
        /\ j = (i + String.length pre)%nat
  | None => mem_byte c s = false
  end.
Proof.
  induction s as [|d r IH]; intros i; [reflexivity|].
  change (index_from i (String d r) (String c EmptyString))
    with (if String.prefix (String c EmptyString) (String d r) then Some i
          else index_from (S i) r (String c EmptyString)).
  cbn [String.prefix]. destruct (Ascii.ascii_dec c d) as [<-|Hne].
  - rewrite prefix_empty. exists EmptyString, r. simpl. split; [reflexivity|].
    split; [reflexivity | lia].
  - assert (Hcd : Ascii.eqb c d = false) by (apply Ascii.eqb_neq; exact Hne).
    specialize (IH (S i)).
    destruct (index_from (S i) r (String c EmptyString)) as [j|].
    + destruct IH as (pre & rest & -> & Hpre & ->).
      exists (String d pre), rest. simpl. rewrite Hcd, Hpre.
      split; [reflexivity|]. split; [reflexivity | lia].
    + simpl. rewrite Hcd, IH. reflexivity.
Qed.

Lemma count_byte_append (c : ascii) (a b : string) :
  count_byte c (a +:+ b) = (count_byte c a + count_byte c b)%nat.
Proof.
  induction a as [|x a IH]; app_step; simpl; [reflexivity | rewrite IH; lia].
Qed.

(** What the loop of [ExtractJSON] returns: the bytes up to the brace
    that closes the depth it started with. *)
Lemma extract_loop_span (s : string) : forall d i n,
  extract_loop d i s = Some n ->
  exists body,
    n = (i + String.length body + 1)%nat
    /\ take_bytes (n - i) s = body +:+ "}"
    /\ (d + Z.of_nat (count_byte "{" body) - Z.of_nat (count_byte "}" body) = 1)%Z
    /\ extract_loop d i (body +:+ "}") = Some n.
Proof.
  induction s as [|ch rest IH]; intros d i n; [discriminate|].
  cbn [extract_loop].
  destruct (Ascii.eqb ch "{") eqn:Ho; [|destruct (Ascii.eqb ch "}") eqn:Hc].
  - intros H. destruct (IH _ _ _ H) as (body & -> & Ht & Hb & Hs).
    exists (String ch body). split; [simpl; lia|].
    replace (S i + String.length body + 1 - S i)%nat
      with (String.length body + 1)%nat in Ht by lia.
    replace (S i + String.length body + 1 - i)%nat
      with (S (String.length body + 1)) by lia.
    app_step. cbn [take_bytes extract_loop count_byte]. rewrite Ho, Ht.
    split; [reflexivity|].
    assert (Hne : Ascii.eqb ch "}" = false)
      by (apply Ascii.eqb_eq in Ho; subst ch; reflexivity).
    rewrite Hne. split; [lia | exact Hs].
  - destruct (d - 1 =? 0)%Z eqn:Hd.
    + intros [= <-]. exists EmptyString. apply Z.eqb_eq in Hd.
      split; [simpl; lia|].
      replace (S i - i)%nat with 1%nat by lia.
      apply Ascii.eqb_eq in Hc. subst ch. simpl. rewrite Hd.
      split; [reflexivity|]. split; [lia | reflexivity].
    + intros H. destruct (IH _ _ _ H) as (body & -> & Ht & Hb & Hs).
      exists (String ch body). split; [simpl; lia|].
      replace (S i + String.length body + 1 - S i)%nat
        with (String.length body + 1)%nat in Ht by lia.
      replace (S i + String.length body + 1 - i)%nat
        with (S (String.length body + 1)) by lia.
      app_step. cbn [take_bytes extract_loop count_byte].
      rewrite Ho, Hc, Hd, Ht. split; [reflexivity|]. split; [lia | exact Hs].
  - intros H. destruct (IH _ _ _ H) as (body & -> & Ht & Hb & Hs).
    exists (String ch body). split; [simpl; lia|].
    replace (S i + String.length body + 1 - S i)%nat
      with (String.length body + 1)%nat in Ht by lia.
    replace (S i + String.length body + 1 - i)%nat
      with (S (String.length body + 1)) by lia.
    app_step. cbn [take_bytes extract_loop count_byte].
    rewrite Ho, Hc, Ht. split; [reflexivity|]. split; [lia | exact Hs].
Qed.

Lemma take_bytes_all (s : string) : take_bytes (String.length s) s = s.
Proof. induction s as [|c r IH]; simpl; [reflexivity | rewrite IH; reflexivity]. Qed.

(** What [ExtractJSON] returns for every text, and why. *)
Lemma ExtractJSON_cases (s : string) :
  (ExtractJSON s = EmptyString)
  \/ exists pre body post,
       s = pre +:+ ExtractJSON s +:+ post
       /\ mem_byte "{" pre = false
       /\ ExtractJSON s = "{" +:+ body +:+ "}"
       /\ count_byte "{" body = count_byte "}" body
       /\ extract_loop 1 1 (body +:+ "}") = Some (String.length body + 2)%nat.
Proof.
  unfold ExtractJSON, Index, slice_from.
  pose proof (index_byte_found "{" s 0) as Hi.
  destruct (index_from 0 s "{") as [j|]; [|left; reflexivity].
  destruct Hi as (pre & rest & -> & Hpre & ->).
  replace (Z.of_nat (0 + String.length pre) =? -1)%Z with false
    by (symmetry; apply Z.eqb_neq; lia).
  replace (Z.to_nat (Z.of_nat (0 + String.length pre))) with (String.length pre)
    by lia.
  rewrite drop_bytes_append.
  destruct (extract_loop 0 0 (String "{" rest)) as [n|] eqn:He; [|left; reflexivity].
  right. cbn [extract_loop] in He. change (Ascii.eqb "{" "{") with true in He.
  cbv iota in He. change (0 + 1)%Z with 1%Z in He.
  destruct (extract_loop_span rest 1 1 n He) as (body & -> & Ht & Hb & Hs).
  replace (1 + String.length body + 1 - 1)%nat
    with (String.length body + 1)%nat in Ht by lia.
  assert (Hr : take_bytes (1 + String.length body + 1) (String "{" rest)
               = "{" +:+ body +:+ "}").
  { replace (1 + String.length body + 1)%nat with (S (String.length body + 1)) by lia.
    cbn [take_bytes]. rewrite Ht. reflexivity. }
  rewrite Hr. exists pre, body, (drop_bytes (1 + String.length body + 1) (String "{" rest)).
  split.
  - rewrite <- Hr, take_drop_bytes. reflexivity.
  - split; [exact Hpre|]. split; [reflexivity|]. split; [lia|].
    rewrite Hs. f_equal. lia.
Qed.

(** [ExtractJSON] returns the empty string for a text without an opening
    brace.  What it returns otherwise, when it is not empty, is a part
    of the text that begins at its first opening brace and ends with a
    closing brace, and in which the two kinds of brace are equal in
    number.  Extracting from what was extracted gives it back. *)
Theorem ExtractJSON_first_balanced_span (s : string) :
  (mem_byte "{" s = false -> ExtractJSON s = EmptyString)
  /\ (ExtractJSON s <> EmptyString ->
      exists pre body post,
        s = pre +:+ ExtractJSON s +:+ post
        /\ mem_byte "{" pre = false
        /\ ExtractJSON s = "{" +:+ body +:+ "}"
        /\ count_byte "{" (ExtractJSON s) = count_byte "}" (ExtractJSON s))
  /\ ExtractJSON (ExtractJSON s) = ExtractJSON s.
Proof.
  split; [|split].
  - intros Hno. unfold ExtractJSON, Index.
    pose proof (index_byte_found "{" s 0) as Hi.
    destruct (index_from 0 s "{") as [j|]; [|reflexivity].
    destruct Hi as (pre & rest & -> & _ & _).
    rewrite mem_byte_append in Hno. simpl in Hno.
    rewrite orb_true_r in Hno. discriminate.
  - intros Hne. destruct (ExtractJSON_cases s) as [He | (pre & body & post & H1 & H2 & H3 & H4 & _)];
      [contradiction|].
    exists pre, body, post. split; [exact H1|]. split; [exact H2|].
    split; [exact H3|]. rewrite H3.
    change ("{" +:+ body +:+ "}") with (String "{" (body +:+ "}")).
    cbn [count_byte]. rewrite !count_byte_append. simpl. lia.
  - destruct (ExtractJSON_cases s) as [-> | (pre & body & post & _ & _ & H3 & _ & Hs)];
      [reflexivity|].
    rewrite H3. change ("{" +:+ body +:+ "}") with (String "{" (body +:+ "}")).
    unfold ExtractJSON, Index, slice_from.
    change (index_from 0 (String "{" (body +:+ "}")) "{")
      with (if String.prefix "{" (String "{" (body +:+ "}")) then Some 0%nat
            else index_from 1 (body +:+ "}") "{").
    cbn [String.prefix]. destruct (Ascii.ascii_dec "{" "{"); [|congruence].
    rewrite prefix_empty. change (Z.of_nat 0) with 0%Z.
    change (0 =? -1)%Z with false. change (Z.to_nat 0) with 0%nat.
    cbv iota. cbn [drop_bytes extract_loop].
    change (Ascii.eqb "{" "{") with true. cbv iota. change (0 + 1)%Z with 1%Z.
    rewrite Hs.
    replace (String.length body + 2)%nat
      with (String.length (String "{" (body +:+ "}")))
      by (simpl; rewrite append_length; simpl; lia).
    apply take_bytes_all.
Qed.

(** Before the loop of [ExtractJSON] returns, the depth has stayed
    above zero. *)
Lemma extract_loop_minimal (s : string) : forall d i n k,
  extract_loop d i s = Some n ->
  (1 <= d)%Z ->
  (k < n - i)%nat ->
  (1 <= d + Z.of_nat (count_byte "{" (take_bytes k s))
        - Z.of_nat (count_byte "}" (take_bytes k s)))%Z.
Proof.
  induction s as [|ch rest IH]; intros d i n k; [discriminate|].
  cbn [extract_loop]. destruct k as [|k]; [simpl; lia|].
  cbn [take_bytes count_byte].
  destruct (Ascii.eqb ch "{") eqn:Ho; [|destruct (Ascii.eqb ch "}") eqn:Hc].
  - intros H Hd Hk.
    assert (Hne : Ascii.eqb ch "}" = false)
      by (apply Ascii.eqb_eq in Ho; subst ch; reflexivity).
    rewrite Hne. specialize (IH (d + 1)%Z (S i) n k H). lia.
  - destruct (d - 1 =? 0)%Z eqn:Hz.
    + intros [= <-] _ Hk. lia.
    + apply Z.eqb_neq in Hz. intros H Hd Hk.
      specialize (IH (d - 1)%Z (S i) n k H). lia.
  - intros H Hd Hk. specialize (IH d (S i) n k H). lia.
Qed.

(** The span [ExtractJSON] returns is the shortest one: in every part
    of it that begins at its opening brace and stops before its end,
    there are more opening braces than closing ones. *)
Theorem ExtractJSON_shortest_span (s : string) (k : nat) :
  (0 < k < String.length (ExtractJSON s))%nat ->
  (count_byte "}" (take_bytes k (ExtractJSON s))
   < count_byte "{" (take_bytes k (ExtractJSON s)))%nat.
Proof.
  destruct (ExtractJSON_cases s) as [-> | (pre & body & post & _ & _ & -> & _ & Hs)];
    [simpl; lia|].
  change ("{" +:+ body +:+ "}") with (String "{" (body +:+ "}")).
  cbn [String.length]. rewrite append_length. simpl String.length.
  intros Hk. destruct k as [|k]; [lia|].
  cbn [take_bytes count_byte]. change (Ascii.eqb "{" "{") with true.
  change (Ascii.eqb "{" "}") with false.
  pose proof (extract_loop_minimal (body +:+ "}") 1 1
                (String.length body + 2) k Hs) as Hmin.
  cbv iota. specialize (Hmin ltac:(lia) ltac:(lia)). lia.
Qed.

End ExtractSpan.

Section ExtractSpanExamples.
Import GoStrings planner text examples.
#[local] Existing Instance ascii.ops.

Lemma ExtractJSON_shortest_span_witness :
  let s := "Here: " +:+ object [("command", quoted "echo {hello}")] +:+ " done" in
  (0 < 10 < String.length (ExtractJSON s))%nat
  /\ (count_byte "}" (take_bytes 10 (ExtractJSON s))
      < count_byte "{" (take_bytes 10 (ExtractJSON s)))%nat.
Proof.
  intros s.
  assert (H : (0 < 10 < String.length (ExtractJSON s))%nat) by (vm_compute; lia).
  split; [exact H|].
  exact (ExtractJSON_shortest_span s 10 H).
Defined.

(** A closing brace inside a string ends the span early: the text of a
    command that prints a closing brace is cut before its end, is not
    JSON any more, and [Plan] answers with the chat plan. *)
Example ExtractJSON_cuts_at_brace_in_string :
  let raw := object [("command", quoted "echo }"); ("response", quoted "ok")] in
  ExtractJSON raw = "{" +:+ quoted "command" +:+ ":" +:+ dquote +:+ "echo }"
  /\ Plan (codec:=json.codec) (mockPlanner raw) "print a brace"
     = Return (chat_fallback raw).
Proof. split; reflexivity. Qed.

End ExtractSpanExamples.

(** ** Directory-change targets *)
Section ChangeDirectoryTargets.
Import GoStrings executor text.
Context {str : Ops}.

(** A path argument that, once trimmed, is a text between two single
    quotes or between two double quotes loses exactly that pair of
    quotes. *)
Theorem cleanPathArg_unquotes (x s : string) (q : ascii) :
  q = "'"%char \/ q = "034"%char ->
  TrimSpace x = String q (s +:+ String q EmptyString) ->
  cleanPathArg x = s.
Proof.
  intros Hq Hx. unfold cleanPathArg. rewrite Hx.
  set (S' := String q (s +:+ String q EmptyString)).
  assert (Hlen : len S' = (Z.of_nat (String.length s) + 2)%Z).
  { unfold len, S'. simpl. rewrite append_length. simpl. lia. }
  assert (Hlast : slice_from S' (len S' - 1) = String q EmptyString).
  { unfold slice_from. rewrite Hlen.
    replace (Z.to_nat (Z.of_nat (String.length s) + 2 - 1))
      with (S (String.length s)) by lia.
    unfold S'. cbn [drop_bytes]. apply drop_bytes_append. }
  assert (Hmid : slice S' 1 (len S' - 1) = s).
  { unfold slice. rewrite Hlen.
    replace (Z.to_nat (Z.of_nat (String.length s) + 2 - 1 - 1))
      with (String.length s) by lia.
    unfold S'. change (Z.to_nat 1) with 1%nat. cbn [drop_bytes].
    apply take_bytes_append. }
  assert (Hshape : exists c r, s +:+ String q EmptyString = String c r).
  { destruct s as [|c r]; app_step; eauto. }
  destruct Hshape as (c & r & Hcr).
  unfold S' in *. rewrite Hcr in *. rewrite Hlast, Hmid.
  destruct Hq as [-> | ->]; reflexivity.
Qed.

Lemma keyword_length (kw low : string) :
  lower_bytes kw = low -> String.length kw = String.length low.
Proof. intros <-. symmetry. apply lower_bytes_length. Qed.

Lemma keyword_ascii (kw low : string) :
  lower_bytes kw = low -> ascii_only low = true -> ascii_only kw = true.
Proof. intros <-. rewrite ascii_only_lower_bytes. tauto. Qed.

Section KeywordLaws.
Context {laws : Laws str}.

(** The keyword of a directory change is recognized in any letter case,
    and the target is taken from the command as written: when the
    trimmed command is a keyword followed by a rest, with the keyword
    spelling "cd " or "sl " in capital or small ASCII letters, the
    target is the cleaned rest; with "set-location ", it is the cleaned
    rest after an optional "-path " (in any case) has been dropped. *)
Theorem extractCDTarget_keyword (command kw rest : string) :
  TrimSpace command = kw +:+ rest ->
  (lower_bytes kw = "cd " \/ lower_bytes kw = "sl " ->
   extractCDTarget command = (cleanPathArg rest, true))
  /\ (lower_bytes kw = "set-location " ->
      extractCDTarget command
      = (cleanPathArg
           (if HasPrefix (ToLower (TrimSpace rest)) "-path "
            then TrimSpace (slice_from (TrimSpace rest) 6)
            else TrimSpace rest), true)).
Proof.
  intros Hc. unfold extractCDTarget. rewrite Hc.
  split.
  - intros [Hk | Hk];
      rewrite (ToLower_ascii kw rest (keyword_ascii _ _ Hk eq_refl)), Hk;
      pose proof (keyword_length _ _ Hk) as Hl; simpl in Hl.
    + unfold HasPrefix at 1. rewrite (prefix_append "cd " (ToLower rest)).
      unfold slice_from. change (Z.to_nat 3) with 3%nat. rewrite <- Hl.
      rewrite drop_bytes_append. reflexivity.
    + unfold HasPrefix. app_step. simpl String.prefix.
      destruct (ToLower rest) as [|c r]; unfold slice_from;
        change (Z.to_nat 3) with 3%nat; rewrite <- Hl, drop_bytes_append;
        reflexivity.
  - intros Hk.
    rewrite (ToLower_ascii kw rest (keyword_ascii _ _ Hk eq_refl)), Hk.
    pose proof (keyword_length _ _ Hk) as Hl. simpl in Hl.
    assert (Hcd : HasPrefix ("set-location " +:+ ToLower rest) "cd " = false)
      by reflexivity.
    rewrite Hcd. unfold HasPrefix at 1.
    rewrite (prefix_append "set-location " (ToLower rest)).
    assert (Hs : slice_from (kw +:+ rest) 13 = rest).
    { unfold slice_from. change (Z.to_nat 13) with 13%nat. rewrite <- Hl.
      apply drop_bytes_append. }
    rewrite !Hs.
    destruct (HasPrefix (ToLower (TrimSpace rest)) "-path "); reflexivity.
Qed.

End KeywordLaws.

End ChangeDirectoryTargets.

Section ChangeDirectoryExamples.
Import GoStrings executor text.
#[local] Existing Instance ascii.ops.

Lemma cleanPathArg_unquotes_witness :
  ("'"%char = "'"%char \/ "'"%char = "034"%char)
  /\ TrimSpace "  'My Documents'  " = String "'" ("My Documents" +:+ String "'" EmptyString)
  /\ cleanPathArg "  'My Documents'  " = "My Documents".
Proof.
  assert (H1 : "'"%char = "'"%char \/ "'"%char = "034"%char) by (left; reflexivity).
  assert (H2 : TrimSpace "  'My Documents'  "
               = String "'" ("My Documents" +:+ String "'" EmptyString))
    by reflexivity.
  split; [exact H1|]. split; [exact H2|].
  exact (cleanPathArg_unquotes "  'My Documents'  " "My Documents" "'" H1 H2).
Defined.

Lemma extractCDTarget_keyword_witness :
  TrimSpace "  Set-Location -Path 'C:\Temp'  " = "Set-Location " +:+ "-Path 'C:\Temp'"
  /\ (lower_bytes "Set-Location " = "cd " \/ lower_bytes "Set-Location " = "sl " ->
      extractCDTarget "  Set-Location -Path 'C:\Temp'  "
      = (cleanPathArg "-Path 'C:\Temp'", true))
  /\ (lower_bytes "Set-Location " = "set-location " ->
      extractCDTarget "  Set-Location -Path 'C:\Temp'  "
      = (cleanPathArg
           (if HasPrefix (ToLower (TrimSpace "-Path 'C:\Temp'")) "-path "
            then TrimSpace (slice_from (TrimSpace "-Path 'C:\Temp'") 6)
            else TrimSpace "-Path 'C:\Temp'"), true))
  /\ extractCDTarget "  Set-Location -Path 'C:\Temp'  " = ("C:\Temp", true).
Proof.
  assert (H : TrimSpace "  Set-Location -Path 'C:\Temp'  "
              = "Set-Location " +:+ "-Path 'C:\Temp'") by reflexivity.
  split; [exact H|].
  pose proof (extractCDTarget_keyword (laws:=ascii_laws)
                "  Set-Location -Path 'C:\Temp'  " "Set-Location "
                "-Path 'C:\Temp'" H) as [H1 H2].
  split; [exact H1|]. split; [exact H2|]. reflexivity.
Defined.

End ChangeDirectoryExamples.

(** ** The classifier on a command inside a longer one *)
Section CheckWrapped.
Import GoStrings safety text.

Lemma prefix_decompose (p s : string) :
  String.prefix p s = true -> exists b, s = p +:+ b.
Proof.
  revert s. induction p as [|x p IH]; intros s H.
  - exists s. reflexivity.
  - destruct s as [|y s]; [discriminate|]. cbn [String.prefix] in H.
    destruct (Ascii.ascii_dec x y) as [->|]; [|discriminate].
    destruct (IH s H) as [b ->]. exists b. reflexivity.
Qed.

Lemma index_from_infix (p s : string) : forall i j,
  index_from i s p = Some j -> exists a b, s = a +:+ p +:+ b.
Proof.
  induction s as [|c r IH]; intros i j.
  - destruct p; simpl; [|discriminate]. intros _. exists EmptyString, EmptyString.
    reflexivity.
  - change (index_from i (String c r) p)
      with (if String.prefix p (String c r) then Some i
            else index_from (S i) r p).
    destruct (String.prefix p (String c r)) eqn:Hp.
    + intros _. destruct (prefix_decompose _ _ Hp) as [b Hb].
      exists EmptyString, b. exact Hb.
    + intros H. destruct (IH _ _ H) as (a & b & ->).
      exists (String c a), b. reflexivity.
Qed.

Lemma index_from_prefix (p s : string) (i : nat) :
  String.prefix p s = true -> index_from i s p = Some i.
Proof. intros H. destruct s; cbn [index_from]; rewrite H; reflexivity. Qed.

Lemma infix_index_from (p b : string) (a : string) : forall i,
  exists j, index_from i (a +:+ p +:+ b) p = Some j.
Proof.
  induction a as [|c a IH]; intros i.
  - app_step. exists i. apply index_from_prefix, prefix_append.
  - app_step.
    change (index_from i (String c (a +:+ p +:+ b)) p)
      with (if String.prefix p (String c (a +:+ p +:+ b)) then Some i
            else index_from (S i) (a +:+ p +:+ b) p).
    destruct (String.prefix p (String c (a +:+ p +:+ b))); eauto.
Qed.

Lemma Contains_infix (s p : string) :
  Contains s p = true <-> exists a b, s = a +:+ p +:+ b.
Proof.
  unfold Contains, Index. split.
  - destruct (index_from 0 s p) as [j|] eqn:H.
    + intros _. eapply index_from_infix. exact H.
    + intros Hneg. apply Z.leb_le in Hneg. lia.
  - intros (a & b & ->). destruct (infix_index_from p b a 0) as [j ->].
    apply Z.leb_le. lia.
Qed.

Lemma TrimLeft_decompose (f : ascii -> bool) (s : string) :
  exists l,
    s = l +:+ TrimLeftFunc f s
    /\ (TrimLeftFunc f s = EmptyString
        \/ exists c z, TrimLeftFunc f s = String c z /\ f c = false).
Proof.
  induction s as [|c r IH]; [exists EmptyString; simpl; auto|].
  cbn [TrimLeftFunc]. destruct (f c) eqn:Hc.
  - destruct IH as (l & Hl & Hcase). exists (String c l). split; [|exact Hcase].
    app_step. f_equal. exact Hl.
  - exists EmptyString. split; [reflexivity|]. right. eauto.
Qed.

Lemma TrimRight_decompose (f : ascii -> bool) (s : string) :
  exists r,
    s = TrimRightFunc f s +:+ r
    /\ (TrimRightFunc f s = EmptyString
        \/ exists a c, TrimRightFunc f s = a +:+ String c EmptyString /\ f c = false).
Proof.
  induction s as [|c s IH]; [exists EmptyString; simpl; auto|].
  cbn [TrimRightFunc]. destruct IH as (r & Hr & Hcase).
  destruct (f c && is_empty (TrimRightFunc f s)) eqn:Hc.
  - exists (String c s). split; [reflexivity | left; reflexivity].
  - exists r. split; [app_step; f_equal; exact Hr|]. right.
    destruct Hcase as [He | (a & d & Ha & Hd)].
    + rewrite He in *. simpl in Hc. rewrite andb_true_r in Hc.
      exists EmptyString, c. split; [reflexivity | exact Hc].
    + exists (String c a), d. rewrite Ha. split; [reflexivity | exact Hd].
Qed.

Lemma TrimLeft_append (f : ascii -> bool) (x : string) (c : ascii) (z : string) :
  f c = false -> exists x', TrimLeftFunc f (x +:+ String c z) = x' +:+ String c z.
Proof.
  intros Hc. induction x as [|d x IH]; app_step.
  - exists EmptyString. simpl. rewrite Hc. reflexivity.
  - cbn [TrimLeftFunc]. destruct (f d); [exact IH|].
    exists (String d x). reflexivity.
Qed.

Lemma TrimRight_append (f : ascii -> bool) (a : string) (c : ascii) (y : string) :
  f c = false ->
  TrimRightFunc f (a +:+ String c y) = a +:+ String c (TrimRightFunc f y).
Proof.
  intros Hc. induction a as [|d a IH]; app_step.
  - cbn [TrimRightFunc]. rewrite Hc. reflexivity.
  - cbn [TrimRightFunc]. rewrite IH.
    assert (He : is_empty (a +:+ String c (TrimRightFunc f y)) = false)
      by (destruct a; reflexivity).
    rewrite He, andb_false_r. reflexivity.
Qed.

(** The trimmed form of a command occurs in the trimmed form of every
    text the command occurs in. *)
Lemma trim_blanks_wrapped (pre command post : string) :
  exists a b,
    trim_blanks (pre +:+ command +:+ post) = a +:+ trim_blanks command +:+ b.
Proof.
  unfold trim_blanks.
  destruct (TrimLeft_decompose is_space command) as (l & Hl & Hu).
  destruct (TrimRight_decompose is_space (TrimLeftFunc is_space command))
    as (r & Hr & Ht).
  set (u := TrimLeftFunc is_space command) in *.
  set (t := TrimRightFunc is_space u) in *.
  destruct Ht as [Ht | (a0 & c1 & Ht & Hc1)].
  { rewrite Ht. eexists _, EmptyString. app_step. symmetry. apply append_empty_r. }
  destruct Hu as [Hu | (c0 & z & Hu & Hc0)].
  { exfalso. subst t. rewrite Hu in Ht. simpl in Ht. destruct a0; discriminate. }
  assert (Hhead : exists z', t = String c0 z').
  { subst t. rewrite Hu in *. cbn [TrimRightFunc] in *. rewrite Hc0 in *.
    simpl in *. eauto. }
  destruct Hhead as [z' Hz'].
  assert (HW : pre +:+ command +:+ post = (pre +:+ l) +:+ String c0 (z' +:+ r +:+ post)).
  { rewrite Hl, Hr, Hz'. rewrite !append_assoc. app_step.
    rewrite ?append_assoc. reflexivity. }
  rewrite HW.
  destruct (TrimLeft_append is_space (pre +:+ l) c0 (z' +:+ r +:+ post) Hc0)
    as [x' ->].
  assert (Hmid : x' +:+ String c0 (z' +:+ r +:+ post)
                 = (x' +:+ a0) +:+ String c1 (r +:+ post)).
  { change (String c0 (z' +:+ r +:+ post)) with (String c0 z' +:+ r +:+ post).
    rewrite <- Hz', Ht. rewrite !append_assoc. app_step. reflexivity. }
  rewrite Hmid, (TrimRight_append _ _ _ _ Hc1).
  exists x', (TrimRightFunc is_space (r +:+ post)).
  rewrite Ht, !append_assoc. reflexivity.
Qed.

Lemma lower_trim_wrapped (pre command post p : string) :
  Contains (lower_bytes (trim_blanks command)) p = true ->
  Contains (lower_bytes (trim_blanks (pre +:+ command +:+ post))) p = true.
Proof.
  intros H. apply Contains_infix in H as (a1 & b1 & Ht).
  destruct (trim_blanks_wrapped pre command post) as (a & b & ->).
  apply Contains_infix.
  exists (lower_bytes a +:+ a1), (b1 +:+ lower_bytes b).
  rewrite !lower_bytes_append, Ht, !append_assoc. reflexivity.
Qed.

Lemma ascii_only_trim_blanks (s : string) :
  ascii_only s = true -> ascii_only (trim_blanks s) = true.
Proof.
  intros H. unfold trim_blanks.
  assert (HL : forall t, ascii_only t = true ->
                 ascii_only (TrimLeftFunc is_space t) = true).
  { induction t as [|c r IH]; simpl; [reflexivity|].
    intros Ht. destruct (is_space c); [|exact Ht].
    apply andb_true_iff in Ht as [_ Ht]. auto. }
  assert (HR : forall t, ascii_only t = true ->
                 ascii_only (TrimRightFunc is_space t) = true).
  { induction t as [|c r IH]; simpl; [reflexivity|].
    intros Ht. apply andb_true_iff in Ht as [H1 H2].
    destruct (is_space c && is_empty (TrimRightFunc is_space r)); [reflexivity|].
    simpl. rewrite H1, (IH H2). reflexivity. }
  apply HR, HL, H.
Qed.

Context {str : Ops} {laws : Laws str}.

Lemma lower_trim_ascii (s : string) :
  ascii_only s = true ->
  ToLower (TrimSpace s) = lower_bytes (trim_blanks s).
Proof.
  intros H. rewrite (TrimSpace_ascii s H).
  apply ToLower_ascii_text, ascii_only_trim_blanks, H.
Qed.

Lemma Contains_wrapped (pre command post p : string) :
  ascii_only pre = true -> ascii_only command = true -> ascii_only post = true ->
  Contains (ToLower (TrimSpace command)) p = true ->
  Contains (ToLower (TrimSpace (pre +:+ command +:+ post))) p = true.
Proof.
  intros H1 H2 H3.
  rewrite !lower_trim_ascii;
    rewrite ?ascii_only_append, ?H1, ?H2, ?H3; try reflexivity.
  apply lower_trim_wrapped.
Qed.

(** Putting ASCII text before and after an ASCII command never lowers
    its tier: a command that is blocked stays blocked inside any longer
    command, and a command that is not safe does not become safe.
    (With other bytes this fails: a byte put after the command can
    complete a Unicode space, which [TrimSpace] then strips together
    with a blank the rule needs.) *)
Theorem Check_wrapped (c : Checker) (pre command post : string) :
  ascii_only pre = true -> ascii_only command = true -> ascii_only post = true ->
  (level (Check c command) = Blocked ->
   level (Check c (pre +:+ command +:+ post)) = Blocked)
  /\ (level (Check c command) <> Safe ->
      level (Check c (pre +:+ command +:+ post)) <> Safe).
Proof.
  intros Hpre Hcmd Hpost.
  assert (Hb : level (Check c command) = Blocked ->
               level (Check c (pre +:+ command +:+ post)) = Blocked).
  { unfold Check at 1.
    destruct (first_match _ (blockedPatterns c)) as [q|] eqn:Hq.
    - intros _. destruct (first_match_first _ _ _ Hq) as (l1 & l2 & Heq & Hc & _).
      apply (Check_blocked c _ q).
      + rewrite Heq. apply in_or_app. right. left. reflexivity.
      + apply Contains_wrapped; assumption.
    - destruct (first_match _ (confirmPatterns c)); discriminate. }
  split; [exact Hb|].
  intros Hns. destruct (level (Check c command)) eqn:Hl; [congruence| |].
  - unfold Check in Hl.
    destruct (first_match _ (blockedPatterns c)) as [q|]; [discriminate|].
    destruct (first_match _ (confirmPatterns c)) as [q|] eqn:Hq; [|discriminate].
    destruct (first_match_first _ _ _ Hq) as (l1 & l2 & Heq & Hc & _).
    assert (Hin : In q (confirmPatterns c))
      by (rewrite Heq; apply in_or_app; right; left; reflexivity).
    destruct (first_match_found _ _ _ Hin
                (Contains_wrapped pre _ post _ Hpre Hcmd Hpost Hc))
      as [q' Hq'].
    unfold Check. destruct (first_match _ (blockedPatterns c)); [discriminate|].
    rewrite Hq'. discriminate.
  - rewrite Hb by reflexivity. discriminate.
Qed.

End CheckWrapped.

Section CheckWrappedExamples.
Import GoStrings safety.
#[local] Existing Instance ascii.ops.

(** A blocked command chained after a harmless one. *)
Lemma Check_wrapped_witness :
  let pre := "echo hello; " in
  let command := "Format-Volume -DriveLetter C" in
  let post := " -Force" in
  ascii_only pre = true /\ ascii_only command = true /\ ascii_only post = true
  /\ level (Check NewChecker command) = Blocked
  /\ level (Check NewChecker "echo hello; Format-Volume -DriveLetter C -Force")
     = Blocked.
Proof.
  intros pre command post.
  assert (H1 : ascii_only pre = true) by reflexivity.
  assert (H2 : ascii_only command = true) by reflexivity.
  assert (H3 : ascii_only post = true) by reflexivity.
  assert (H : level (Check NewChecker command) = Blocked) by reflexivity.
  split; [exact H1|]. split; [exact H2|]. split; [exact H3|]. split; [exact H|].
  exact (proj1 (Check_wrapped (laws:=ascii_laws) NewChecker pre command post
                  H1 H2 H3) H).
Defined.

End CheckWrappedExamples.

(** ** The last-created hint is one token *)
Section CreatedNames.
Import GoStrings memory text.

Lemma all_bytes_weaken (g h : ascii -> bool) (s : string) :
  (forall c, g c = true -> h c = true) ->
  all_bytes g s = true -> all_bytes h s = true.
Proof.
  intros Hgh. induction s as [|c r IH]; simpl; [reflexivity|].
  intros H. apply andb_true_iff in H as [H1 H2].
  rewrite (Hgh c H1), (IH H2). reflexivity.
Qed.

Lemma all_bytes_TrimLeft (f g : ascii -> bool) (s : string) :
  all_bytes g s = true -> all_bytes g (TrimLeftFunc f s) = true.
Proof.
  induction s as [|c r IH]; simpl; [reflexivity|].
  intros H. destruct (f c); [|exact H].
  apply andb_true_iff in H as [_ H]. auto.
Qed.

Lemma all_bytes_TrimRight (f g : ascii -> bool) (s : string) :
  all_bytes g s = true -> all_bytes g (TrimRightFunc f s) = true.
Proof.
  induction s as [|c r IH]; simpl; [reflexivity|].
  intros H. apply andb_true_iff in H as [H1 H2].
  destruct (f c && is_empty (TrimRightFunc f r)); [reflexivity|].
  simpl. rewrite H1, (IH H2). reflexivity.
Qed.

Lemma all_bytes_Trim (g : ascii -> bool) (s cutset : string) :
  all_bytes g s = true -> all_bytes g (Trim s cutset) = true.
Proof. intros H. unfold Trim. apply all_bytes_TrimRight, all_bytes_TrimLeft, H. Qed.

Lemma index_any_take (chars : string) (s : string) : forall i,
  match index_any_from i s chars with
  | Some j =>
      (i <= j)%nat
      /\ all_bytes (fun c => negb (mem_byte c chars)) (take_bytes (j - i) s) = true
  | None => all_bytes (fun c => negb (mem_byte c chars)) s = true
  end.
Proof.
  induction s as [|c r IH]; intros i; simpl; [reflexivity|].
  destruct (mem_byte c chars) eqn:Hc.
  - split; [lia|]. rewrite Nat.sub_diag. reflexivity.
  - specialize (IH (S i)). destruct (index_any_from (S i) r chars) as [j|].
    + destruct IH as [Hle Hall]. split; [lia|].
      replace (j - i)%nat with (S (j - S i)) by lia. simpl.
      rewrite Hc, Hall. reflexivity.
    + simpl. exact IH.
Qed.

Lemma last_Forall {A : Type} (P : A -> Prop) (l : list A) (d : A) :
  Forall P l -> P d -> P (List.last l d).
Proof.
  intros Hl Hd. induction Hl as [|x l Hx Hl IH]; [exact Hd|].
  destruct l; [exact Hx | exact IH].
Qed.

Lemma all_bytes_of_mem (f : ascii -> bool) (s : string) :
  (forall c, mem_byte c s = true -> f c = true) -> all_bytes f s = true.
Proof.
  induction s as [|d r IH]; simpl; [reflexivity|].
  intros H. rewrite (H d) by (rewrite Ascii.eqb_refl; reflexivity).
  apply IH. intros c Hc. apply H. rewrite Hc. apply orb_true_r.
Qed.

Context {str : Ops} {laws : Laws str}.

Lemma last_field_clean (cmd cutset : string) :
  all_bytes (fun c => negb (is_space c))
    (Trim (List.last (Fields cmd) EmptyString) cutset) = true.
Proof.
  apply all_bytes_Trim.
  apply (last_Forall (fun w => all_bytes (fun c => negb (is_space c)) w = true));
    [|reflexivity].
  apply List.Forall_forall. intros w Hw. apply all_bytes_of_mem.
  intros c Hc. rewrite (Fields_blank cmd w c Hw Hc). reflexivity.
Qed.

(** The path [ExtractPathFromCommand] returns holds no ASCII white
    space: it is empty, when the command has fewer than two fields, or
    the last field of the command without the quotes around it. *)
Theorem ExtractPathFromCommand_one_word (cmd : string) :
  all_bytes (fun c => negb (is_space c)) (ExtractPathFromCommand cmd) = true
  /\ ((length (Fields cmd) < 2)%nat -> ExtractPathFromCommand cmd = EmptyString)
  /\ ((2 <= length (Fields cmd))%nat ->
      ExtractPathFromCommand cmd
      = Trim (List.last (Fields cmd) EmptyString) ("'" +:+ dquote)).
Proof.
  unfold ExtractPathFromCommand.
  destruct (2 <=? length (Fields cmd))%nat eqn:H.
  - split; [apply last_field_clean|]. apply Nat.leb_le in H. split; [lia | reflexivity].
  - apply Nat.leb_gt in H. split; [reflexivity|]. split; [reflexivity | lia].
Qed.

(** [ExtractNameFromCommand] panics exactly when the lower-cased command
    holds "-name" so far to the right that fewer than five bytes of the
    command follow that offset; it never does on a command of ASCII
    bytes.  The name it returns holds neither a space nor a tab. *)
Theorem ExtractNameFromCommand_one_token (cmd : string) :
  (ExtractNameFromCommand cmd = None
   <-> Index (ToLower cmd) "-name" <> (-1)%Z
       /\ (len cmd < Index (ToLower cmd) "-name" + 5)%Z)
  /\ (ascii_only cmd = true -> ExtractNameFromCommand cmd <> None)
  /\ (forall name, ExtractNameFromCommand cmd = Some name ->
        all_bytes (fun c => negb (mem_byte c (" " +:+ tab))) name = true).
Proof.
  split; [apply ExtractNameFromCommand_panics|]. split.
  - intros Ha Hn. apply ExtractNameFromCommand_panics in Hn as [Hi Hr].
    rewrite (ToLower_ascii_text cmd Ha) in Hi, Hr.
    assert (H0 : (0 <= Index (lower_bytes cmd) "-name")%Z).
    { unfold Index in *. destruct (index_from 0 (lower_bytes cmd) "-name"); lia. }
    apply Index_in_range in H0. unfold len in *.
    rewrite lower_bytes_length in H0. simpl in H0. lia.
  - intros name. unfold ExtractNameFromCommand.
    destruct (negb (Index (ToLower cmd) "-name" =? -1)%Z).
    + destruct (Index (ToLower cmd) "-name" + 5 <=? len cmd)%Z; [|discriminate].
      intros [= <-].
      set (nm := Trim _ _). unfold IndexAny, slice_to.
      pose proof (index_any_take (" " +:+ tab) nm 0) as H.
      destruct (index_any_from 0 nm (" " +:+ tab)) as [j|].
      * destruct H as [_ H]. rewrite Nat.sub_0_r in H.
        replace (Z.of_nat j =? -1)%Z with false by (symmetry; apply Z.eqb_neq; lia).
        simpl negb. cbv iota. rewrite Nat2Z.id. exact H.
      * simpl. exact H.
    + assert (Hw : forall s, all_bytes (fun c => negb (is_space c)) s = true ->
                   all_bytes (fun c => negb (mem_byte c (" " +:+ tab))) s = true).
      { intros s. apply all_bytes_weaken. intros c Hc.
        destruct (mem_byte c (" " +:+ tab)) eqn:Hm; [|reflexivity].
        exfalso. simpl in Hm. rewrite orb_false_r in Hm.
        apply orb_true_iff in Hm as [Hm | Hm]; apply Ascii.eqb_eq in Hm; subst c;
          discriminate. }
      destruct (Contains (ToLower cmd) "mkdir"); [|intros [= <-]; reflexivity].
      destruct (2 <=? length (Fields cmd))%nat; intros [= <-]; [|reflexivity].
      apply Hw, last_field_clean.
Qed.

End CreatedNames.

(** ** The prompt text of a context *)
Section PromptText.
Import GoStrings memory session prompt.
Context {str : Ops} {fp : filepath.Ops}.

Lemma Join_head (c : ascii) (r : string) (ps : list string) (sep : string) :
  Join (String c r :: ps) sep <> EmptyString.
Proof. destruct ps; simpl; discriminate. Qed.

Lemma exchanges_keep_head (exs : list Exchange) : forall (a : string) (acc : list string),
  exists tl,
    fold_left (fun parts ex => parts ++ exchange_parts ex) exs (a :: acc) = a :: tl.
Proof.
  induction exs as [|ex exs IH]; intros a acc; simpl; [eauto|]. apply IH.
Qed.

(** With a hint or a recent exchange, the first part is not empty. *)
Lemma prompt_parts_head (c : ContextInfo) :
  ctx_LastAction c <> EmptyString
  \/ ctx_LastCreated c <> EmptyString
  \/ RecentExchanges c <> [] ->
  exists a r tl, prompt_parts c = String a r :: tl.
Proof.
  unfold prompt_parts. destruct c as [wd action created recent]. simpl.
  intros H.
  destruct action as [|a action]; simpl.
  - destruct created as [|b created]; simpl.
    + destruct recent as [|ex recent]; simpl; [tauto|].
      destruct (exchanges_keep_head recent "- Recent conversation:" (exchange_parts ex))
        as [tl Htl].
      simpl in Htl. rewrite Htl. eauto.
    + destruct recent as [|ex recent]; simpl; [eexists _, _, _; reflexivity|].
      destruct (exchanges_keep_head recent
                  ("- Last created/opened: " +:+ String b created)
                  (["- Recent conversation:"] ++ exchange_parts ex)) as [tl Htl].
      simpl in Htl. rewrite Htl. eexists _, _, _; reflexivity.
  - destruct created as [|b created]; simpl;
      (destruct recent as [|ex recent]; simpl; [eexists _, _, _; reflexivity|]).
    + destruct (exchanges_keep_head recent
                  ("- Last action: " +:+ String a action)
                  (["- Recent conversation:"] ++ exchange_parts ex)) as [tl Htl].
      simpl in Htl. rewrite Htl. eexists _, _, _; reflexivity.
    + destruct (exchanges_keep_head recent
                  ("- Last action: " +:+ String a action)
                  (["- Last created/opened: " +:+ String b created;
                    "- Recent conversation:"] ++ exchange_parts ex)) as [tl Htl].
      simpl in Htl. rewrite Htl. eexists _, _, _; reflexivity.
Qed.

Lemma prompt_not_empty (c : ContextInfo) :
  ctx_LastAction c <> EmptyString
  \/ ctx_LastCreated c <> EmptyString
  \/ RecentExchanges c <> [] ->
  FormatForPrompt c <> EmptyString.
Proof.
  intros H. destruct (prompt_parts_head c H) as (a & r & tl & Hp).
  unfold FormatForPrompt. rewrite Hp. apply Join_head.
Qed.

(** [FormatForPrompt] returns the empty string exactly for a context
    with no last action, no last-created name and no recent exchange;
    the working directory plays no part. *)
Theorem FormatForPrompt_empty (c : ContextInfo) :
  FormatForPrompt c = EmptyString
  <-> ctx_LastAction c = EmptyString
      /\ ctx_LastCreated c = EmptyString
      /\ RecentExchanges c = [].
Proof.
  split.
  - intros H.
    destruct (ctx_LastAction c) as [|a action] eqn:Ha;
      [|exfalso; revert H; apply prompt_not_empty; rewrite Ha; left; discriminate].
    destruct (ctx_LastCreated c) as [|b created] eqn:Hb;
      [|exfalso; revert H; apply prompt_not_empty; rewrite Hb; right; left;
        discriminate].
    destruct (RecentExchanges c) as [|ex recent] eqn:Hr;
      [|exfalso; revert H; apply prompt_not_empty; rewrite Hr; right; right;
        discriminate].
    auto.
  - destruct c as [wd action created recent]. simpl.
    intros (-> & -> & ->). reflexivity.
Qed.

Lemma record_keeps (m m' : Memory) (d d' : os.Disk) (c : call) :
  record m d c = Some (m', d') ->
  LastAction m' = call_response c
  /\ MaxExchanges m' = MaxExchanges m
  /\ ((1 <= MaxExchanges m)%Z -> Exchanges m' <> []).
Proof.
  destruct (record_unfold m d c)
    as [(_ & _ & ->) | (_ & m3 & HE & _ & _ & HM & _ & HA & _ & ->)];
    [discriminate|].
  assert (Hlen : length (Exchanges m3) = S (length (Exchanges m)))
    by (rewrite HE, length_app; simpl; lia).
  assert (Hne : forall k, (k < length (Exchanges m3))%nat -> drop k (Exchanges m3) <> []).
  { intros k Hk Hnil. apply (f_equal length) in Hnil.
    rewrite length_drop in Hnil. simpl in Hnil. lia. }
  destruct (CompactAfter m3 <? Z.of_nat (length (Exchanges m3)))%Z.
  - unfold compact.
    destruct (Z.of_nat (length (Exchanges m3)) <=? MaxExchanges m3)%Z eqn:Hle.
    + intros [= <- <-]. repeat split; auto. intros _. apply (Hne 0%nat). lia.
    + apply Z.leb_gt in Hle.
      destruct (MaxExchanges m3 <? 0)%Z eqn:Hneg; [discriminate|].
      apply Z.ltb_ge in Hneg.
      destruct (os.append_file _ _ _) as [d1|]; intros [= <- <-]; simpl;
        repeat split; auto; intros H1; apply Hne; lia.
  - intros [= <- <-]. repeat split; auto. intros _. apply (Hne 0%nat). lia.
Qed.

(** After a call of [RecordExchange] that returns, on a memory whose
    window size is not negative, [GetContext] returns and the prompt
    text of the context is not empty, provided the response is not
    empty or the window holds at least one exchange.  The repository's
    test checks this for one exchange on a fresh memory. *)
Theorem FormatForPrompt_after_exchange (m m' : Memory) (d d' : os.Disk) (c : call) :
  record m d c = Some (m', d') ->
  call_response c <> EmptyString \/ (1 <= MaxExchanges m)%Z ->
  (0 <= MaxExchanges m)%Z ->
  exists ctx,
    GetContext m' = Some ctx /\ FormatForPrompt ctx <> EmptyString.
Proof.
  intros Hrec Hor Hpos.
  destruct (record_keeps m m' d d' c Hrec) as (HA & HM & HE).
  unfold GetContext. rewrite HM.
  assert (Hgoal : forall recent,
            ((1 <= MaxExchanges m)%Z -> recent <> []) ->
            FormatForPrompt
              {| WorkingDirectory := WorkingDir m'; ctx_LastAction := LastAction m';
                 ctx_LastCreated := LastCreated m'; RecentExchanges := recent |}
            <> EmptyString).
  { intros recent Hr. apply prompt_not_empty. simpl. rewrite HA.
    destruct Hor as [H | H]; [left; exact H | right; right; auto]. }
  destruct (MaxExchanges m <? Z.of_nat (length (Exchanges m')))%Z eqn:Hlt.
  - destruct (MaxExchanges m <? 0)%Z eqn:Hneg; [apply Z.ltb_lt in Hneg; lia|].
    apply Z.ltb_lt in Hlt.
    eexists. split; [reflexivity|]. apply Hgoal. intros H1 Hnil.
    apply (f_equal length) in Hnil. rewrite length_drop in Hnil. simpl in Hnil. lia.
  - eexists. split; [reflexivity|]. apply Hgoal. exact HE.
Qed.

End PromptText.

Section PromptTextExamples.
Import GoStrings memory session prompt examples.
#[local] Existing Instance ascii.ops.

Lemma FormatForPrompt_after_exchange_witness :
  let m' := set_LastAction
              (set_Exchanges fresh_memory [exchange_of a_call]) "response" in
  record (fp:=unix.ops) fresh_memory writable_disk a_call = Some (m', writable_disk)
  /\ (call_response a_call <> EmptyString \/ (1 <= MaxExchanges fresh_memory)%Z)
  /\ (0 <= MaxExchanges fresh_memory)%Z
  /\ exists ctx,
       GetContext m' = Some ctx /\ FormatForPrompt ctx <> EmptyString.
Proof.
  intros m'.
  assert (H1 : record (fp:=unix.ops) fresh_memory writable_disk a_call
               = Some (m', writable_disk)) by reflexivity.
  assert (H2 : call_response a_call <> EmptyString \/ (1 <= MaxExchanges fresh_memory)%Z)
    by (right; simpl; lia).
  assert (H3 : (0 <= MaxExchanges fresh_memory)%Z) by (simpl; lia).
  split; [exact H1|]. split; [exact H2|]. split; [exact H3|].
  exact (FormatForPrompt_after_exchange (fp:=unix.ops) fresh_memory m'
           writable_disk writable_disk a_call H1 H2 H3).
Defined.

(** The prompt text after the exchange of the repository's test. *)
Example FormatForPrompt_hello :
  FormatForPrompt
    {| WorkingDirectory := "/home/u"; ctx_LastAction := "Hi!";
       ctx_LastCreated := EmptyString;
       RecentExchanges :=
         [ {| Timestamp := morning; UserInput := "hello"; Command := EmptyString;
              Result := EmptyString; Response := "Hi!" |} ] |}
  = "- Last action: Hi!" +:+ nl +:+ "- Recent conversation:" +:+ nl
    +:+ "  User: hello" +:+ nl +:+ "  Response: Hi!".
Proof. reflexivity. Qed.

End PromptTextExamples.

(** ** The end-of-turn test *)
Section PartialEnd.
Import GoStrings text llm.

Lemma drop_bytes_add (a b : nat) (s : string) :
  drop_bytes a (drop_bytes b s) = drop_bytes (b + a) s.
Proof.
  revert s. induction b as [|b IH]; intros s; simpl; [reflexivity|].
  destruct s as [|c r]; [destruct a; reflexivity | apply IH].
Qed.

Lemma HasSuffix_tail (s suffix : string) (c : ascii) :
  HasSuffix s (String c suffix) = true -> HasSuffix s suffix = true.
Proof.
  unfold HasSuffix. cbn [String.length]. intros H.
  apply andb_true_iff in H as [Hlen Heq].
  apply Nat.leb_le in Hlen. apply String.eqb_eq in Heq.
  apply andb_true_iff. split; [apply Nat.leb_le; lia|].
  apply String.eqb_eq.
  replace (String.length s - String.length suffix)%nat
    with ((String.length s - S (String.length suffix)) + 1)%nat by lia.
  rewrite <- drop_bytes_add, Heq. reflexivity.
Qed.

Lemma exists_upto_3 (f : nat -> bool) (n : nat) :
  existsb f (seq 1 (Nat.min 3 n))
  = ((1 <=? n)%nat && f 1%nat) || ((2 <=? n)%nat && f 2%nat)
    || ((3 <=? n)%nat && f 3%nat).
Proof.
  destruct n as [|[|[|n]]]; simpl;
    destruct (f 1%nat), (f 2%nat), (f 3%nat); reflexivity.
Qed.

Lemma exists_upto_4 (f : nat -> bool) (n : nat) :
  existsb f (seq 1 (Nat.min 4 n))
  = ((1 <=? n)%nat && f 1%nat) || ((2 <=? n)%nat && f 2%nat)
    || ((3 <=? n)%nat && f 3%nat) || ((4 <=? n)%nat && f 4%nat).
Proof.
  destruct n as [|[|[|[|n]]]]; simpl;
    destruct (f 1%nat), (f 2%nat), (f 3%nat), (f 4%nat); reflexivity.
Qed.

(** [CouldBePartialEnd] holds exactly of the texts that end with a line
    feed, with a line feed and ">", with a line feed, ">" and a space,
    or with a carriage return: the second pattern adds only the last
    case, and every text that ends a line is a partial end. *)
Theorem CouldBePartialEnd_suffixes (s : string) :
  CouldBePartialEnd s
  = HasSuffix s nl || HasSuffix s (nl +:+ ">") || HasSuffix s (nl +:+ "> ")
    || HasSuffix s cr.
Proof.
  pose proof (HasSuffix_tail s nl "013") as T1.
  pose proof (HasSuffix_tail s (nl +:+ ">") "013") as T2.
  pose proof (HasSuffix_tail s (nl +:+ "> ") "013") as T3.
  unfold CouldBePartialEnd, suffixes, partial_end.
  change (nl +:+ "> ") with (String "010" (String ">" (String " " EmptyString))) in *.
  change (nl +:+ ">") with (String "010" (String ">" EmptyString)) in *.
  change (cr +:+ String "010" (String ">" (String " " EmptyString)))
    with (String "013" (String "010" (String ">" (String " " EmptyString)))).
  unfold nl, cr in *.
  cbn [existsb String.length].
  rewrite exists_upto_3, exists_upto_4.
  unfold HasSuffix in *. cbn [String.length take_bytes] in *.
  destruct (1 <=? String.length s)%nat, (2 <=? String.length s)%nat,
    (3 <=? String.length s)%nat, (4 <=? String.length s)%nat;
    cbn [andb orb] in *;
    repeat match goal with
    | |- context [String.eqb ?a ?b] => destruct (String.eqb a b)
    end; cbn [andb orb] in *; try reflexivity;
    try (discriminate (T1 eq_refl)); try (discriminate (T2 eq_refl));
    try (discriminate (T3 eq_refl)).
Qed.

End PartialEnd.

Section PartialEndExamples.
Import GoStrings llm.

(** The table of the repository's test. *)
Example CouldBePartialEnd_repository_test :
  CouldBePartialEnd ("hello" +:+ nl) = true
  /\ CouldBePartialEnd ("hello" +:+ nl +:+ ">") = true
  /\ CouldBePartialEnd ("hello" +:+ nl +:+ "> ") = true
  /\ CouldBePartialEnd ("hello" +:+ cr +:+ nl) = true
  /\ CouldBePartialEnd ("hello" +:+ cr +:+ nl +:+ "> ") = true
  /\ CouldBePartialEnd "hello world" = false
  /\ CouldBePartialEnd "no match" = false
  /\ CouldBePartialEnd ">" = false.
Proof. repeat split. Qed.

End PartialEndExamples.

(** ** Runs of the planner and the executor *)
Section FurtherExamples.
Import GoStrings planner executor conversation text examples.
#[local] Existing Instance ascii.ops.

Lemma buildMessages_shape_witness :
  let p := a_windows_planner in
  let messages := default [] (buildMessages (codec:=json.codec) p "list files") in
  buildMessages (codec:=json.codec) p "list files" = Some messages
  /\ exists ctx older replayed,
       memory.GetContext a_windows_memory = Some ctx
       /\ memory.RecentExchanges ctx = older ++ replayed
       /\ length replayed = Nat.min 2 (length (memory.RecentExchanges ctx))
       /\ messages
          = flat_map (fun ex =>
              [ {| Role := "user"; Content := memory.UserInput ex |};
                history_message (codec:=json.codec) ex ]) replayed
            ++ [ {| Role := "user";
                    Content := "list files" +:+ nl +:+ nl +:+ "[CWD: "
                               +:+ ReplaceAll (memory.WorkingDirectory ctx) "\" "/"
                               +:+ "]" |} ]
       /\ (forall ex json,
             json.Marshal
               {| hp_Command := if is_empty (memory.Command ex) then None
                                else Some (memory.Command ex);
                  hp_Shell := "powershell";
                  hp_Response := memory.Response ex;
                  hp_Reasoning := "executed";
                  hp_Safe := true |} = inl json ->
             history_message (codec:=json.codec) ex
             = {| Role := "assistant"; Content := json |})
       /\ (forall ex, Role (history_message (codec:=json.codec) ex) = "assistant")
       /\ map Role messages = turn_roles (length replayed) ++ ["user"]
       /\ (length messages = 2 * length replayed + 1)%nat.
Proof.
  intros p messages.
  assert (H : buildMessages (codec:=json.codec) p "list files" = Some messages)
    by reflexivity.
  split; [exact H|].
  exact (buildMessages_shape (codec:=json.codec) p "list files" messages H).
Defined.

(** Of the three exchanges the memory holds, the last two are replayed,
    in their order, before the current input. *)
Example buildMessages_replays_two :
  buildMessages (codec:=json.codec) a_windows_planner "list files"
  = Some
      [ {| Role := "user"; Content := "create a folder called docs" |};
        {| Role := "assistant";
           Content := object [("command", quoted "mkdir docs");
                              ("shell", quoted "powershell");
                              ("response", quoted "Created folder docs");
                              ("reasoning", quoted "executed");
                              ("safe", "true")] |};
        {| Role := "user"; Content := "thanks" |};
        {| Role := "assistant";
           Content := object [("command", "null");
                              ("shell", quoted "powershell");
                              ("response", quoted "You're welcome");
                              ("reasoning", quoted "executed");
                              ("safe", "true")] |};
        {| Role := "user";
           Content := "list files" +:+ nl +:+ nl +:+ "[CWD: C:/Users/me]" |} ].
Proof. reflexivity. Qed.

Lemma buildMessages_cwd_forward_slashes_witness :
  let p := a_windows_planner in
  let messages := default [] (buildMessages (codec:=json.codec) p "list files") in
  let cwd := map_bytes (fun c => if Ascii.eqb c "\" then "/"%char else c)
               (memory.WorkingDir a_windows_memory) in
  mem p = Some a_windows_memory
  /\ buildMessages (codec:=json.codec) p "list files" = Some messages
  /\ cwd = "C:/Users/me"
  /\ mem_byte "\" cwd = false
  /\ String.length cwd = String.length (memory.WorkingDir a_windows_memory)
  /\ exists history,
       messages
       = history ++ [ {| Role := "user";
                         Content := "list files" +:+ nl +:+ nl +:+ "[CWD: "
                                    +:+ cwd +:+ "]" |} ].
Proof.
  intros p messages cwd.
  assert (H1 : mem p = Some a_windows_memory) by reflexivity.
  assert (H2 : buildMessages (codec:=json.codec) p "list files" = Some messages)
    by reflexivity.
  assert (H3 : cwd = "C:/Users/me") by reflexivity.
  split; [exact H1|]. split; [exact H2|]. split; [exact H3|].
  exact (buildMessages_cwd_forward_slashes (codec:=json.codec) p a_windows_memory
           "list files" messages H1 H2).
Defined.

Lemma sanitizeCommand_unrelated_witness :
  (forall v, In v (variants "C:\Users\me") ->
             Contains "Get-ChildItem" v = false
             /\ Contains (ToLower "Get-ChildItem") (ToLower v) = false)
  /\ sanitizeCommand "Get-ChildItem" "C:\Users\me" = Some "Get-ChildItem".
Proof.
  assert (H : forall v, In v (variants "C:\Users\me") ->
                        Contains "Get-ChildItem" v = false
                        /\ Contains (ToLower "Get-ChildItem") (ToLower v) = false).
  { intros v Hv. cbv in Hv.
    destruct Hv as [<-|[<-|[<-|[<-|[<-|[]]]]]]; split; reflexivity. }
  split; [exact H|].
  exact (sanitizeCommand_unrelated "Get-ChildItem" "C:\Users\me" H).
Defined.

(** A command that spells the working directory in capitals: the second
    loop cuts it out. *)
Lemma sanitizeCommand_only_removes_witness :
  let command := "dir C:\USERS\ME\docs" in
  let workingDir := "C:\Users\me" in
  sanitizeCommand command workingDir = Some "dir docs"
  /\ (forall r, sanitizeCommand command workingDir = Some r ->
                (String.length r <= String.length command)%nat)
  /\ (ascii_only command = true -> ascii_only workingDir = true ->
      exists r, sanitizeCommand command workingDir = Some r).
Proof.
  intros command workingDir.
  split; [reflexivity|].
  exact (sanitizeCommand_only_removes (laws:=ascii_laws) command workingDir).
Defined.

(** The last field of a command, without its quotes. *)
Lemma ExtractPathFromCommand_one_word_witness :
  let cmd := "explorer.exe 'C:\Temp'" in
  memory.ExtractPathFromCommand cmd = "C:\Temp"
  /\ all_bytes (fun c => negb (is_space c)) (memory.ExtractPathFromCommand cmd) = true
  /\ ((length (Fields cmd) < 2)%nat -> memory.ExtractPathFromCommand cmd = EmptyString)
  /\ ((2 <= length (Fields cmd))%nat ->
      memory.ExtractPathFromCommand cmd
      = Trim (List.last (Fields cmd) EmptyString) ("'" +:+ dquote)).
Proof.
  intros cmd. split; [reflexivity|].
  exact (ExtractPathFromCommand_one_word (laws:=ascii_laws) cmd).
Defined.

(** The name after [-Name], up to the first blank. *)
Lemma ExtractNameFromCommand_one_token_witness :
  let cmd := "New-Item -ItemType Directory -Name 'My Project'" in
  memory.ExtractNameFromCommand cmd = Some "My"
  /\ (memory.ExtractNameFromCommand cmd = None
      <-> Index (ToLower cmd) "-name" <> (-1)%Z
          /\ (len cmd < Index (ToLower cmd) "-name" + 5)%Z)
  /\ (ascii_only cmd = true -> memory.ExtractNameFromCommand cmd <> None)
  /\ (forall name, memory.ExtractNameFromCommand cmd = Some name ->
        all_bytes (fun c => negb (mem_byte c (" " +:+ tab))) name = true).
Proof.
  intros cmd. split; [reflexivity|].
  exact (ExtractNameFromCommand_one_token (laws:=ascii_laws) cmd).
Defined.

Lemma Execute_timeout_witness :
  let command := "Get-ChildItem -Recurse" in
  let e1 := validate (host:=a_slow_host) an_executor in
  snd (extractCDTarget command) = false
  /\ deadlineExceeded
       (Run (Host:=a_slow_host) (command_for e1 command "powershell") (Timeout e1))
     = true
  /\ Execute (fp:=unix.ops) (host:=a_slow_host) an_executor command "powershell"
     = ({| Success := false; Output := EmptyString;
           Error := "Command timed out after "
                    +:+ Duration_String (Host:=a_slow_host) (Timeout e1);
           Duration := Since (Host:=a_slow_host); NewWorkDir := EmptyString;
           CurrentWorkDir := WorkingDir e1 |},
        e1, [command_for e1 command "powershell"]).
Proof.
  intros command e1.
  assert (H1 : snd (extractCDTarget command) = false) by reflexivity.
  assert (H2 : deadlineExceeded
                 (Run (Host:=a_slow_host) (command_for e1 command "powershell")
                    (Timeout e1)) = true) by reflexivity.
  split; [exact H1|]. split; [exact H2|].
  exact (Execute_timeout (fp:=unix.ops) (host:=a_slow_host)
           an_executor command "powershell" H1 H2).
Defined.

Lemma Execute_deleted_working_directory_witness :
  let command := "Get-ChildItem" in
  let msg := "stat /gone: no such file or directory" in
  snd (extractCDTarget command) = false
  /\ Stat (Host:=a_host) (WorkingDir a_lost_executor) = StatError true msg
  /\ Getwd (Host:=a_host) = inl "/home/u"
  /\ exists r cmd,
       Execute (fp:=unix.ops) (host:=a_host) a_lost_executor command "powershell"
       = (r, SetWorkingDir a_lost_executor "/home/u", [cmd])
       /\ Dir cmd = "/home/u"
       /\ CurrentWorkDir r = "/home/u".
Proof.
  intros command msg.
  assert (H1 : snd (extractCDTarget command) = false) by reflexivity.
  assert (H2 : Stat (Host:=a_host) (WorkingDir a_lost_executor) = StatError true msg)
    by reflexivity.
  assert (H3 : Getwd (Host:=a_host) = inl "/home/u") by reflexivity.
  split; [exact H1|]. split; [exact H2|]. split; [exact H3|].
  exact (Execute_deleted_working_directory (fp:=unix.ops) (host:=a_host)
           a_lost_executor command "powershell" msg "/home/u" H1 H2 H3).
Defined.

Lemma Execute_changes_directory_only_witness :
  let command := "cd projects" in
  let run := Execute (fp:=unix.ops) (host:=a_host) an_executor command "powershell" in
  WorkingDir (snd (fst run)) <> WorkingDir an_executor
  /\ ((cd_idiom command /\ Success (fst (fst run)) = true)
      \/ (~ cd_idiom command
          /\ exists msg,
               Stat (Host:=a_host) (WorkingDir an_executor) = StatError true msg)).
Proof.
  intros command run.
  assert (H : WorkingDir (snd (fst run)) <> WorkingDir an_executor)
    by (vm_compute; discriminate).
  split; [exact H|].
  exact (Execute_changes_directory_only (fp:=unix.ops) (host:=a_host)
           an_executor command "powershell" H).
Defined.

End FurtherExamples.

